(** * RPC client of the fuzzing CLI: a shallow embedding of
      [fuzzing_cli/fuzz/rpc/rpc.py]

    The Python class [RPCClient] reads the history of an Ethereum node over
    JSON-RPC, builds the seed state of a fuzzing campaign and reconciles the
    contracts deployed on the node with the targets the user declared.

    Conventions of the embedding.
    - Python [str] is [string] (a sequence of bytes); [Optional[str]] is
      [option string], with [None] for Python's [None] and JSON's [null].
    - A [dict] whose keys the code enumerates is a [gmap string _]; a
      [TypedDict] whose keys the code only reads by name is a record.
    - A [set] is a [gset]; iterating it is [elements], whose order is as
      unspecified as Python's, so statements speak of membership only.
    - Effects (RPC requests, console notices, calls of the address
      derivation) are appended to a trace that is threaded through a state
      and exception monad [M]; the node answers a request as a function of
      the trace so far, which covers a chain that changes between requests.
    - Blocks and transactions are the objects decoded from JSON responses,
      each a value of its own; the in-place update of a transaction in
      [get_transactions] is the function from the transaction to its
      updated form.
    - Calls of [LOGGER] are left out. *)

From Stdlib Require Import ZArith Ascii String List Lia QArith.
From stdpp Require Import base option list strings gmap sets.

#[local] Set Warnings "-clear-no-such-hyp".

Local Open Scope string_scope.
Local Open Scope Z_scope.
Local Open Scope list_scope.

(** ** Python built-ins used by the client *)

Module Py.

(** [Optional[str]]: a JSON string or [null]. *)
Abbreviation value := (option string).

(** Truth value of an [Optional[str]]: [None] and the empty string are
    falsy. *)
Definition truthy (v : value) : bool :=
  match v with
  | Some (String _ _) => true
  | _ => false
  end.

(** [str(v)] as used by f-strings. *)
Definition str (v : value) : string :=
  match v with
  | Some s => s
  | None => "None"
  end.

(** [sep.join(l)] *)
Fixpoint join (sep : string) (l : list string) : string :=
  match l with
  | [] => EmptyString
  | [x] => x
  | x :: r => x +:+ sep +:+ join sep r
  end.

(** [s[2:]] *)
Definition drop2 (s : string) : string :=
  match s with
  | String _ (String _ r) => r
  | _ => EmptyString
  end.

(** [c.lower()] on one byte: the letters A-Z move to a-z. *)
Definition lower_ascii (c : ascii) : ascii :=
  let n := nat_of_ascii c in
  if (Nat.leb 65 n && Nat.leb n 90)%bool then ascii_of_nat (n + 32) else c.

(** [s.lower()], on the ASCII letters. *)
Fixpoint lower (s : string) : string :=
  match s with
  | EmptyString => EmptyString
  | String c r => String (lower_ascii c) (lower r)
  end.

(** One hexadecimal digit, for [hex]. *)
Definition hex_digit (d : N) : ascii :=
  if (d <? 10)%N then ascii_of_N (48 + d) else ascii_of_N (87 + d).

Fixpoint hex_digits (fuel : nat) (n : N) (acc : string) : string :=
  match fuel with
  | O => acc
  | S fuel' =>
      let acc' := String (hex_digit (n mod 16)) acc in
      if (n / 16 =? 0)%N then acc' else hex_digits fuel' (n / 16) acc'
  end.

(** [hex(i)]: ["0x"] and the lowercase digits, with a leading minus sign for
    a negative number. *)
Definition hex (i : Z) : string :=
  let body := "0x" +:+ hex_digits (S (N.to_nat (N.log2 (Z.abs_N i)))) (Z.abs_N i) EmptyString in
  if i <? 0 then "-" +:+ body else body.

(** Value of a digit in base 16, [None] for any other byte. *)
Definition hex_value (c : ascii) : option Z :=
  let n := Z.of_nat (nat_of_ascii c) in
  if (48 <=? n) && (n <=? 57) then Some (n - 48)
  else if (97 <=? n) && (n <=? 102) then Some (n - 87)
  else if (65 <=? n) && (n <=? 70) then Some (n - 55)
  else None.

(** White space skipped around an integer literal: the bytes that C's
    [isspace] accepts, which are the tab, the line feed, the vertical tab, the
    form feed, the carriage return and the blank.  The separators 28 to 31,
    which [str.isspace] accepts, are not among them. *)
Definition is_space (c : ascii) : bool :=
  let n := nat_of_ascii c in
  ((Nat.leb 9 n && Nat.leb n 13) || Nat.eqb n 32)%bool.

Definition is_underscore (c : ascii) : bool := bool_decide (c = "_"%char).

(** The digit loop of [int(s, 16)]: digits and single underscores between
    them.  [prev_us] tells that the previous byte was an underscore, [seen]
    that a digit was read.  It returns the value and the unread rest, or
    [None] on a doubled or trailing underscore or when no digit was read. *)
Fixpoint int16_digits (cs : list ascii) (prev_us seen : bool) (acc : Z)
  : option (Z * list ascii) :=
  match cs with
  | [] => if (prev_us || negb seen)%bool then None else Some (acc, [])
  | c :: r =>
      if is_underscore c then
        if prev_us then None else int16_digits r true seen acc
      else
        match hex_value c with
        | Some d => int16_digits r false true (16 * acc + d)
        | None => if (prev_us || negb seen)%bool then None else Some (acc, cs)
        end
  end.

Fixpoint skip_spaces (cs : list ascii) : list ascii :=
  match cs with
  | c :: r => if is_space c then skip_spaces r else cs
  | [] => []
  end.

(** [int(s, 16)] on a [str] of ASCII characters, as the quantities of
    JSON-RPC are: optional white space, an optional sign, an optional [0x] or
    [0X] (after which one underscore may stand), the digits, optional white
    space.  [None] is Python's [ValueError]. *)
Definition int16 (s : string) : option Z :=
  let cs := skip_spaces (list_ascii_of_string s) in
  let '(sign, cs) :=
    match cs with
    | "+"%char :: r => (1, r)
    | "-"%char :: r => (-1, r)
    | _ => (1, cs)
    end in
  let cs :=
    match cs with
    | "0"%char :: x :: r =>
        if bool_decide (x = "x"%char) || bool_decide (x = "X"%char) then
          match r with
          | "_"%char :: r' => r'
          | _ => r
          end
        else cs
    | _ => cs
    end in
  match cs with
  | "_"%char :: _ => None
  | _ =>
      match int16_digits cs false false 0 with
      | Some (n, rest) =>
          match skip_spaces rest with
          | [] => Some (sign * n)
          | _ => None
          end
      | None => None
      end
  end.

End Py.

(** ** Exceptions *)

(** One request to the node: the JSON-RPC method with its first parameter. *)
Inductive request : Type :=
  | EthGetBlockByNumber (tag : string)
  | EthGetBlockByHash (hash : string)
  | EthGetCode (address : string).

(** The exceptions that travel through the client.  [UsageError] is a
    subclass of [ClickException]; [RPCCallError] (a [FaaSError]) is not. *)
Inductive exn : Type :=
  | ClickException (msg : string)
  | UsageError (msg : string)
  | RPCCallError (r : request)
  | KeyError (key : string)
  | IndexError
  | TypeError
  | ValueError.

Definition is_ClickException (e : exn) : bool :=
  match e with
  | ClickException _ | UsageError _ => true
  | _ => false
  end.

Inductive result (A : Type) : Type :=
  | Ok (a : A)
  | Raise (e : exn).
Arguments Ok {A} a.
Arguments Raise {A} e.

(** ** [os.path.commonpath] (posixpath) *)

Module Posix.

(** [s.split(sep)] for a one-byte separator. *)
Fixpoint split (sep : ascii) (s : string) : list string :=
  match s with
  | EmptyString => [EmptyString]
  | String c r =>
      if Ascii.eqb c sep then EmptyString :: split sep r
      else
        match split sep r with
        | h :: t => String c h :: t
        | [] => [String c EmptyString]
        end
  end.

(** [p[:1] == sep] *)
Definition isabs (p : string) : bool :=
  match p with
  | String c _ => Ascii.eqb c "/"
  | EmptyString => false
  end.

(** [[c for c in s if c and c != curdir]] *)
Definition components (p : string) : list string :=
  filter (fun c => c <> EmptyString /\ c <> ".") (split "/" p).

(** Order of Python lists of strings: lexicographic, strings by code point. *)
Fixpoint list_compare (a b : list string) : comparison :=
  match a, b with
  | [], [] => Eq
  | [], _ :: _ => Lt
  | _ :: _, [] => Gt
  | x :: a', y :: b' =>
      match String.compare x y with
      | Eq => list_compare a' b'
      | c => c
      end
  end.

(** [min(l)] and [max(l)] keep the first of equal elements. *)
Definition list_min (x : list string) (l : list (list string)) : list string :=
  foldl (fun m y => match list_compare y m with Lt => y | _ => m end) x l.

Definition list_max (x : list string) (l : list (list string)) : list string :=
  foldl (fun m y => match list_compare y m with Gt => y | _ => m end) x l.

(** The loop [for i, c in enumerate(s1): if c != s2[i]: common = s1[:i]; break],
    with [common = s1] when it runs to the end. *)
Fixpoint common_prefix (s1 s2 : list string) : result (list string) :=
  match s1 with
  | [] => Ok []
  | c :: r1 =>
      match s2 with
      | [] => Raise IndexError
      | d :: r2 =>
          if decide (c = d) then
            match common_prefix r1 r2 with
            | Ok l => Ok (c :: l)
            | Raise e => Raise e
            end
          else Ok []
      end
  end.

Definition commonpath (paths : list string) : result string :=
  match paths with
  | [] => Raise ValueError
  | p :: ps =>
      if forallb (fun q => Bool.eqb (isabs q) (isabs p)) ps then
        let s1 := list_min (components p) (map components ps) in
        let s2 := list_max (components p) (map components ps) in
        match common_prefix s1 s2 with
        | Ok common =>
            Ok ((if isabs p then "/" else EmptyString) +:+ Py.join "/" common)
        | Raise e => Raise e
        end
      else Raise ValueError
  end.

End Posix.

(** ** Data model *)

(** A transaction as the node returns it: a JSON object whose fields are
    strings or [null] ([EVMTransaction]). *)
Abbreviation EVMTransaction := (gmap string (option string)).

(** A block with its full transaction objects ([EVMBlock]). *)
Record EVMBlock : Type := mkBlock {
  number : option string;
  miner : option string;
  difficulty : option string;
  gasLimit : option string;
  timestamp : option string;
  transactions : list (gmap string (option string))
}.

(** Contract metadata of the artifact resolver ([Contract]): read with
    [.get], so a key may be absent or hold [None]. *)
Abbreviation Contract := (gmap string (option string)).

(** A recorded lesson: its description and its transaction sequences
    ([SeedSequenceTransaction] objects, each naming its block). *)
Record Lesson : Type := mkLesson {
  description : string;
  lesson_transactions : list (list (gmap string (option string)))
}.

(** The value of the key ["analysis-setup"]. *)
Record AnalysisSetup : Type := mkSetup {
  address_under_test : option string;
  steps : list (gmap string (option string));
  other_addresses_under_test : option (list string);
  target : option string;
  suggested_seed_seqs : option (list (list (gmap string (option string))))
}.

(** The seed-state document. *)
Record SeedState : Type := mkSeedState {
  discovery_probability_threshold : Q;
  assertion_checking_mode : Z;
  num_cores : Z;
  analysis_setup : AnalysisSetup
}.

(** ** Effects *)

(** What a run does to the outside: requests sent to the node, text shown
    with [click.secho], and calls of [mk_contract_address]. *)
Inductive event : Type :=
  | Call (r : request)
  | Secho (text : string)
  | MkAddress (sender : string) (nonce : Z).

(** The [result] member of the response to a request. *)
Definition reply (r : request) : Type :=
  match r with
  | EthGetCode _ => option string
  | _ => option EVMBlock
  end.

(** [self]: the endpoint, the number of cores, and the node behind the
    endpoint.  [node tr r] is the answer to [r] after the events [tr];
    [None] stands for a [RequestException] of the transport. *)
Record RPCClient : Type := mkClient {
  rpc_url : string;
  number_of_cores : Z;
  node : list event -> forall r : request, option (reply r)
}.

(** The artifact resolver ([IDEArtifacts]), outside this module. *)
Record IDEArtifacts : Type := mkArtifacts {
  get_contract : string -> option (gmap string (option string));
  normalize_path : string -> string
}.

(** What the module imports from elsewhere: the address derivation
    [mk_contract_address(sender, nonce, prefix=True)] of
    [quickcheck_lib.utils], the file system behind [Path.is_dir], and the
    lessons on disk behind [FuzzingLessons.get_lessons], and the text
    [str(e)] of the [RPCCallError] that [call] raises for an endpoint and a
    request (the class is defined in [fuzz.exceptions]). *)
Record Host : Type := mkHost {
  mk_contract_address : string -> Z -> string;
  is_dir : string -> bool;
  get_lessons : list Lesson;
  str_RPCCallError : string -> request -> string
}.

(** State and exception monad over the trace. *)
Definition M (A : Type) : Type := list event -> result A * list event.

Definition ret {A : Type} (a : A) : M A := fun tr => (Ok a, tr).

Definition bind {A B : Type} (m : M A) (k : A -> M B) : M B :=
  fun tr =>
    match m tr with
    | (Ok a, tr') => k a tr'
    | (Raise e, tr') => (Raise e, tr')
    end.

Definition raise {A : Type} (e : exn) : M A := fun tr => (Raise e, tr).

Definition emit (ev : event) : M unit := fun tr => (Ok tt, tr ++ [ev]).

(** [try: m except Exception as e: h e] *)
Definition try_except {A : Type} (m : M A) (h : exn -> M A) : M A :=
  fun tr =>
    match m tr with
    | (Ok a, tr') => (Ok a, tr')
    | (Raise e, tr') => h e tr'
    end.

Declare Scope py_scope.
Delimit Scope py_scope with py.
Notation "x <- c1 ;; c2" := (bind c1 (fun x => c2))
  (at level 100, c1 at next level, right associativity) : py_scope.
Local Open Scope py_scope.

(** [for x in l: s = body s x], the loop state [s] holding the variables the
    body assigns. *)
Fixpoint for_each {A S : Type} (body : S -> A -> M S) (l : list A) (s : S) : M S :=
  match l with
  | [] => ret s
  | x :: r => s' <- body s x ;; for_each body r s'
  end.

(** [d[key]] *)
Definition getitem {V : Type} (d : gmap string V) (key : string) : M V :=
  match d !! key with
  | Some v => ret v
  | None => raise (KeyError key)
  end.

(** [int(v, 16)] *)
Definition int_base16 (v : option string) : M Z :=
  match v with
  | None => raise TypeError
  | Some s =>
      match Py.int16 s with
      | Some n => ret n
      | None => raise ValueError
      end
  end.

(** ** The client *)

Definition NUM_BLOCKS_UPPER_LIMIT : Z := 9999.

Section Client.

Context (host : Host).

(** [call]: one POST to the endpoint. *)
Definition call (self : RPCClient) (r : request) : M (reply r) :=
  fun tr =>
    match node self tr r with
    | Some v => (Ok v, tr ++ [Call r])
    | None => (Raise (RPCCallError r), tr ++ [Call r])
    end.

Definition get_block (self : RPCClient) (latest : bool) (block_number : Z)
  : M (option EVMBlock) :=
  let block_value := if latest then "latest" else Py.hex block_number in
  call self (EthGetBlockByNumber block_value).

Definition get_block_by_hash (self : RPCClient) (hash : string) : M (option EVMBlock) :=
  call self (EthGetBlockByHash hash).

Definition get_code (self : RPCClient) (contract_address : string) : M (option string) :=
  deployed_bytecode <- call self (EthGetCode contract_address) ;;
  if decide (deployed_bytecode = Some "0x") then ret None
  else ret deployed_bytecode.

Definition get_latest_block_number (self : RPCClient) : M Z :=
  latest_block <- get_block self true (-1) ;;
  match latest_block with
  | None => ret (-1)
  | Some b => int_base16 (number b)
  end.

Definition scan_bound_message (self : RPCClient) : string :=
  "Number of blocks existing on the ethereum node running at "
  +:+ rpc_url self
  +:+ " can not exceed 10000. Did you pass the correct RPC url?".

Definition get_all_blocks (self : RPCClient) : M (list (option EVMBlock)) :=
  n <- get_latest_block_number self ;;
  let num_of_blocks := n + 1 in
  if num_of_blocks =? 0 then ret []
  else if num_of_blocks >? NUM_BLOCKS_UPPER_LIMIT then
    raise (ClickException (scan_bound_message self))
  else
    for_each
      (fun blocks i => b <- get_block self false i ;; ret (blocks ++ [b]))
      (seqZ 0 num_of_blocks) [].

(** The loop over the items of a copy of the transaction that stores the
    empty string under every key whose value is [None]. *)
Definition null_to_empty (transaction : gmap string (option string))
  : gmap string (option string) :=
  map_fold
    (fun key v t => match v with None => <[key := Some EmptyString]> t | Some _ => t end)
    transaction transaction.

(** [transaction.update({...})] with the four fields of the block. *)
Definition add_block_fields (block : EVMBlock) (transaction : gmap string (option string))
  : gmap string (option string) :=
  <["blockTimestamp" := timestamp block]>
    (<["blockGasLimit" := gasLimit block]>
      (<["blockDifficulty" := difficulty block]>
        (<["blockCoinbase" := miner block]> transaction))).

Definition get_transactions (self : RPCClient)
    (blocks : option (list (option EVMBlock)))
    (block_numbers_to_skip : list (option string))
  : M (list (gmap string (option string))) :=
  blocks <- match blocks with
            | Some (b :: bs) => ret (b :: bs)
            | _ => get_all_blocks self
            end ;;
  for_each
    (fun processed_transactions block =>
       match block with
       | None => raise TypeError
       | Some block =>
           if decide (number block ∈ block_numbers_to_skip) then
             ret processed_transactions
           else
             ret (foldl
                    (fun processed transaction =>
                       processed ++ [add_block_fields block (null_to_empty transaction)])
                    processed_transactions (transactions block))
       end)
    blocks [].

(** [d[key] = v] on a dictionary kept in insertion order. *)
Fixpoint dict_setitem {V : Type} (key : string) (v : V) (d : list (string * V))
  : list (string * V) :=
  match d with
  | [] => [(key, v)]
  | (k, w) :: r => if decide (k = key) then (k, v) :: r else (k, w) :: dict_setitem key v r
  end.

(** [d.get(key, dflt)] *)
Definition dict_get {V : Type} (d : gmap string V) (key : string) (dflt : V) : V :=
  default dflt (d !! key).

(** [v in l] for an [Optional[str]] and a list of [str]. *)
Definition value_in (v : option string) (l : list string) : bool :=
  match v with
  | Some s => bool_decide (s ∈ l)
  | None => false
  end.

Definition nl : string := String (ascii_of_nat 10) EmptyString.

Definition addresses_under_test (seed_state : SeedState) : gset string :=
  let setup := analysis_setup seed_state in
  let addresses : gset string :=
    match address_under_test setup with
    | Some (String c r) => {[ String c r ]}
    | _ => ∅
    end in
  let addresses : gset string :=
    match other_addresses_under_test setup with
    | Some (a :: l) => addresses ∪ list_to_set (a :: l)
    | _ => addresses
    end in
  set_map Py.lower addresses.

(** The body of the loop over the steps: a step with a recipient is passed
    over; for any other, the address is derived from the sender without its
    first two bytes and the nonce read in base 16, and added. *)
Definition add_created_contract (contracts : gset string)
    (txn : gmap string (option string)) : M (gset string) :=
  to <- getitem txn "to" ;;
  if Py.truthy to then ret contracts
  else
    from <- getitem txn "from" ;;
    sender <- match from with
              | Some s => ret (Py.drop2 s)
              | None => raise TypeError
              end ;;
    nonce <- getitem txn "nonce" ;;
    n <- int_base16 nonce ;;
    _ <- emit (MkAddress sender n) ;;
    ret (contracts ∪ {[ mk_contract_address host sender n ]}).

Definition get_all_deployed_contracts_addresses (seed_state : SeedState)
  : M (gset string) :=
  for_each add_created_contract (steps (analysis_setup seed_state)) ∅.

(** The body of the first loop: a declared address that is not deployed
    joins the unknown targets. *)
Definition add_unknown_target (deployed_contracts_addresses : gset string)
    (unknown : list string) (target_address : string) : list string :=
  if decide (target_address ∈ deployed_contracts_addresses) then unknown
  else unknown ++ [target_address].

(** The body of the second loop: a deployed address that is not declared
    joins the missing targets, with its code. *)
Definition add_missing_target (self : RPCClient) (target_addresses : gset string)
    (missing : list (string * option string)) (contract_address : string)
  : M (list (string * option string)) :=
  if decide (contract_address ∈ target_addresses) then ret missing
  else
    code <- get_code self contract_address ;;
    ret (dict_setitem contract_address code missing).

Definition get_inconsistent_addresses (self : RPCClient) (seed_state : SeedState)
  : M (list (string * option string) * list string) :=
  deployed_contracts_addresses <- get_all_deployed_contracts_addresses seed_state ;;
  let target_addresses := addresses_under_test seed_state in
  let unknown_target_addresses :=
    foldl (add_unknown_target deployed_contracts_addresses) []
      (elements target_addresses) in
  missing_target_addresses <-
    for_each (add_missing_target self target_addresses)
      (elements deployed_contracts_addresses) [] ;;
  ret (missing_target_addresses, unknown_target_addresses).

Definition lesson_notice (lesson : Lesson) : string :=
  "Lesson " +:+ String (ascii_of_nat 34) (description lesson)
  +:+ String (ascii_of_nat 34) " will be added to the campaign's seed state".

Definition no_transactions_message (self : RPCClient) (address : option string) : string :=
  "Unable to generate the seed state for address " +:+ Py.str address +:+ ". "
  +:+ "No transactions were found in an ethereum node running at " +:+ rpc_url self.

Definition wrong_address_message (address : option string) : string :=
  "Unable to generate the seed state for address " +:+ Py.str address
  +:+ ". Are you sure you passed the correct contract address?".

(** The loop over the lessons: the pair of [blocks_to_skip] and
    [suggested_seed_seqs] it leaves. *)
Definition collect_lessons
  : M (gset (option string) * list (list (gmap string (option string)))) :=
  for_each
    (fun (acc : gset (option string) * list (list (gmap string (option string)))) lesson =>
       _ <- emit (Secho (lesson_notice lesson)) ;;
       numbers <-
         for_each
           (fun numbers b => n <- getitem b "blockNumber" ;; ret (numbers ++ [n]))
           (concat (lesson_transactions lesson)) [] ;;
       ret (acc.1 ∪ list_to_set numbers, acc.2 ++ lesson_transactions lesson))
    (get_lessons host) (∅, []).

Definition get_seed_state (self : RPCClient) (address : option string)
    (other_addresses : option (list string)) (corpus_target : option string)
  : M SeedState :=
  try_except
    (acc <- collect_lessons ;;
     let blocks_to_skip := acc.1 in
     let suggested_seed_seqs := acc.2 in
     processed_transactions <- get_transactions self None (elements blocks_to_skip) ;;
     if (length processed_transactions =? 0)%nat then
       raise (UsageError (no_transactions_message self address))
     else
       ret {| discovery_probability_threshold := 0%Q;
              assertion_checking_mode := 1;
              num_cores := number_of_cores self;
              analysis_setup :=
                {| address_under_test := address;
                   steps := processed_transactions;
                   other_addresses_under_test := other_addresses;
                   target := if Py.truthy corpus_target then corpus_target else None;
                   suggested_seed_seqs :=
                     match suggested_seed_seqs with
                     | [] => None
                     | _ :: _ => Some suggested_seed_seqs
                     end |} |})
    (fun e =>
       if is_ClickException e then raise e
       else raise (UsageError (wrong_address_message address))).

(** The closure [inner_checker] over the two lists. *)
Fixpoint in_directories (directory_paths : list string) (path : string) : result bool :=
  match directory_paths with
  | [] => Ok false
  | dir_path :: r =>
      match Posix.commonpath [dir_path; path] with
      | Ok c => if decide (c = dir_path) then Ok true else in_directories r path
      | Raise e => Raise e
      end
  end.

Definition inner_checker (directory_paths file_paths : list string) (path : string)
  : result bool :=
  if decide (path ∈ file_paths) then Ok true
  else in_directories directory_paths path.

Definition directory_paths (paths : list string) : list string :=
  foldl (fun ds p => if is_dir host p then ds ++ [p] else ds) [] paths.

Definition file_paths (paths : list string) : list string :=
  foldl (fun fs p => if is_dir host p then fs else fs ++ [p]) [] paths.

Definition path_inclusion_checker (paths : list string) : string -> result bool :=
  inner_checker (directory_paths paths) (file_paths paths).

Definition lift {A : Type} (r : result A) : M A :=
  match r with
  | Ok a => ret a
  | Raise e => raise e
  end.

Definition get_contract_by_address (self : RPCClient) (contract_address : string)
    (artifacts : IDEArtifacts) : M (option (gmap string (option string))) :=
  deployed_bytecode <- get_code self contract_address ;;
  match deployed_bytecode with
  | None => ret None
  | Some code =>
      match get_contract artifacts code with
      | None => ret None
      | Some contract =>
          if decide (contract = ∅) then ret None
          else
            match dict_get contract "mainSourceFile" None with
            | None => ret None
            | Some _ => ret (Some contract)
            end
      end
  end.

Definition smart_mode_warning : string :=
  "Warning: Smart mode is on, but targets and addresses under test are provided. "
  +:+ "Consider turning off smart mode, so that the targets and addresses under test won't be "
  +:+ "automatically derived from the seed state.".

Definition no_targets_message : string :=
  "No targets nor addresses under test are provided. "
  +:+ "Please turn on smart mode or provide targets and addresses under test.".

(** Truth value of an [Optional[List[str]]]. *)
Definition nonempty {A : Type} (l : option (list A)) : bool :=
  match l with
  | Some (_ :: _) => true
  | _ => false
  end.

(** [contract["mainSourceFile"]] of a contract that [get_contract_by_address]
    returned, which holds a string there. *)
Definition main_source_file (contract : gmap string (option string)) : M string :=
  v <- getitem contract "mainSourceFile" ;;
  match v with
  | Some s => ret s
  | None => raise TypeError
  end.

Definition smart_mode_setup (self : RPCClient) (smart_mode : bool)
    (seed_state : SeedState) (source_targets : option (list string))
    (artifacts : IDEArtifacts) : M (list string * list string) :=
  let addresses := addresses_under_test seed_state in
  _ <- (if smart_mode && negb (bool_decide (addresses = ∅)) && nonempty source_targets
        then emit (Secho smart_mode_warning) else ret tt) ;;
  if negb smart_mode && (bool_decide (addresses = ∅) || negb (nonempty source_targets)) then
    raise (ClickException no_targets_message)
  else
    addresses <- (if bool_decide (addresses = ∅)
                  then get_all_deployed_contracts_addresses seed_state
                  else ret addresses) ;;
    let targets : gset string := list_to_set (default [] source_targets) in
    targets <- (if nonempty source_targets then ret targets
                else
                  for_each
                    (fun (targets : gset string) contract_address =>
                       contract <- get_contract_by_address self contract_address artifacts ;;
                       match contract with
                       | Some contract =>
                           source <- main_source_file contract ;;
                           ret (targets ∪ {[ source ]})
                       | None => ret targets
                       end)
                    (elements addresses) targets) ;;
    ret (elements addresses, elements targets).

(** The body of the first loop of [collect_mismatched_targets]: the
    address with the source file and the name of its contract, or with the
    string ["null"] twice when no contract is found. *)
Definition resolve_missing_target (self : RPCClient) (artifacts : IDEArtifacts)
    (resolved : list (string * option string * option string))
    (item : string * option string)
  : M (list (string * option string * option string)) :=
  let contract_address := item.1 in
  contract <- get_contract_by_address self contract_address artifacts ;;
  ret (resolved ++
       [(contract_address,
         match contract with
         | Some c => dict_get c "mainSourceFile" (Some "null")
         | None => Some "null"
         end,
         match contract with
         | Some c => dict_get c "contractName" (Some "null")
         | None => Some "null"
         end)]).

(** The body of its second loop. *)
Definition add_mismatched_target (source_targets : list string)
    (mismatched : list (option string * string))
    (t : string * option string * option string) : list (option string * string) :=
  let source_file := t.1.2 in
  if decide (source_file = Some "null") then mismatched
  else if value_in source_file source_targets
       then mismatched ++ [(source_file, t.1.1)]
       else mismatched.

Definition collect_mismatched_targets (self : RPCClient)
    (missing_target_addresses : list (string * option string))
    (artifacts : IDEArtifacts) (source_targets : list string)
  : M (list (option string * string) * list (string * option string * option string)) :=
  missing_targets_resolved <-
    for_each (resolve_missing_target self artifacts) missing_target_addresses [] ;;
  let mismatched_targets :=
    foldl (add_mismatched_target source_targets) [] missing_targets_resolved in
  ret (mismatched_targets, missing_targets_resolved).

Definition collect_dangling_contracts (self : RPCClient)
    (addresses : list string) (artifacts : IDEArtifacts)
    (source_targets : list string) : M (list (option string * string)) :=
  let check_path := path_inclusion_checker source_targets in
  for_each
    (fun dangling contract_address =>
       contract <- get_contract_by_address self contract_address artifacts ;;
       match contract with
       | None => ret (dangling ++ [(None, contract_address)])
       | Some contract =>
           match dict_get contract "mainSourceFile" None with
           | None => ret (dangling ++ [(None, contract_address)])
           | Some _ =>
               source <- main_source_file contract ;;
               included <- lift (check_path (normalize_path artifacts source)) ;;
               if included then ret dangling
               else ret (dangling ++
                         [(dict_get contract "mainSourceFile" None, contract_address)])
           end
       end)
    addresses [].

Definition unknown_targets_message (unknown_target_addresses : list string) : string :=
  "Unable to find contracts deployed at " +:+ Py.join ", " unknown_target_addresses.

Definition handle_unknown_target_addresses {A : Type}
    (unknown_target_addresses : list string) : M A :=
  raise (ClickException (unknown_targets_message unknown_target_addresses)).

Definition mismatched_targets_message (mismatched_targets : list (option string * string))
  : string :=
  "Found contracts deployed at the following addresses "
  +:+ "but they are not marked as addresses under test: " +:+ nl
  +:+ Py.join nl
        (map (fun p : option string * string =>
                "  ◦ Target: " +:+ Py.str p.1 +:+ " Address: " +:+ p.2)
             mismatched_targets).

Definition handle_mismatched_targets {A : Type}
    (mismatched_targets : list (option string * string)) : M A :=
  raise (ClickException (mismatched_targets_message mismatched_targets)).

Definition dangling_contracts_message (dangling : list (option string * string)) : string :=
  "Found contracts marked as addresses under test but their source files were not provided as targets: "
  +:+ nl
  +:+ Py.join nl
        (map (fun p : option string * string =>
                "  ◦ Address: " +:+ p.2 +:+ " Target: " +:+ Py.str p.1)
             dangling).

Definition handle_dangling_contracts {A : Type}
    (dangling : list (option string * string)) : M A :=
  raise (ClickException (dangling_contracts_message dangling)).

Definition missing_targets_notice
    (missing_targets_resolved : list (string * option string * option string)) : string :=
  "⚠️ Following contracts were not marked as targets but were deployed to RPC node:" +:+ nl
  +:+ Py.join nl
        (map (fun t : string * option string * option string =>
                "  ◦ Address: " +:+ t.1.1 +:+ " Source File: " +:+ Py.str t.1.2
                +:+ " Contract Name: " +:+ Py.str t.2)
             missing_targets_resolved).

Definition handle_missing_target_addresses
    (missing_targets_resolved : list (string * option string * option string)) : M unit :=
  emit (Secho (missing_targets_notice missing_targets_resolved)).

Definition is_nil {A : Type} (l : list A) : bool :=
  match l with
  | [] => true
  | _ :: _ => false
  end.

Definition check_contracts (self : RPCClient) (seed_state : SeedState)
    (artifacts : IDEArtifacts) (source_targets : option (list string))
    (smart_mode : bool) : M unit :=
  processed <- smart_mode_setup self smart_mode seed_state source_targets artifacts ;;
  let processed_addresses_under_test := processed.1 in
  let processed_source_targets := map (normalize_path artifacts) processed.2 in
  try_except
    (inconsistent <- get_inconsistent_addresses self seed_state ;;
     let missing_target_addresses := inconsistent.1 in
     let unknown_target_addresses := inconsistent.2 in
     _ <- (if is_nil unknown_target_addresses then ret tt
           else handle_unknown_target_addresses unknown_target_addresses) ;;
     collected <- collect_mismatched_targets self missing_target_addresses
                    artifacts processed_source_targets ;;
     let mismatched_targets := collected.1 in
     let missing_targets_resolved := collected.2 in
     _ <- (if is_nil mismatched_targets then ret tt
           else handle_mismatched_targets mismatched_targets) ;;
     _ <- (if is_nil missing_targets_resolved then ret tt
           else handle_missing_target_addresses missing_targets_resolved) ;;
     dangling_contract_targets <-
       collect_dangling_contracts self processed_addresses_under_test
         artifacts processed_source_targets ;;
     if is_nil dangling_contract_targets then ret tt
     else handle_dangling_contracts dangling_contract_targets)
    (fun e =>
       match e with
       | RPCCallError r => raise (UsageError (str_RPCCallError host (rpc_url self) r))
       | _ => raise e
       end).

End Client.

(** ** Reference definitions

    What the specification says some operations compute, in its own terms;
    the properties below compare the client with them. *)

Module Spec.

(** A [null] becomes the empty string; a string stays. *)
Definition replace_null (v : option string) : option string :=
  Some (default EmptyString v).

(** The four fields a transaction takes from its parent block. *)
Definition block_fields (block : EVMBlock) : gmap string (option string) :=
  list_to_map
    [("blockCoinbase", miner block); ("blockDifficulty", difficulty block);
     ("blockGasLimit", gasLimit block); ("blockTimestamp", timestamp block)].


(** A transaction enriched with the fields of its block: every [null] among
    the fields the transaction came with is replaced, and the four fields of
    the block are then set as the block holds them, [null] included. *)
Definition enriched (block : EVMBlock) (transaction : gmap string (option string))
  : gmap string (option string) :=
  block_fields block ∪ (replace_null <$> transaction).

(** The transactions of the blocks, block after block and in the order of
    each block, without those of the blocks to skip. *)
Definition collected (skip : list (option string)) (blocks : list EVMBlock)
  : list (gmap string (option string)) :=
  concat
    (map (fun block =>
            if decide (number block ∈ skip) then []
            else map (enriched block) (transactions block))
         blocks).

(** A contract-creation transaction: its recipient is empty. *)
Definition is_creation (txn : gmap string (option string)) : bool :=
  match txn !! "to" with
  | Some (Some (String _ _)) => false
  | Some _ => true
  | None => false
  end.

(** The sender without its two-byte marker and the nonce read as a
    hexadecimal number. *)
Definition creation_args (txn : gmap string (option string)) : option (string * Z) :=
  match txn !! "from", txn !! "nonce" with
  | Some (Some sender), Some (Some nonce) =>
      match Py.int16 nonce with
      | Some n => Some (Py.drop2 sender, n)
      | None => None
      end
  | _, _ => None
  end.

(** A step the deriver can read: it has a recipient field, and when that
    is empty, a sender and a hexadecimal nonce. *)
Definition readable_step (txn : gmap string (option string)) : Prop :=
  is_Some (txn !! "to") /\ (is_creation txn = true -> is_Some (creation_args txn)).

(** The sender and nonce of each contract creation among the steps. *)
Definition creations (steps : list (gmap string (option string))) : list (string * Z) :=
  omap (fun txn => if is_creation txn then creation_args txn else None) steps.

(** The addresses the user declared, as written. *)
Definition declared (seed_state : SeedState) : list string :=
  match address_under_test (analysis_setup seed_state) with
  | Some (String c r) => [String c r]
  | _ => []
  end
  ++ default [] (other_addresses_under_test (analysis_setup seed_state)).

(** The entry of one missing target: its address, and either the string
    ["null"] twice, or the source file and the name of a contract. *)
Definition resolved_entry (self : RPCClient) (artifacts : IDEArtifacts)
    (item : string * option string)
    (entry : string * option string * option string) : Prop :=
  exists tr tr' contract,
    get_contract_by_address self item.1 artifacts tr = (Ok contract, tr')
    /\ entry = (item.1,
                match contract with
                | Some c => dict_get c "mainSourceFile" (Some "null")
                | None => Some "null"
                end,
                match contract with
                | Some c => dict_get c "contractName" (Some "null")
                | None => Some "null"
                end).

(** A computation that raises no [ClickException] (nor its subclass
    [UsageError]) of its own. *)
Definition quiet {A : Type} (m : M A) : Prop :=
  forall tr e tr', m tr = (Raise e, tr') -> is_ClickException e = false.

End Spec.

(** ** Concrete chains and projects

    Small instances of the records above, on which the properties below are
    evaluated. *)

Module Scenario.

(** A stand-in for the address derivation: any function serves, the
    properties being proved for every [Host]. *)
Definition derive (sender : string) (nonce : Z) : string :=
  "0x" +:+ Py.lower sender +:+ Py.drop2 (Py.hex nonce).

(** A host without lessons whose file system has the one directory
    [/project/contracts]. *)
Definition host0 : Host :=
  {| mk_contract_address := derive;
     is_dir := fun p => bool_decide (p = "/project/contracts");
     get_lessons := [];
     str_RPCCallError := fun url r => "HTTP error calling RPC" |}.

Definition block_numbered (n : string) (txs : list (gmap string (option string))) : EVMBlock :=
  {| number := Some n; miner := Some "0xc0"; difficulty := Some "0x1";
     gasLimit := Some "0x6691b7"; timestamp := Some "0x5f"; transactions := txs |}.

(** A node that has produced no block yet. *)
Definition empty_node : RPCClient :=
  {| rpc_url := "http://localhost:7545";
     number_of_cores := 1;
     node := fun _ r =>
       match r return option (reply r) with
       | EthGetCode _ => Some None
       | EthGetBlockByNumber _ => Some None
       | EthGetBlockByHash _ => Some None
       end |}.

(** A node whose latest block is number 9999: a chain of 10000 blocks,
    block 0 included. *)
Definition node_10000 : RPCClient :=
  {| rpc_url := "http://localhost:7545";
     number_of_cores := 1;
     node := fun _ r =>
       match r return option (reply r) with
       | EthGetCode _ => Some None
       | EthGetBlockByNumber tag =>
           Some (Some (block_numbered (if decide (tag = "latest") then "0x270f" else tag) []))
       | EthGetBlockByHash _ => Some None
       end |}.

(** A node that reports the no-code sentinel for every address. *)
Definition codeless_node : RPCClient :=
  {| rpc_url := "http://localhost:7545";
     number_of_cores := 1;
     node := fun _ r =>
       match r return option (reply r) with
       | EthGetCode _ => Some (Some "0x")
       | EthGetBlockByNumber _ => Some None
       | EthGetBlockByHash _ => Some None
       end |}.

(** A chain of two blocks: a contract creation by [0xAA] with nonce 0, then
    a call of the created contract. *)
Definition creation_tx : gmap string (option string) :=
  list_to_map
    [("from", Some "0xAA"); ("to", None); ("nonce", Some "0x0"); ("input", Some "0x6080")].

Definition call_tx : gmap string (option string) :=
  list_to_map
    [("from", Some "0xAA"); ("to", Some "0xaa0"); ("nonce", Some "0x1"); ("input", None)].

Definition block0 : EVMBlock := block_numbered "0x0" [creation_tx].
Definition block1 : EVMBlock := block_numbered "0x1" [call_tx].


Definition two_block_node : RPCClient :=
  {| rpc_url := "http://localhost:7545";
     number_of_cores := 1;
     node := fun _ r =>
       match r return option (reply r) with
       | EthGetCode a => Some (Some (if decide (a = "0xaa0") then "0x6080" else "0x"))
       | EthGetBlockByNumber tag =>
           Some (if decide (tag = "0x0") then Some block0
                 else if decide (tag = "0x1") then Some block1
                 else if decide (tag = "latest") then Some block1
                 else None)
       | EthGetBlockByHash _ => Some None
       end |}.

Definition seed_state_of (address : option string) (others : option (list string))
    (txns : list (gmap string (option string))) : SeedState :=
  {| discovery_probability_threshold := 0%Q;
     assertion_checking_mode := 1;
     num_cores := 1;
     analysis_setup :=
       {| address_under_test := address;
          steps := txns;
          other_addresses_under_test := others;
          target := None;
          suggested_seed_seqs := None |} |}.

(** The steps of the two-block chain as [get_transactions] returns them. *)
Definition two_block_steps : list (gmap string (option string)) :=
  Spec.collected [] [block0; block1].

(** The one call of the two-block chain, without the creation. *)
Definition call_steps : list (gmap string (option string)) :=
  Spec.collected [Some "0x0"] [block0; block1].

(** The user declares the created contract in upper case, and an address
    that no transaction created. *)
Definition seed_with_unknown : SeedState :=
  seed_state_of (Some "0xAA0") (Some ["0xBEEF"]) two_block_steps.

(** A project rooted at [/project]: relative paths are made absolute,
    absolute ones are left as they are. *)
Definition normalize (p : string) : string :=
  if Posix.isabs p then p else "/project/" +:+ p.

(** Artifacts that record the source of the contract by its absolute path. *)
Definition artifacts_abs : IDEArtifacts :=
  {| get_contract := fun code =>
       if decide (code = "0x6080")
       then Some (list_to_map [("mainSourceFile", Some "/project/contracts/Foo.sol");
                               ("contractName", Some "Foo")])
       else None;
     normalize_path := normalize |}.

(** Artifacts that record it by a path relative to the project. *)
Definition artifacts_rel : IDEArtifacts :=
  {| get_contract := fun code =>
       if decide (code = "0x6080")
       then Some (list_to_map [("mainSourceFile", Some "contracts/Foo.sol");
                               ("contractName", Some "Foo")])
       else None;
     normalize_path := normalize |}.

(** Artifacts whose contract names the file [null] as its source. *)
Definition artifacts_null : IDEArtifacts :=
  {| get_contract := fun code =>
       if decide (code = "0x6080")
       then Some (list_to_map [("mainSourceFile", Some "null");
                               ("contractName", Some "Token")])
       else None;
     normalize_path := fun p => p |}.

(** A host on which the relative path [contracts] and the absolute path
    [/project] are both directories. *)
Definition host_mixed : Host :=
  {| mk_contract_address := derive;
     is_dir := fun p => bool_decide (p = "contracts") || bool_decide (p = "/project");
     get_lessons := [];
     str_RPCCallError := fun url r => "HTTP error calling RPC" |}.

End Scenario.

(** ** Further chains and projects *)

Module Cases.

(** A node that answers for the latest block (number 2) and for block 0,
    and whose transport fails on the request for block 1. *)
Definition flaky_node : RPCClient :=
  {| rpc_url := "http://localhost:7545";
     number_of_cores := 1;
     node := fun _ r =>
       match r return option (reply r) with
       | EthGetCode _ => None
       | EthGetBlockByNumber tag =>
           if decide (tag = "0x1") then None
           else Some (Some (Scenario.block_numbered
                              (if decide (tag = "latest") then "0x2" else tag) []))
       | EthGetBlockByHash _ => Some None
       end |}.

(** A node whose latest block has a negative number. *)
Definition negative_node : RPCClient :=
  {| rpc_url := "http://localhost:7545";
     number_of_cores := 1;
     node := fun _ r =>
       match r return option (reply r) with
       | EthGetCode _ => Some None
       | EthGetBlockByNumber tag => Some (Some (Scenario.block_numbered "-0x5" []))
       | EthGetBlockByHash _ => Some None
       end |}.

(** A host with one lesson, recorded on block 0. *)
Definition host_with_lesson : Host :=
  {| mk_contract_address := Scenario.derive;
     is_dir := fun p => bool_decide (p = "/project/contracts");
     get_lessons :=
       [ {| description := "deploy";
            lesson_transactions :=
              [[ list_to_map [("blockNumber", Some "0x0"); ("input", Some "0x6080")] ]] |} ];
     str_RPCCallError := fun url r => "HTTP error calling RPC" |}.

(** A host with a lesson one of whose transactions names no block. *)
Definition host_with_bad_lesson : Host :=
  {| mk_contract_address := Scenario.derive;
     is_dir := fun p => bool_decide (p = "/project/contracts");
     get_lessons :=
       [ {| description := "deploy";
            lesson_transactions := [[ list_to_map [("input", Some "0x6080")] ]] |} ];
     str_RPCCallError := fun url r => "HTTP error calling RPC" |}.

(** The seed state built on the two-block chain with that lesson, for the
    address [0xaa0] and an empty corpus target. *)
Definition lesson_seed_state : SeedState :=
  {| discovery_probability_threshold := 0%Q;
     assertion_checking_mode := 1;
     num_cores := 1;
     analysis_setup :=
       {| address_under_test := Some "0xaa0";
          steps := Scenario.call_steps;
          other_addresses_under_test := None;
          target := None;
          suggested_seed_seqs :=
            Some [[ list_to_map [("blockNumber", Some "0x0"); ("input", Some "0x6080")] ]] |} |}.

End Cases.

(** * The payload of the first command line: [mythx_cli/fuzz/run.py] *)

Module Run.

(** The payload is a [dict] that [camel_case_payload] updates in place: a
    statement is a function from the dict to an outcome and the dict as the
    statement left it, which is what the caller goes on to see, also after an
    exception.  The order of the keys, which a [dict] keeps, is not
    modelled. *)
Definition St (V A : Type) : Type := gmap string V -> result A * gmap string V.

(** [payload.pop(key)] *)
Definition pop {V : Type} (key : string) : St V V :=
  fun payload =>
    match payload !! key with
    | Some v => (Ok v, delete key payload)
    | None => (Raise (KeyError key), payload)
    end.

(** [payload[key] = v] *)
Definition setitem {V : Type} (key : string) (v : V) : St V unit :=
  fun payload => (Ok tt, <[key := v]> payload).

(** [payload[new] = payload.pop(old)]: the right-hand side first. *)
Definition move_key {V : Type} (new old : string) : St V unit :=
  fun payload =>
    match pop old payload with
    | (Ok v, payload') => setitem new v payload'
    | (Raise e, payload') => (Raise e, payload')
    end.

(** One statement after another. *)
Definition seq {V : Type} (s1 s2 : St V unit) : St V unit :=
  fun payload =>
    match s1 payload with
    | (Ok _, payload') => s2 payload'
    | (Raise e, payload') => (Raise e, payload')
    end.

Definition camel_case_payload {V : Type} : St V unit :=
  seq (move_key "mainSource" "main_source")
  (seq (move_key "solcVersion" "solc_version")
  (seq (move_key "contractName" "contract_name")
  (seq (move_key "sourceMap" "source_map")
  (seq (move_key "sourceList" "source_list")
  (seq (move_key "deployedBytecode" "deployed_bytecode")
       (move_key "deployedSourceMap" "deployed_source_map")))))).

(** The keys that [camel_case_payload] writes, each with the key it reads,
    in the order of the statements. *)
Definition renamed_keys : list (string * string) :=
  [ ("mainSource", "main_source");
    ("solcVersion", "solc_version");
    ("contractName", "contract_name");
    ("sourceMap", "source_map");
    ("sourceList", "source_list");
    ("deployedBytecode", "deployed_bytecode");
    ("deployedSourceMap", "deployed_source_map") ].

(** The statements [payload[new] = payload.pop(old)] of a list of pairs, one
    after another. *)
Fixpoint move_keys {V : Type} (pairs : list (string * string)) : St V unit :=
  match pairs with
  | [] => fun payload => (Ok tt, payload)
  | (new, old) :: rest => seq (move_key new old) (move_keys rest)
  end.

(** A payload as the compiler job provides it, and one that lacks the source
    map. *)
Definition payload0 : gmap string string :=
  list_to_map
    [ ("main_source", "Foo.sol"); ("solc_version", "0.6.12");
      ("contract_name", "Foo"); ("source_map", "0:1:0");
      ("source_list", "Foo.sol"); ("deployed_bytecode", "6080");
      ("deployed_source_map", "0:2:0"); ("bytecode", "6080") ].

Definition payload_without_source_map : gmap string string :=
  delete "source_map" payload0.

End Run.

(** * Properties *)

(** ** The built-ins on examples *)

Example hex_9999 : Py.hex 9999 = "0x270f".
Proof. reflexivity. Qed.

Example hex_0 : Py.hex 0 = "0x0".
Proof. reflexivity. Qed.

Example int16_270f : Py.int16 "0x270f" = Some 9999.
Proof. reflexivity. Qed.

Example int16_bare : Py.int16 " 1_F " = Some 31.
Proof. reflexivity. Qed.

(** White space around the digits is the tab, the line feed, the vertical
    tab, the form feed, the carriage return and the blank; a separator such as
    the byte 31 after the digits is a [ValueError]. *)
Example int16_spaces :
  Py.int16 (String (ascii_of_nat 9) "0x1f" +:+ String (ascii_of_nat 13) " ") = Some 31
  /\ Py.int16 ("0x0" +:+ String (ascii_of_nat 31) EmptyString) = None
  /\ Py.int16 (String (ascii_of_nat 28) "0x0") = None.
Proof. repeat split; reflexivity. Qed.

Example int16_bad :
  Py.int16 "0x" = None /\ Py.int16 "0x__1" = None /\ Py.int16 "1_" = None.
Proof. repeat split; reflexivity. Qed.

Example lower_mixed : Py.lower "0xABcd9F" = "0xabcd9f".
Proof. reflexivity. Qed.

Example join_three : Py.join ", " ["a"; "b"; "c"] = "a, b, c".
Proof. reflexivity. Qed.

Example commonpath_sibling :
  Posix.commonpath ["/project/contracts"; "/project/contracts-extra/Foo.sol"]
  = Ok "/project".
Proof. reflexivity. Qed.

Example commonpath_inside :
  Posix.commonpath ["/project/contracts"; "/project/contracts/Foo.sol"]
  = Ok "/project/contracts".
Proof. reflexivity. Qed.

Example commonpath_mixed : Posix.commonpath ["contracts"; "/project/Foo.sol"] = Raise ValueError.
Proof. reflexivity. Qed.

(** ** The monad *)

Lemma bind_ok {A B : Type} (m : M A) (k : A -> M B) tr a tr1 :
  m tr = (Ok a, tr1) -> bind m k tr = k a tr1.
Proof. intros H. unfold bind. by rewrite H. Qed.

Lemma bind_raise {A B : Type} (m : M A) (k : A -> M B) tr e tr1 :
  m tr = (Raise e, tr1) -> bind m k tr = (Raise e, tr1).
Proof. intros H. unfold bind. by rewrite H. Qed.

Lemma bind_inv_ok {A B : Type} (m : M A) (k : A -> M B) tr b tr2 :
  bind m k tr = (Ok b, tr2) ->
  exists a tr1, m tr = (Ok a, tr1) /\ k a tr1 = (Ok b, tr2).
Proof.
  unfold bind. destruct (m tr) as [[a|e] tr1]; intros H.
  - by exists a, tr1.
  - discriminate.
Qed.

Lemma bind_inv_raise {A B : Type} (m : M A) (k : A -> M B) tr e tr2 :
  bind m k tr = (Raise e, tr2) ->
  m tr = (Raise e, tr2) \/
  exists a tr1, m tr = (Ok a, tr1) /\ k a tr1 = (Raise e, tr2).
Proof.
  unfold bind. destruct (m tr) as [[a|e'] tr1]; intros H.
  - right. by exists a, tr1.
  - left. by injection H as -> ->.
Qed.

Lemma bind_assoc {A B C : Type} (m : M A) (f : A -> M B) (g : B -> M C) tr :
  bind (bind m f) g tr = bind m (fun a => bind (f a) g) tr.
Proof. unfold bind. by destruct (m tr) as [[a|e] tr1]. Qed.

Lemma bind_ret {A B : Type} (a : A) (k : A -> M B) tr : bind (ret a) k tr = k a tr.
Proof. reflexivity. Qed.

(** Reassociate the binds at the head of the goal and run the returns. *)
Ltac monad_simpl := repeat first [rewrite bind_assoc | rewrite bind_ret].

(** A loop whose body neither raises nor touches the trace is a fold. *)
Lemma for_each_pure {A S : Type} (f : S -> A -> S) (l : list A) (s : S) tr :
  for_each (fun s x => ret (f s x)) l s tr = (Ok (foldl f s l), tr).
Proof.
  revert s. induction l as [|x l IH]; intros s; simpl; [done|].
  unfold bind, ret at 1. apply IH.
Qed.

Lemma for_each_app {A S : Type} (body : S -> A -> M S) (l1 l2 : list A) (s : S) tr :
  for_each body (l1 ++ l2) s tr =
  bind (for_each body l1 s) (for_each body l2) tr.
Proof.
  revert s tr. induction l1 as [|x l1 IH]; intros s tr; simpl.
  - done.
  - unfold bind. destruct (body s x tr) as [[s'|e] tr1]; [|reflexivity].
    rewrite IH. reflexivity.
Qed.

(** ** Chain reader *)

(** [get_code] on a node that answers: the one request, and [None] for the
    sentinel. *)
Lemma get_code_spec (self : RPCClient) (contract_address : string)
    (tr : list event) (reported : option string) :
  node self tr (EthGetCode contract_address) = Some reported ->
  get_code self contract_address tr
  = (Ok (if decide (reported = Some "0x") then None else reported),
     tr ++ [Call (EthGetCode contract_address)]).
Proof.
  intros Hnode. unfold get_code, bind, call. rewrite Hnode.
  repeat case_decide; first [reflexivity | contradiction].
Qed.

(** C8: when the node reports the no-code sentinel ["0x"] for an address,
    [get_code] returns [None]; for any other report it returns the reported
    value unchanged.  Either way it sends the one [eth_getCode] request. *)
Theorem get_code_sentinel_is_none (self : RPCClient) (contract_address : string)
    (tr : list event) (reported : option string) :
  node self tr (EthGetCode contract_address) = Some reported ->
  (reported = Some "0x" ->
   get_code self contract_address tr
   = (Ok None, tr ++ [Call (EthGetCode contract_address)]))
  /\ (reported <> Some "0x" ->
      get_code self contract_address tr
      = (Ok reported, tr ++ [Call (EthGetCode contract_address)])).
Proof.
  intros Hnode. rewrite (get_code_spec _ _ _ _ Hnode).
  split; intros H; case_decide; try contradiction; reflexivity.
Qed.

Lemma get_code_sentinel_is_none_witness :
  get_code Scenario.codeless_node "0xabc" []
  = (Ok None, [Call (EthGetCode "0xabc")]).
Proof.
  apply (proj1 (get_code_sentinel_is_none Scenario.codeless_node "0xabc" []
                  (Some "0x") eq_refl)).
  reflexivity.
Defined.

(** [get_code] never surfaces the sentinel. *)
Lemma get_code_never_sentinel (self : RPCClient) (a : string) tr v tr' :
  get_code self a tr = (Ok v, tr') -> v <> Some "0x".
Proof.
  unfold get_code, bind, call.
  destruct (node self tr (EthGetCode a)) as [r|]; [|discriminate].
  case_decide; unfold ret; intros [= <- <-]; congruence.
Qed.

Lemma get_code_raise (self : RPCClient) (a : string) tr e tr' :
  get_code self a tr = (Raise e, tr') -> e = RPCCallError (EthGetCode a).
Proof.
  unfold get_code, bind, call.
  destruct (node self tr (EthGetCode a)) as [r|].
  - case_decide; discriminate.
  - by intros [= <- <-].
Qed.

Lemma get_latest_block_number_spec (self : RPCClient) tr :
  get_latest_block_number self tr =
  match node self tr (EthGetBlockByNumber "latest") with
  | None => (Raise (RPCCallError (EthGetBlockByNumber "latest")),
             tr ++ [Call (EthGetBlockByNumber "latest")])
  | Some None => (Ok (-1), tr ++ [Call (EthGetBlockByNumber "latest")])
  | Some (Some b) => int_base16 (number b) (tr ++ [Call (EthGetBlockByNumber "latest")])
  end.
Proof.
  unfold get_latest_block_number, get_block, bind, call.
  destruct (node self tr (EthGetBlockByNumber "latest")) as [[b|]|]; reflexivity.
Qed.

(** The fetch loop of [get_all_blocks] on a node that answers: one request
    per block number, in increasing order, one block per request. *)
Lemma fetch_blocks_ok (self : RPCClient) :
  (forall tr tag, node self tr (EthGetBlockByNumber tag) <> None) ->
  forall (l : list Z) (acc : list (option EVMBlock)) tr,
  exists bs,
    for_each (fun blocks i => b <- get_block self false i ;; ret (blocks ++ [b])) l acc tr
    = (Ok (acc ++ bs),
       tr ++ map (fun i => Call (EthGetBlockByNumber (Py.hex i))) l)
    /\ length bs = length l.
Proof.
  intros Hnode l. induction l as [|i l IH]; intros acc tr; simpl.
  - exists []. by rewrite !app_nil_r.
  - destruct (node self tr (EthGetBlockByNumber (Py.hex i))) as [b|] eqn:Hb;
      [|by apply Hnode in Hb].
    assert (Hstep : get_block self false i tr
                    = (Ok b, tr ++ [Call (EthGetBlockByNumber (Py.hex i))])).
    { unfold get_block, call. by rewrite Hb. }
    rewrite bind_assoc, (bind_ok _ _ _ _ _ Hstep), bind_ret.
    change (reply (EthGetBlockByNumber (Py.hex i))) with (option EVMBlock) in *.
    destruct (IH (acc ++ [b]) (tr ++ [Call (EthGetBlockByNumber (Py.hex i))]))
      as (bs & Hbs & Hlen).
    exists (b :: bs). rewrite Hbs, <- !app_assoc. simpl. by rewrite Hlen.
Qed.

(** A chain above the limit: the scan-bound error, after the one request
    for the latest block. *)
Lemma get_all_blocks_over_limit (self : RPCClient) tr b n :
  node self tr (EthGetBlockByNumber "latest") = Some (Some b) ->
  number b = Some n ->
  (exists k, Py.int16 n = Some k /\ NUM_BLOCKS_UPPER_LIMIT < k + 1) ->
  get_all_blocks self tr
  = (Raise (ClickException (scan_bound_message self)),
     tr ++ [Call (EthGetBlockByNumber "latest")]).
Proof.
  intros Hnode Hn (k & Hk & Hlim).
  unfold get_all_blocks. unfold bind at 1.
  rewrite get_latest_block_number_spec, Hnode, Hn. simpl. rewrite Hk. unfold ret at 1.
  destruct (k + 1 =? 0) eqn:E0.
  - apply Z.eqb_eq in E0. unfold NUM_BLOCKS_UPPER_LIMIT in Hlim. lia.
  - destruct (k + 1 >? NUM_BLOCKS_UPPER_LIMIT) eqn:E1; [reflexivity|].
    rewrite Z.gtb_ltb in E1. apply Z.ltb_ge in E1. lia.
Qed.

(** A chain of at most 9999 blocks on a node that answers: every block from
    0 to the latest is fetched, in order, and returned. *)
Lemma get_all_blocks_within_limit (self : RPCClient) tr b n k :
  (forall tr tag, node self tr (EthGetBlockByNumber tag) <> None) ->
  node self tr (EthGetBlockByNumber "latest") = Some (Some b) ->
  number b = Some n ->
  Py.int16 n = Some k ->
  0 <= k -> k + 1 <= NUM_BLOCKS_UPPER_LIMIT ->
  exists blocks,
    get_all_blocks self tr
    = (Ok blocks,
       tr ++ Call (EthGetBlockByNumber "latest")
          :: map (fun i => Call (EthGetBlockByNumber (Py.hex i))) (seqZ 0 (k + 1)))
    /\ length blocks = Z.to_nat (k + 1).
Proof.
  intros Hall Hnode Hn Hk H0 Hlim.
  unfold get_all_blocks. unfold bind at 1.
  rewrite get_latest_block_number_spec, Hnode, Hn. simpl. rewrite Hk. unfold ret at 1.
  destruct (k + 1 =? 0) eqn:E0; [apply Z.eqb_eq in E0; lia|].
  destruct (k + 1 >? NUM_BLOCKS_UPPER_LIMIT) eqn:E1.
  { rewrite Z.gtb_ltb in E1. apply Z.ltb_lt in E1. lia. }
  destruct (fetch_blocks_ok self Hall (seqZ 0 (k + 1)) []
              (tr ++ [Call (EthGetBlockByNumber "latest")])) as (bs & Hbs & Hlen).
  exists bs. rewrite Hbs. rewrite <- app_assoc. simpl. split; [done|].
  rewrite Hlen. by rewrite length_seqZ.
Qed.

(** C1: at a chain of exactly 10000 blocks (latest block number [0x270f],
    block 0 included), a count that does not exceed 10000, [get_all_blocks]
    raises the scan-bound error after the request for the latest block and
    returns no block list. *)
Theorem get_all_blocks_at_10000 (self : RPCClient) (tr : list event) (b : EVMBlock) :
  node self tr (EthGetBlockByNumber "latest") = Some (Some b) ->
  number b = Some "0x270f" ->
  get_all_blocks self tr
  = (Raise (ClickException (scan_bound_message self)),
     tr ++ [Call (EthGetBlockByNumber "latest")]).
Proof.
  intros Hnode Hn. apply (get_all_blocks_over_limit self tr b "0x270f" Hnode Hn).
  exists 9999. split; [reflexivity|]. unfold NUM_BLOCKS_UPPER_LIMIT. lia.
Qed.

Lemma get_all_blocks_at_10000_witness :
  get_all_blocks Scenario.node_10000 []
  = (Raise (ClickException
       "Number of blocks existing on the ethereum node running at http://localhost:7545 can not exceed 10000. Did you pass the correct RPC url?"),
     [Call (EthGetBlockByNumber "latest")]).
Proof.
  apply (get_all_blocks_at_10000 Scenario.node_10000 []
           (Scenario.block_numbered "0x270f" [])); reflexivity.
Defined.


(** ** Transaction collector *)

Lemma null_to_empty_lookup (transaction : gmap string (option string)) (key : string) :
  null_to_empty transaction !! key = Spec.replace_null <$> transaction !! key.
Proof.
  unfold null_to_empty.
  cut (forall m0 : gmap string (option string),
         map_fold
           (fun key v t => match v with None => <[key := Some EmptyString]> t | Some _ => t end)
           m0 transaction !! key
         = match transaction !! key with
           | Some None => Some (Some EmptyString)
           | _ => m0 !! key
           end).
  { intros H. rewrite H. by destruct (transaction !! key) as [[s|]|]. }
  intros m0.
  apply (map_fold_weak_ind
           (fun r (m : gmap string (option string)) =>
              r !! key = match m !! key with
                         | Some None => Some (Some EmptyString)
                         | _ => m0 !! key
                         end)).
  - by rewrite lookup_empty.
  - intros i x m r Hi IH. destruct (decide (i = key)) as [->|Hne].
    + rewrite lookup_insert_eq. rewrite Hi in IH.
      destruct x; [done|]. by rewrite lookup_insert_eq.
    + rewrite lookup_insert_ne by done.
      destruct x; [done|]. by rewrite lookup_insert_ne.
Qed.

Lemma null_to_empty_fmap (transaction : gmap string (option string)) :
  null_to_empty transaction = Spec.replace_null <$> transaction.
Proof. apply map_eq. intros k. by rewrite null_to_empty_lookup, lookup_fmap. Qed.

Lemma add_block_fields_enriched (block : EVMBlock) (transaction : gmap string (option string)) :
  add_block_fields block (null_to_empty transaction) = Spec.enriched block transaction.
Proof.
  rewrite null_to_empty_fmap. unfold add_block_fields, Spec.enriched, Spec.block_fields.
  apply map_eq. intros k. simpl.
  rewrite lookup_union.
  destruct (decide (k = "blockTimestamp")) as [->|H1].
  { rewrite lookup_insert_eq. rewrite !lookup_insert_ne by done.
    rewrite lookup_insert_eq. by destruct ((_ <$> transaction) !! _). }
  rewrite (lookup_insert_ne _ "blockTimestamp") by done.
  destruct (decide (k = "blockGasLimit")) as [->|H2].
  { rewrite lookup_insert_eq. rewrite !lookup_insert_ne by done.
    rewrite lookup_insert_eq. by destruct ((_ <$> transaction) !! _). }
  rewrite (lookup_insert_ne _ "blockGasLimit") by done.
  destruct (decide (k = "blockDifficulty")) as [->|H3].
  { rewrite lookup_insert_eq. rewrite !lookup_insert_ne by done.
    rewrite lookup_insert_eq. by destruct ((_ <$> transaction) !! _). }
  rewrite (lookup_insert_ne _ "blockDifficulty") by done.
  destruct (decide (k = "blockCoinbase")) as [->|H4].
  { rewrite !lookup_insert_eq. by destruct ((_ <$> transaction) !! _). }
  rewrite !lookup_insert_ne by done. rewrite lookup_empty.
  by destruct ((_ <$> transaction) !! k).
Qed.

(** What a returned transaction holds under each key. *)
Lemma enriched_lookup (block : EVMBlock) (transaction : gmap string (option string))
    (key : string) :
  Spec.enriched block transaction !! key =
  if decide (key = "blockCoinbase") then Some (miner block)
  else if decide (key = "blockDifficulty") then Some (difficulty block)
  else if decide (key = "blockGasLimit") then Some (gasLimit block)
  else if decide (key = "blockTimestamp") then Some (timestamp block)
  else match transaction !! key with
       | Some None => Some (Some EmptyString)
       | other => other
       end.
Proof.
  rewrite <- add_block_fields_enriched, null_to_empty_fmap. unfold add_block_fields.
  rewrite !lookup_insert, lookup_fmap.
  repeat case_decide; subst; try done.
  by destruct (transaction !! key) as [[s|]|].
Qed.

Lemma foldl_snoc_map {A B : Type} (g : A -> B) (l : list A) (acc : list B) :
  foldl (fun processed x => processed ++ [g x]) acc l = acc ++ map g l.
Proof.
  revert acc. induction l as [|x l IH]; intros acc; simpl.
  - by rewrite app_nil_r.
  - rewrite IH, <- app_assoc. done.
Qed.

(** The loop of [get_transactions] over blocks that are all present. *)
Lemma process_blocks (skip : list (option string)) (bs : list EVMBlock)
    (acc : list (gmap string (option string))) tr :
  for_each
    (fun processed_transactions block =>
       match block with
       | None => raise TypeError
       | Some block =>
           if decide (number block ∈ skip) then ret processed_transactions
           else
             ret (foldl
                    (fun processed transaction =>
                       processed ++ [add_block_fields block (null_to_empty transaction)])
                    processed_transactions (transactions block))
       end)
    (Some <$> bs) acc tr
  = (Ok (acc ++ Spec.collected skip bs), tr).
Proof.
  revert acc. induction bs as [|b bs IH]; intros acc.
  - simpl. unfold Spec.collected. simpl. by rewrite app_nil_r.
  - rewrite fmap_cons. simpl. unfold Spec.collected. simpl.
    case_decide.
    + rewrite bind_ret, IH. done.
    + rewrite bind_ret, IH, foldl_snoc_map, <- app_assoc.
      rewrite (map_ext _ (Spec.enriched b)); [done|].
      intros tx. apply add_block_fields_enriched.
Qed.




(** On the two-block chain with block 0 skipped, the one transaction that
    remains carries the fields of block 1 and the empty string for its
    [null] input. *)
Example collected_two_blocks :
  Spec.collected [Some "0x0"] [Scenario.block0; Scenario.block1]
  = [ list_to_map
        [("from", Some "0xAA"); ("to", Some "0xaa0"); ("nonce", Some "0x1");
         ("input", Some EmptyString); ("blockCoinbase", Some "0xc0");
         ("blockDifficulty", Some "0x1"); ("blockGasLimit", Some "0x6691b7");
         ("blockTimestamp", Some "0x5f")] ].
Proof. vm_compute. reflexivity. Qed.

(** ** Seed state builder *)

Lemma append_inj_l (p a b : string) : p +:+ a = p +:+ b -> a = b.
Proof. induction p as [|c p IH]; simpl; [done|]. intros [= H]. auto. Qed.

(** The two messages of [get_seed_state] never coincide. *)
Lemma no_transactions_message_distinct (self : RPCClient) (address : option string) :
  no_transactions_message self address <> wrong_address_message address.
Proof.
  unfold no_transactions_message, wrong_address_message. intros H.
  apply append_inj_l, append_inj_l in H. simpl in H. discriminate.
Qed.

(** C9: when the transactions collected outside the lessons' blocks are
    none, [get_seed_state] fails with the [UsageError] that says no
    transactions were found, an error distinct from its other one; and a seed
    state it returns never has an empty list of steps. *)
Theorem get_seed_state_no_transactions (host : Host) (self : RPCClient)
    (address : option string) (other_addresses : option (list string))
    (corpus_target : option string) (tr : list event) :
  (forall acc tr1 tr2,
     collect_lessons host tr = (Ok acc, tr1) ->
     get_transactions self None (elements acc.1) tr1 = (Ok [], tr2) ->
     get_seed_state host self address other_addresses corpus_target tr
     = (Raise (UsageError (no_transactions_message self address)), tr2))
  /\ (forall seed_state tr',
        get_seed_state host self address other_addresses corpus_target tr
        = (Ok seed_state, tr') ->
        steps (analysis_setup seed_state) <> [])
  /\ no_transactions_message self address <> wrong_address_message address.
Proof.
  split; [|split].
  - intros acc tr1 tr2 Hlessons Htxs. unfold get_seed_state, try_except.
    rewrite (bind_ok _ _ _ _ _ Hlessons). cbv zeta.
    rewrite (bind_ok _ _ _ _ _ Htxs). reflexivity.
  - intros seed_state tr'. unfold get_seed_state, try_except.
    unfold bind at 1.
    destruct (collect_lessons host tr) as [[acc|e] tr1].
    + cbv zeta. unfold bind at 1.
      destruct (get_transactions self None (elements acc.1) tr1) as [[txs|e] tr2].
      * destruct txs as [|tx txs]; simpl.
        -- discriminate.
        -- intros [= <- <-]. simpl. discriminate.
      * destruct (is_ClickException e); discriminate.
    + destruct (is_ClickException e); discriminate.
  - apply no_transactions_message_distinct.
Qed.

Lemma get_seed_state_no_transactions_witness :
  get_seed_state Scenario.host0 Scenario.empty_node (Some "0xaa0") None None []
  = (Raise (UsageError
       "Unable to generate the seed state for address 0xaa0. No transactions were found in an ethereum node running at http://localhost:7545"),
     [Call (EthGetBlockByNumber "latest")]).
Proof.
  apply (proj1 (get_seed_state_no_transactions Scenario.host0 Scenario.empty_node
                  (Some "0xaa0") None None []) (∅, []) []);
    reflexivity.
Defined.

(** A chain with transactions yields a seed state: the steps are the
    collected transactions. *)
Example get_seed_state_two_blocks :
  exists seed_state tr,
    get_seed_state Scenario.host0 Scenario.two_block_node (Some "0xaa0") None None []
    = (Ok seed_state, tr)
    /\ steps (analysis_setup seed_state)
       = Spec.collected [] [Scenario.block0; Scenario.block1].
Proof. eexists _, _. split; [vm_compute; reflexivity|]. vm_compute. reflexivity. Qed.

(** ** Address deriver *)

(** One step of the loop on a readable transaction: a derivation exactly
    when the recipient is empty. *)
Lemma add_created_contract_spec (host : Host) (txn : gmap string (option string))
    (contracts : gset string) tr :
  Spec.readable_step txn ->
  add_created_contract host contracts txn tr
  = match (if Spec.is_creation txn then Spec.creation_args txn else None) with
    | Some p => (Ok (contracts ∪ {[ mk_contract_address host p.1 p.2 ]}),
                 tr ++ [MkAddress p.1 p.2])
    | None => (Ok contracts, tr)
    end.
Proof.
  intros [[to Hto] Hwf]. unfold add_created_contract, Spec.is_creation in *.
  unfold getitem at 1. rewrite Hto in *. rewrite bind_ret.
  destruct to as [[|c r]|]; cbn [Py.truthy]; [|reflexivity|].
  all: destruct (Hwf eq_refl) as [[s n] Hargs]; rewrite Hargs;
    unfold Spec.creation_args in Hargs;
    destruct (txn !! "from") as [[from|]|] eqn:Hfrom; try discriminate;
    destruct (txn !! "nonce") as [[nonce|]|] eqn:Hnonce; try discriminate;
    destruct (Py.int16 nonce) as [k|] eqn:Hk; try discriminate;
    injection Hargs as <- <-;
    unfold bind, getitem, int_base16, emit, ret; rewrite Hfrom, Hnonce, Hk;
    reflexivity.
Qed.

(** A step with a recipient reads no other field and derives nothing. *)
Lemma add_created_contract_recipient (host : Host) (txn : gmap string (option string))
    (contracts : gset string) tr c r :
  txn !! "to" = Some (Some (String c r)) ->
  add_created_contract host contracts txn tr = (Ok contracts, tr).
Proof.
  intros Hto. unfold add_created_contract, getitem. by rewrite Hto.
Qed.

Lemma deployed_loop (host : Host) (l : list (gmap string (option string))) :
  Forall Spec.readable_step l ->
  forall (acc : gset string) tr,
    for_each (add_created_contract host) l acc tr
    = (Ok (acc ∪ list_to_set
                   (map (fun p => mk_contract_address host p.1 p.2) (Spec.creations l))),
       tr ++ map (fun p => MkAddress p.1 p.2) (Spec.creations l)).
Proof.
  induction 1 as [|txn l Hwf _ IH]; intros acc tr.
  - simpl. rewrite app_nil_r. unfold ret. by rewrite (right_id_L ∅ (∪)).
  - cbn [for_each]. unfold Spec.creations. cbn [omap list_omap].
    fold (Spec.creations l).
    unfold bind. rewrite add_created_contract_spec by done.
    destruct (if Spec.is_creation txn then Spec.creation_args txn else None) as [p|].
    + rewrite IH. cbn [map]. rewrite <- app_assoc. cbn [app].
      f_equal. f_equal. cbn [list_to_set foldr]. by rewrite (assoc_L (∪)).
    + apply IH.
Qed.

(** C6: on a seed state whose steps are readable,
    [get_all_deployed_contracts_addresses] returns exactly the set of the
    addresses derived from the sender and the hexadecimal nonce of the steps
    whose recipient is empty, and it calls the derivation for those steps
    only, once each and in order; when every step has a recipient, it returns
    the empty set and calls the derivation not at all. *)
Theorem deployed_addresses_are_creations (host : Host) (seed_state : SeedState)
    (tr : list event) :
  let txns := steps (analysis_setup seed_state) in
  (Forall Spec.readable_step txns ->
   get_all_deployed_contracts_addresses host seed_state tr
   = (Ok (list_to_set
            (map (fun p => mk_contract_address host p.1 p.2) (Spec.creations txns))),
      tr ++ map (fun p => MkAddress p.1 p.2) (Spec.creations txns)))
  /\ (Forall (fun txn => exists c r, txn !! "to" = Some (Some (String c r))) txns ->
      get_all_deployed_contracts_addresses host seed_state tr = (Ok ∅, tr)).
Proof.
  intros txns. split.
  - intros Hwf. unfold get_all_deployed_contracts_addresses. fold txns.
    rewrite (deployed_loop host txns Hwf). by rewrite (left_id_L ∅ (∪)).
  - intros Hto. unfold get_all_deployed_contracts_addresses. fold txns.
    induction Hto as [|txn l (c & r & Htxn) _ IH]; [done|].
    cbn [for_each].
    by rewrite (bind_ok _ _ _ _ _ (add_created_contract_recipient host txn ∅ tr c r Htxn)).
Qed.

Lemma deployed_addresses_are_creations_witness :
  get_all_deployed_contracts_addresses Scenario.host0
    (Scenario.seed_state_of None None Scenario.two_block_steps) []
  = (Ok (list_to_set
           (map (fun p => mk_contract_address Scenario.host0 p.1 p.2)
                (Spec.creations Scenario.two_block_steps))),
     [] ++ map (fun p => MkAddress p.1 p.2) (Spec.creations Scenario.two_block_steps))
  /\ get_all_deployed_contracts_addresses Scenario.host0
       (Scenario.seed_state_of None None Scenario.call_steps) []
     = (Ok ∅, []).
Proof.
  split.
  - apply (proj1 (deployed_addresses_are_creations Scenario.host0
                    (Scenario.seed_state_of None None Scenario.two_block_steps) [])).
    repeat constructor; vm_compute; eauto.
  - apply (proj2 (deployed_addresses_are_creations Scenario.host0
                    (Scenario.seed_state_of None None Scenario.call_steps) [])).
    repeat constructor. exists "0"%char, "xaa0". vm_compute. reflexivity.
Defined.

(** On the two-block chain the creation by [0xAA] with nonce 0 is the one
    derivation, the call contributes nothing. *)
Example creations_two_blocks : Spec.creations Scenario.two_block_steps = [("AA", 0)].
Proof. vm_compute. reflexivity. Qed.

(** ** Reconciliation: declared against deployed addresses *)

Lemma lower_ascii_idem (c : ascii) : Py.lower_ascii (Py.lower_ascii c) = Py.lower_ascii c.
Proof. by destruct c as [[] [] [] [] [] [] [] []]. Qed.

Lemma lower_idem (s : string) : Py.lower (Py.lower s) = Py.lower s.
Proof. induction s as [|c s IH]; simpl; [done|]. by rewrite lower_ascii_idem, IH. Qed.

(** The addresses under test are the declared ones in lower case. *)
Lemma addresses_under_test_spec (seed_state : SeedState) (x : string) :
  x ∈ addresses_under_test seed_state
  <-> exists d, d ∈ Spec.declared seed_state /\ x = Py.lower d.
Proof.
  unfold addresses_under_test, Spec.declared. rewrite elem_of_map.
  destruct (address_under_test (analysis_setup seed_state)) as [[|c r]|];
    destruct (other_addresses_under_test (analysis_setup seed_state)) as [[|a l]|];
    simpl; split; intros (d & H1 & H2); exists d; set_solver.
Qed.

Lemma addresses_under_test_lower (seed_state : SeedState) (x : string) :
  x ∈ addresses_under_test seed_state -> Py.lower x = x.
Proof.
  rewrite addresses_under_test_spec. intros (d & _ & ->). apply lower_idem.
Qed.

Lemma elem_of_unknown_loop (deployed : gset string) (l acc : list string) (x : string) :
  x ∈ foldl (add_unknown_target deployed) acc l
  <-> x ∈ acc \/ (x ∈ l /\ x ∉ deployed).
Proof.
  revert acc. induction l as [|t l IH]; intros acc; simpl.
  - set_solver.
  - rewrite IH. unfold add_unknown_target. case_decide; set_solver.
Qed.

Lemma elem_of_dict_setitem_keys {V : Type} (key : string) (v : V)
    (d : list (string * V)) (a : string) :
  a ∈ (dict_setitem key v d).*1 <-> a = key \/ a ∈ d.*1.
Proof.
  induction d as [|[k w] d IH]; simpl.
  - set_solver.
  - case_decide; simpl; set_solver.
Qed.

Lemma elem_of_missing_loop (self : RPCClient) (targets : gset string)
    (l : list string) (acc missing : list (string * option string)) tr tr' (a : string) :
  for_each (add_missing_target self targets) l acc tr = (Ok missing, tr') ->
  a ∈ missing.*1 <-> a ∈ acc.*1 \/ (a ∈ l /\ a ∉ targets).
Proof.
  revert acc tr. induction l as [|c l IH]; intros acc tr; simpl.
  - unfold ret. intros [= <- <-]. set_solver.
  - intros H. apply bind_inv_ok in H as (acc1 & tr1 & Hstep & Hrest).
    rewrite (IH _ _ Hrest). unfold add_missing_target in Hstep.
    case_decide.
    + injection Hstep as <- <-. set_solver.
    + apply bind_inv_ok in Hstep as (code & tr0 & _ & Hret).
      injection Hret as <- <-. rewrite elem_of_dict_setitem_keys. set_solver.
Qed.

Lemma get_inconsistent_addresses_inv (host : Host) (self : RPCClient)
    (seed_state : SeedState) tr missing unknown tr' :
  get_inconsistent_addresses host self seed_state tr = (Ok (missing, unknown), tr') ->
  exists deployed tr1,
    get_all_deployed_contracts_addresses host seed_state tr = (Ok deployed, tr1)
    /\ unknown = foldl (add_unknown_target deployed) []
                   (elements (addresses_under_test seed_state))
    /\ for_each (add_missing_target self (addresses_under_test seed_state))
         (elements deployed) [] tr1 = (Ok missing, tr').
Proof.
  unfold get_inconsistent_addresses. intros H.
  apply bind_inv_ok in H as (deployed & tr1 & Hdep & H).
  cbv zeta in H. apply bind_inv_ok in H as (m & tr2 & Hmiss & H).
  injection H as <- <- <-. by exists deployed, tr1.
Qed.

(** The two sets of [get_inconsistent_addresses], in terms of the declared
    addresses as written and the deployed addresses as derived. *)
Lemma inconsistent_addresses_spec (host : Host) (self : RPCClient)
    (seed_state : SeedState) tr missing unknown tr' :
  get_inconsistent_addresses host self seed_state tr = (Ok (missing, unknown), tr') ->
  exists deployed tr1,
    get_all_deployed_contracts_addresses host seed_state tr = (Ok deployed, tr1)
    /\ (forall x, x ∈ unknown
                  <-> (exists d, d ∈ Spec.declared seed_state /\ x = Py.lower d)
                      /\ x ∉ deployed)
    /\ (forall a, a ∈ missing.*1
                  <-> a ∈ deployed
                      /\ ~ exists d, d ∈ Spec.declared seed_state /\ a = Py.lower d).
Proof.
  intros H. apply get_inconsistent_addresses_inv in H
    as (deployed & tr1 & Hdep & -> & Hmiss).
  exists deployed, tr1. split; [done|]. split.
  - intros x. rewrite elem_of_unknown_loop, elem_of_elements, addresses_under_test_spec.
    set_solver.
  - intros a. rewrite (elem_of_missing_loop _ _ _ _ _ _ _ a Hmiss).
    rewrite elem_of_elements, addresses_under_test_spec. set_solver.
Qed.

(** C3: the declared addresses enter the comparison in lower case only.  An
    address is an unknown target exactly when it is the lower-case form of a
    declared address and is not deployed; a deployed address is a missing
    target exactly when it is the lower-case form of no declared address.  So
    an address declared as [0xABC...] and a deployed address reported as
    [0xabc...] are the same address: neither is it unknown nor is the deployed
    one missing.  Every unknown target is in lower case. *)
Theorem address_comparison_is_case_insensitive (host : Host) (self : RPCClient)
    (seed_state : SeedState) (tr : list event)
    (missing : list (string * option string)) (unknown : list string)
    (tr' : list event) :
  get_inconsistent_addresses host self seed_state tr = (Ok (missing, unknown), tr') ->
  exists deployed tr1,
    get_all_deployed_contracts_addresses host seed_state tr = (Ok deployed, tr1)
    /\ (forall x, x ∈ unknown
                  <-> (exists d, d ∈ Spec.declared seed_state /\ x = Py.lower d)
                      /\ x ∉ deployed)
    /\ (forall a, a ∈ missing.*1
                  <-> a ∈ deployed
                      /\ ~ exists d, d ∈ Spec.declared seed_state /\ a = Py.lower d)
    /\ (forall d a, d ∈ Spec.declared seed_state -> a ∈ deployed -> a = Py.lower d ->
                    ~ (Py.lower d ∈ unknown) /\ ~ (a ∈ missing.*1))
    /\ (forall x, x ∈ unknown -> Py.lower x = x).
Proof.
  intros H. destruct (inconsistent_addresses_spec _ _ _ _ _ _ _ H)
    as (deployed & tr1 & Hdep & Hunk & Hmiss).
  exists deployed, tr1. repeat split; try apply Hunk; try apply Hmiss; auto.
  - intros Hin. apply Hunk in Hin as [_ Hnot]. subst. contradiction.
  - intros Hin. apply Hmiss in Hin as [_ Hnot]. apply Hnot. by exists d.
  - intros x Hx. apply Hunk in Hx as [(d & _ & ->) _]. apply lower_idem.
Qed.

Lemma address_comparison_is_case_insensitive_witness :
  get_inconsistent_addresses Scenario.host0 Scenario.two_block_node
    Scenario.seed_with_unknown []
  = (Ok ([], ["0xbeef"]), [MkAddress "AA" 0])
  /\ exists deployed tr1,
       get_all_deployed_contracts_addresses Scenario.host0 Scenario.seed_with_unknown []
       = (Ok deployed, tr1)
       /\ (forall d a, d ∈ Spec.declared Scenario.seed_with_unknown -> a ∈ deployed ->
                       a = Py.lower d -> ~ (Py.lower d ∈ ["0xbeef"])).
Proof.
  assert (H : get_inconsistent_addresses Scenario.host0 Scenario.two_block_node
                Scenario.seed_with_unknown []
              = (Ok ([], ["0xbeef"]), [MkAddress "AA" 0])) by (vm_compute; reflexivity).
  split; [exact H|].
  destruct (address_comparison_is_case_insensitive Scenario.host0 Scenario.two_block_node
              Scenario.seed_with_unknown [] [] ["0xbeef"] [MkAddress "AA" 0] H)
    as (deployed & tr1 & Hdep & _ & _ & Heq & _).
  exists deployed, tr1. split; [exact Hdep|].
  intros d a Hd Ha Hlow. exact (proj1 (Heq d a Hd Ha Hlow)).
Defined.

(** ** The validation pipeline *)

Lemma quiet_ret {A : Type} (a : A) : Spec.quiet (ret a).
Proof. intros tr e tr'. discriminate. Qed.

Lemma quiet_raise {A : Type} (e : exn) :
  is_ClickException e = false -> Spec.quiet (@raise A e).
Proof. intros He tr e' tr' [= <- <-]. exact He. Qed.

Lemma quiet_bind {A B : Type} (m : M A) (k : A -> M B) :
  Spec.quiet m -> (forall a, Spec.quiet (k a)) -> Spec.quiet (bind m k).
Proof.
  intros Hm Hk tr e tr' H. apply bind_inv_raise in H as [H|(a & tr1 & _ & H)].
  - by apply Hm in H.
  - by apply Hk in H.
Qed.

Lemma quiet_for_each {A S : Type} (body : S -> A -> M S) (l : list A) (s : S) :
  (forall s x, Spec.quiet (body s x)) -> Spec.quiet (for_each body l s).
Proof.
  intros Hbody. revert s. induction l as [|x l IH]; intros s; simpl.
  - apply quiet_ret.
  - apply quiet_bind; auto.
Qed.

Lemma quiet_lift {A : Type} (r : result A) :
  (forall e, r = Raise e -> is_ClickException e = false) -> Spec.quiet (lift r).
Proof.
  intros Hr. destruct r as [a|e]; simpl.
  - apply quiet_ret.
  - apply quiet_raise. by apply Hr.
Qed.

Lemma quiet_getitem {V : Type} (d : gmap string V) (key : string) :
  Spec.quiet (getitem d key).
Proof.
  unfold getitem. destruct (d !! key); [apply quiet_ret | by apply quiet_raise].
Qed.

Lemma quiet_get_code (self : RPCClient) (a : string) : Spec.quiet (get_code self a).
Proof. intros tr e tr' H. by apply get_code_raise in H as ->. Qed.

Lemma quiet_get_contract_by_address (self : RPCClient) (a : string)
    (artifacts : IDEArtifacts) :
  Spec.quiet (get_contract_by_address self a artifacts).
Proof.
  unfold get_contract_by_address. apply quiet_bind; [apply quiet_get_code|].
  intros [code|]; [|apply quiet_ret].
  destruct (get_contract artifacts code) as [c|]; [|apply quiet_ret].
  case_decide; [apply quiet_ret|].
  destruct (dict_get c "mainSourceFile" None); apply quiet_ret.
Qed.

Lemma quiet_main_source_file (c : gmap string (option string)) :
  Spec.quiet (main_source_file c).
Proof.
  unfold main_source_file. apply quiet_bind; [apply quiet_getitem|].
  intros [s|]; [apply quiet_ret | by apply quiet_raise].
Qed.

Lemma common_prefix_raise (s1 s2 : list string) (e : exn) :
  Posix.common_prefix s1 s2 = Raise e -> e = IndexError.
Proof.
  revert s2. induction s1 as [|c r1 IH]; intros [|d r2]; simpl; try discriminate.
  - by intros [= <-].
  - case_decide; [|discriminate].
    destruct (Posix.common_prefix r1 r2) eqn:E; [discriminate|].
    intros [= <-]. by apply IH in E.
Qed.

Lemma commonpath_raise (paths : list string) (e : exn) :
  Posix.commonpath paths = Raise e -> is_ClickException e = false.
Proof.
  unfold Posix.commonpath. destruct paths as [|p ps]; [by intros [= <-]|].
  destruct (forallb _ ps); [|by intros [= <-]].
  destruct (Posix.common_prefix _ _) eqn:E; [discriminate|].
  intros [= <-]. by apply common_prefix_raise in E as ->.
Qed.

Lemma path_inclusion_checker_raise (host : Host) (paths : list string) (path : string)
    (e : exn) :
  path_inclusion_checker host paths path = Raise e -> is_ClickException e = false.
Proof.
  unfold path_inclusion_checker, inner_checker. case_decide; [discriminate|].
  induction (directory_paths host paths) as [|d ds IH]; cbn [in_directories];
    [discriminate|].
  destruct (Posix.commonpath [d; path]) eqn:E.
  - case_decide; [discriminate|]. exact IH.
  - intros [= <-]. by apply commonpath_raise in E.
Qed.

Lemma quiet_collect_mismatched_targets (self : RPCClient)
    (missing : list (string * option string)) (artifacts : IDEArtifacts)
    (source_targets : list string) :
  Spec.quiet (collect_mismatched_targets self missing artifacts source_targets).
Proof.
  unfold collect_mismatched_targets. apply quiet_bind.
  - apply quiet_for_each. intros s x. unfold resolve_missing_target. apply quiet_bind.
    + apply quiet_get_contract_by_address.
    + intros c. apply quiet_ret.
  - intros r. apply quiet_ret.
Qed.

Lemma quiet_collect_dangling_contracts (host : Host) (self : RPCClient)
    (addresses : list string) (artifacts : IDEArtifacts) (source_targets : list string) :
  Spec.quiet (collect_dangling_contracts host self addresses artifacts source_targets).
Proof.
  unfold collect_dangling_contracts. apply quiet_for_each. intros s a.
  apply quiet_bind; [apply quiet_get_contract_by_address|].
  intros [c|]; [|apply quiet_ret].
  destruct (dict_get c "mainSourceFile" None); [|apply quiet_ret].
  apply quiet_bind; [apply quiet_main_source_file|]. intros src.
  apply quiet_bind.
  - apply quiet_lift. intros e. apply path_inclusion_checker_raise.
  - intros [|]; apply quiet_ret.
Qed.

(** The texts of the fatal reports begin differently. *)
Lemma unknown_message_not_mismatched (l : list string) (m : list (option string * string)) :
  unknown_targets_message l <> mismatched_targets_message m.
Proof. discriminate. Qed.

Lemma unknown_message_not_dangling (l : list string) (m : list (option string * string)) :
  unknown_targets_message l <> dangling_contracts_message m.
Proof. discriminate. Qed.

Lemma unknown_message_not_no_targets (l : list string) :
  unknown_targets_message l <> no_targets_message.
Proof. discriminate. Qed.

(** What the handler of [check_contracts] makes of an exception that is no
    [ClickException]: never an unknown-target report. *)
Lemma handler_of_quiet (host : Host) (self : RPCClient) (e : exn) tr l tr' :
  is_ClickException e = false ->
  match e with
  | RPCCallError r => raise (UsageError (str_RPCCallError host (rpc_url self) r))
  | _ => @raise unit e
  end tr <> (Raise (ClickException (unknown_targets_message l)), tr').
Proof. destruct e; simpl; intros He; try discriminate; unfold raise; congruence. Qed.

(** C4: once the smart-mode resolution has passed and the chain has been
    read (the deployed addresses derived, the codes of the missing targets
    fetched), [check_contracts] raises the unknown-target error if and only if
    some declared address, in lower case, is not among the derived addresses.
    The report is raised after all declared addresses were checked and names
    every one of them, in one message; and it ends the run on the spot: the
    trace is the one inconsistency detection left, so that no later stage
    fetched a code or printed a notice. *)
Theorem unknown_targets_reported (host : Host) (self : RPCClient)
    (seed_state : SeedState) (artifacts : IDEArtifacts)
    (source_targets : option (list string)) (smart_mode : bool)
    (tr : list event) (processed : list string * list string) (tr1 : list event)
    (missing : list (string * option string)) (unknown : list string)
    (tr2 : list event) :
  smart_mode_setup host self smart_mode seed_state source_targets artifacts tr
  = (Ok processed, tr1) ->
  get_inconsistent_addresses host self seed_state tr1 = (Ok (missing, unknown), tr2) ->
  exists deployed tr1',
    get_all_deployed_contracts_addresses host seed_state tr1 = (Ok deployed, tr1')
    /\ (forall x, x ∈ unknown <-> x ∈ addresses_under_test seed_state /\ x ∉ deployed)
    /\ ((exists x, x ∈ addresses_under_test seed_state /\ x ∉ deployed) ->
        check_contracts host self seed_state artifacts source_targets smart_mode tr
        = (Raise (ClickException
                    ("Unable to find contracts deployed at " +:+ Py.join ", " unknown)),
           tr2))
    /\ (~ (exists x, x ∈ addresses_under_test seed_state /\ x ∉ deployed) ->
        forall l tr3,
          check_contracts host self seed_state artifacts source_targets smart_mode tr
          <> (Raise (ClickException (unknown_targets_message l)), tr3)).
Proof.
  intros Hsetup Hinc.
  destruct (inconsistent_addresses_spec _ _ _ _ _ _ _ Hinc)
    as (deployed & tr1' & Hdep & Hunk & _).
  assert (Hunk' : forall x, x ∈ unknown
                            <-> x ∈ addresses_under_test seed_state /\ x ∉ deployed).
  { intros x. rewrite Hunk, addresses_under_test_spec. done. }
  exists deployed, tr1'. split; [done|]. split; [done|]. split.
  - intros (x & Hx). apply Hunk' in Hx.
    destruct unknown as [|u us]; [by apply elem_of_nil in Hx|].
    unfold check_contracts. rewrite (bind_ok _ _ _ _ _ Hsetup). cbv zeta.
    unfold try_except. rewrite (bind_ok _ _ _ _ _ Hinc). reflexivity.
  - intros Hnone l tr3 Hcc.
    destruct unknown as [|u us].
    2:{ apply Hnone. exists u. apply Hunk'. by left. }
    unfold check_contracts in Hcc. rewrite (bind_ok _ _ _ _ _ Hsetup) in Hcc.
    cbv zeta in Hcc. unfold try_except in Hcc.
    rewrite (bind_ok _ _ _ _ _ Hinc) in Hcc. cbn [fst snd is_nil] in Hcc.
    rewrite bind_ret in Hcc.
    match type of Hcc with
    | match ?m tr2 with _ => _ end = _ => destruct (m tr2) as [[a|e] tr4] eqn:E
    end; [discriminate|].
    apply bind_inv_raise in E as [E|(collected & tr5 & _ & E)].
    { apply quiet_collect_mismatched_targets in E.
      by apply (handler_of_quiet host self e tr4 l tr3) in E. }
    destruct (is_nil collected.1) eqn:Hmis.
    2:{ unfold handle_mismatched_targets, bind, raise in E.
        injection E as <- <-. unfold raise in Hcc.
        assert (Hmsg : mismatched_targets_message collected.1 = unknown_targets_message l)
          by congruence.
        symmetry in Hmsg. by apply unknown_message_not_mismatched in Hmsg. }
    rewrite bind_ret in E.
    apply bind_inv_raise in E as [E|(u & tr6 & _ & E)].
    { unfold handle_missing_target_addresses, emit, ret in E.
      destruct (is_nil collected.2); discriminate. }
    apply bind_inv_raise in E as [E|(dangling & tr7 & _ & E)].
    { apply quiet_collect_dangling_contracts in E.
      by apply (handler_of_quiet host self e tr4 l tr3) in E. }
    destruct (is_nil dangling); [discriminate|].
    injection E as <- <-. unfold raise in Hcc.
    assert (Hmsg : dangling_contracts_message dangling = unknown_targets_message l)
      by congruence.
    symmetry in Hmsg. by apply unknown_message_not_dangling in Hmsg.
Qed.

Lemma unknown_targets_reported_witness :
  check_contracts Scenario.host0 Scenario.two_block_node Scenario.seed_with_unknown
    Scenario.artifacts_rel (Some ["contracts/Foo.sol"]) false []
  = (Raise (ClickException "Unable to find contracts deployed at 0xbeef"),
     [MkAddress "AA" 0]).
Proof.
  destruct (unknown_targets_reported Scenario.host0 Scenario.two_block_node
              Scenario.seed_with_unknown Scenario.artifacts_rel
              (Some ["contracts/Foo.sol"]) false []
              (["0xaa0"; "0xbeef"], ["contracts/Foo.sol"]) []
              [] ["0xbeef"] [MkAddress "AA" 0])
    as (deployed & tr1 & Hdep & Hunk & Hif & _).
  - vm_compute. reflexivity.
  - vm_compute. reflexivity.
  - apply Hif. exists "0xbeef". apply Hunk. by left.
Defined.

(** With smart mode off and no source targets, the guard of the smart-mode
    resolution fails first: a declared address is not deployed, and yet the
    error is not the unknown-target report. *)
Lemma unknown_targets_behind_the_guard :
  get_all_deployed_contracts_addresses Scenario.host0 Scenario.seed_with_unknown []
  = (Ok {[ "0xaa0" ]}, [MkAddress "AA" 0])
  /\ "0xbeef" ∈ addresses_under_test Scenario.seed_with_unknown
  /\ ~ ("0xbeef" ∈ ({[ "0xaa0" ]} : gset string))
  /\ check_contracts Scenario.host0 Scenario.two_block_node Scenario.seed_with_unknown
       Scenario.artifacts_rel None false []
     = (Raise (ClickException no_targets_message), [])
  /\ ~ (exists l tr',
          check_contracts Scenario.host0 Scenario.two_block_node
            Scenario.seed_with_unknown Scenario.artifacts_rel None false []
          = (Raise (ClickException (unknown_targets_message l)), tr')).
Proof.
  assert (Hcc : check_contracts Scenario.host0 Scenario.two_block_node
                  Scenario.seed_with_unknown Scenario.artifacts_rel None false []
                = (Raise (ClickException no_targets_message), []))
    by (vm_compute; reflexivity).
  split; [vm_compute; reflexivity|]. split.
  { apply addresses_under_test_spec. exists "0xBEEF". split; [|reflexivity].
    change (Spec.declared Scenario.seed_with_unknown) with ["0xAA0"; "0xBEEF"].
    apply elem_of_cons. right. apply elem_of_cons. by left. }
  split; [rewrite elem_of_singleton; discriminate|]. split; [exact Hcc|].
  intros (l & tr' & H). rewrite Hcc in H.
  assert (Hmsg : unknown_targets_message l = no_targets_message) by congruence.
  by apply unknown_message_not_no_targets in Hmsg.
Qed.

(** ** Mismatched targets *)

(** What [get_contract_by_address] can return: nothing, or a contract of the
    resolver that names a main source file. *)
Lemma get_contract_by_address_some (self : RPCClient) (a : string)
    (artifacts : IDEArtifacts) tr c tr' :
  get_contract_by_address self a artifacts tr = (Ok (Some c), tr') ->
  exists code s, get_contract artifacts code = Some c
                 /\ c !! "mainSourceFile" = Some (Some s).
Proof.
  unfold get_contract_by_address. intros H.
  apply bind_inv_ok in H as ([code|] & tr1 & _ & H); [|discriminate].
  destruct (get_contract artifacts code) as [c'|] eqn:Hc; [|discriminate].
  case_decide; [discriminate|].
  unfold dict_get in H. destruct (c' !! "mainSourceFile") as [[s|]|] eqn:Hs;
    try discriminate.
  injection H as <- <-. by exists code, s.
Qed.

Lemma resolve_loop (self : RPCClient) (artifacts : IDEArtifacts)
    (l : list (string * option string))
    (acc resolved : list (string * option string * option string)) tr tr' :
  for_each (resolve_missing_target self artifacts) l acc tr = (Ok resolved, tr') ->
  exists new, resolved = acc ++ new /\ Forall2 (Spec.resolved_entry self artifacts) l new.
Proof.
  revert acc tr. induction l as [|item l IH]; intros acc tr; simpl.
  - intros [= <- <-]. exists []. by rewrite app_nil_r.
  - intros H. apply bind_inv_ok in H as (acc1 & tr1 & Hstep & Hrest).
    unfold resolve_missing_target in Hstep.
    apply bind_inv_ok in Hstep as (contract & tr0 & Hget & Hret).
    injection Hret as <- <-.
    apply IH in Hrest as (new & -> & Hnew).
    eexists (_ :: new). rewrite <- app_assoc. split; [reflexivity|].
    constructor; [|done]. by exists tr, tr0, contract.
Qed.

Lemma elem_of_mismatched_loop (source_targets : list string)
    (resolved : list (string * option string * option string))
    (acc : list (option string * string)) (f : option string) (a : string) :
  (f, a) ∈ foldl (add_mismatched_target source_targets) acc resolved
  <-> (f, a) ∈ acc
      \/ ((exists n, (a, f, n) ∈ resolved)
          /\ f <> Some "null" /\ value_in f source_targets = true).
Proof.
  revert acc. induction resolved as [|[[a' f'] n'] resolved IH]; intros acc; simpl.
  - split; [by left|]. intros [H|((n & H) & _)]; [done|]. by apply elem_of_nil in H.
  - rewrite IH. unfold add_mismatched_target. simpl.
    split.
    + intros [H|((n & Hn) & Hf & Hin)].
      * case_decide as Hnull.
        { by left. }
        destruct (value_in f' source_targets) eqn:Hv; [|by left].
        apply elem_of_app in H as [H|H]; [by left|].
        apply list_elem_of_singleton in H. injection H as -> ->.
        right. split; [|done]. exists n'. by left.
      * right. split; [|done]. exists n. by right.
    + intros [H|((n & Hn) & Hf & Hin)].
      * left. case_decide; [done|].
        destruct (value_in f' source_targets); [|done].
        apply elem_of_app. by left.
      * apply elem_of_cons in Hn as [Hn|Hn].
        -- injection Hn as -> -> ->. left.
           case_decide; [done|]. rewrite Hin. apply elem_of_app. right. by left.
        -- right. split; [|done]. by exists n.
Qed.

Lemma resolved_entry_of_elem (self : RPCClient) (artifacts : IDEArtifacts)
    (missing : list (string * option string))
    (resolved : list (string * option string * option string)) entry :
  Forall2 (Spec.resolved_entry self artifacts) missing resolved ->
  entry ∈ resolved ->
  exists item, item ∈ missing /\ Spec.resolved_entry self artifacts item entry.
Proof.
  intros HF Hin. apply list_elem_of_lookup in Hin as [i Hi].
  destruct (Forall2_lookup_r _ _ _ _ _ HF Hi) as (item & Hitem & HR).
  exists item. split; [|done]. apply list_elem_of_lookup. by exists i.
Qed.

Lemma resolved_entry_of_item (self : RPCClient) (artifacts : IDEArtifacts)
    (missing : list (string * option string))
    (resolved : list (string * option string * option string)) item :
  Forall2 (Spec.resolved_entry self artifacts) missing resolved ->
  item ∈ missing ->
  exists entry, entry ∈ resolved /\ Spec.resolved_entry self artifacts item entry.
Proof.
  intros HF Hin. apply list_elem_of_lookup in Hin as [i Hi].
  destruct (Forall2_lookup_l _ _ _ _ _ HF Hi) as (entry & Hentry & HR).
  exists entry. split; [|done]. apply list_elem_of_lookup. by exists i.
Qed.

(** C10: in [collect_mismatched_targets] every missing target gets one
    entry of the resolved list, in order.  A target is recorded as mismatched
    exactly when its entry has a source file that is not the string ["null"]
    and is among the source targets; so no entry whose source file is
    ["null"] is ever recorded, whatever the source targets are.  An address
    whose contract does not resolve has the entry ["null"], ["null"] and is not
    recorded.  An address whose contract resolves with the main source file
    ["null"] has an entry with ["null"] as the source file and, as the
    contract name, the name the contract carries (["null"] only when it
    carries none), and is not recorded either. *)
Theorem null_sources_are_not_mismatched (self : RPCClient)
    (missing : list (string * option string)) (artifacts : IDEArtifacts)
    (source_targets : list string) (tr : list event)
    (mismatched : list (option string * string))
    (resolved : list (string * option string * option string)) (tr' : list event) :
  collect_mismatched_targets self missing artifacts source_targets tr
  = (Ok (mismatched, resolved), tr') ->
  Forall2 (Spec.resolved_entry self artifacts) missing resolved
  /\ (forall f a, (f, a) ∈ mismatched
                  <-> (exists n, (a, f, n) ∈ resolved)
                      /\ f <> Some "null" /\ value_in f source_targets = true)
  /\ (forall a,
        (forall t contract t',
           get_contract_by_address self a artifacts t = (Ok contract, t') ->
           contract = None) ->
        (forall f n, (a, f, n) ∈ resolved -> f = Some "null" /\ n = Some "null")
        /\ (forall f, ~ ((f, a) ∈ mismatched)))
  /\ (forall a c,
        (forall t contract t',
           get_contract_by_address self a artifacts t = (Ok contract, t') ->
           contract = Some c) ->
        c !! "mainSourceFile" = Some (Some "null") ->
        (forall f n, (a, f, n) ∈ resolved ->
                     f = Some "null" /\ n = dict_get c "contractName" (Some "null"))
        /\ (a ∈ missing.*1 ->
            (a, Some "null", dict_get c "contractName" (Some "null")) ∈ resolved)
        /\ (forall f, ~ ((f, a) ∈ mismatched))).
Proof.
  unfold collect_mismatched_targets. intros H.
  apply bind_inv_ok in H as (res & tr1 & Hloop & Hret).
  injection Hret as <- <- <-.
  apply resolve_loop in Hloop as (new & -> & HF). rewrite app_nil_l in *.
  assert (Hmis : forall f a,
             (f, a) ∈ foldl (add_mismatched_target source_targets) [] new
             <-> (exists n, (a, f, n) ∈ new)
                 /\ f <> Some "null" /\ value_in f source_targets = true).
  { intros f a. rewrite elem_of_mismatched_loop. split; [|by right].
    intros [H|H]; [by apply elem_of_nil in H|done]. }
  split; [done|]. split; [done|]. split.
  - intros a Hnone.
    assert (Hentry : forall f n, (a, f, n) ∈ new -> f = Some "null" /\ n = Some "null").
    { intros f n Hin.
      destruct (resolved_entry_of_elem _ _ _ _ _ HF Hin)
        as (item & _ & t & t' & contract & Hget & Heq).
      injection Heq as Ha -> ->. rewrite <- Ha in Hget.
      by rewrite (Hnone _ _ _ Hget). }
    split; [done|]. intros f Hin. apply Hmis in Hin as ((n & Hn) & Hf & _).
    by apply Hentry in Hn as [-> _].
  - intros a c Hsome Hsrc.
    assert (Hentry : forall f n, (a, f, n) ∈ new ->
                       f = Some "null" /\ n = dict_get c "contractName" (Some "null")).
    { intros f n Hin.
      destruct (resolved_entry_of_elem _ _ _ _ _ HF Hin)
        as (item & _ & t & t' & contract & Hget & Heq).
      injection Heq as Ha -> ->. rewrite <- Ha in Hget.
      rewrite (Hsome _ _ _ Hget). unfold dict_get at 1. by rewrite Hsrc. }
    split; [done|]. split.
    + intros Ha. apply list_elem_of_fmap in Ha as (item & -> & Hitem).
      destruct (resolved_entry_of_item _ _ _ _ _ HF Hitem)
        as (entry & Hentry' & t & t' & contract & Hget & ->).
      rewrite (Hsome _ _ _ Hget) in Hentry'. unfold dict_get at 1 in Hentry'.
      by rewrite Hsrc in Hentry'.
    + intros f Hin. apply Hmis in Hin as ((n & Hn) & Hf & _).
      by apply Hentry in Hn as [-> _].
Qed.

Lemma null_sources_are_not_mismatched_witness :
  collect_mismatched_targets Scenario.two_block_node [("0xaa0", Some "0x6080")]
    Scenario.artifacts_null ["null"] []
  = (Ok ([], [("0xaa0", Some "null", Some "Token")]), [Call (EthGetCode "0xaa0")])
  /\ forall f a, (f, a) ∈ ([] : list (option string * string))
                 <-> (exists n, (a, f, n) ∈ [("0xaa0", Some "null", Some "Token")])
                     /\ f <> Some "null" /\ value_in f ["null"] = true.
Proof.
  assert (H : collect_mismatched_targets Scenario.two_block_node
                [("0xaa0", Some "0x6080")] Scenario.artifacts_null ["null"] []
              = (Ok ([], [("0xaa0", Some "null", Some "Token")]),
                 [Call (EthGetCode "0xaa0")])) by (vm_compute; reflexivity).
  split; [exact H|].
  exact (proj1 (proj2 (null_sources_are_not_mismatched _ _ _ _ _ _ _ _ H))).
Defined.

(** A contract whose main source file is the string ["null"] and whose name
    is [Token]: it is not recorded as mismatched although ["null"] is a source
    target, and its entry carries the name [Token], not ["null"]. *)
Lemma null_source_keeps_contract_name :
  collect_mismatched_targets Scenario.two_block_node [("0xaa0", Some "0x6080")]
    Scenario.artifacts_null ["null"] []
  = (Ok ([], [("0xaa0", Some "null", Some "Token")]), [Call (EthGetCode "0xaa0")])
  /\ ~ (("0xaa0", Some "null", Some "null")
        ∈ [("0xaa0", Some "null", Some "Token")]).
Proof.
  split; [vm_compute; reflexivity|].
  intros H. apply list_elem_of_singleton in H. discriminate.
Qed.

(** ** Path inclusion *)

Lemma string_compare_refl (s : string) : String.compare s s = Eq.
Proof.
  pose proof (String.compare_antisym s s) as H.
  destruct (String.compare s s); simpl in H; congruence.
Qed.

Lemma list_compare_antisym (a b : list string) :
  Posix.list_compare a b = CompOpp (Posix.list_compare b a).
Proof.
  revert b. induction a as [|x a IH]; intros [|y b]; simpl; try reflexivity.
  rewrite (String.compare_antisym x y).
  destruct (String.compare y x); simpl; [apply IH|reflexivity|reflexivity].
Qed.

Lemma list_compare_refl (a : list string) : Posix.list_compare a a = Eq.
Proof.
  pose proof (list_compare_antisym a a) as H.
  destruct (Posix.list_compare a a); simpl in H; congruence.
Qed.

(** The loop of [commonpath] reads [s2[i]] within bounds when [s1] is not
    above [s2], as is the case for a minimum and a maximum. *)
Lemma common_prefix_ordered (s1 s2 : list string) :
  Posix.list_compare s1 s2 <> Gt -> exists l, Posix.common_prefix s1 s2 = Ok l.
Proof.
  revert s2. induction s1 as [|c r1 IH]; intros [|d r2]; simpl; eauto.
  - intros H. congruence.
  - intros H. case_decide as Hcd; [|eauto]. subst d.
    rewrite string_compare_refl in H.
    destruct (IH r2 H) as [l ->]. eauto.
Qed.

(** [commonpath] of two paths that are both absolute or both relative
    returns. *)
Lemma commonpath_pair_returns (d path : string) :
  Posix.isabs d = Posix.isabs path -> exists c, Posix.commonpath [d; path] = Ok c.
Proof.
  intros Habs. unfold Posix.commonpath. cbn [forallb map]. rewrite Habs.
  rewrite Bool.eqb_reflx. cbn [andb].
  unfold Posix.list_min, Posix.list_max. cbn [foldl].
  pose proof (list_compare_antisym (Posix.components d) (Posix.components path)) as Hanti.
  destruct (Posix.list_compare (Posix.components path) (Posix.components d)) eqn:Hcmp.
  - destruct (common_prefix_ordered (Posix.components d) (Posix.components d)) as [l ->].
    { by rewrite list_compare_refl. }
    eauto.
  - destruct (common_prefix_ordered (Posix.components path) (Posix.components d))
      as [l ->]; [congruence|]. eauto.
  - destruct (common_prefix_ordered (Posix.components d) (Posix.components path))
      as [l ->]; [simpl in Hanti; congruence|]. eauto.
Qed.

Lemma elem_of_directory_paths (host : Host) (paths : list string) (d : string) :
  d ∈ directory_paths host paths <-> d ∈ paths /\ is_dir host d = true.
Proof.
  unfold directory_paths.
  cut (forall acc,
         d ∈ foldl (fun ds p => if is_dir host p then ds ++ [p] else ds) acc paths
         <-> d ∈ acc \/ (d ∈ paths /\ is_dir host d = true)).
  { intros H. rewrite H. rewrite elem_of_nil. tauto. }
  induction paths as [|p paths IH]; intros acc; simpl.
  - rewrite elem_of_nil. tauto.
  - rewrite IH. destruct (is_dir host p) eqn:Hp;
      rewrite ?elem_of_app, ?list_elem_of_singleton, elem_of_cons;
      intuition (subst; auto; congruence).
Qed.

Lemma elem_of_file_paths (host : Host) (paths : list string) (f : string) :
  f ∈ file_paths host paths <-> f ∈ paths /\ is_dir host f = false.
Proof.
  unfold file_paths.
  cut (forall acc,
         f ∈ foldl (fun fs p => if is_dir host p then fs else fs ++ [p]) acc paths
         <-> f ∈ acc \/ (f ∈ paths /\ is_dir host f = false)).
  { intros H. rewrite H. rewrite elem_of_nil. tauto. }
  induction paths as [|p paths IH]; intros acc; simpl.
  - rewrite elem_of_nil. tauto.
  - rewrite IH. destruct (is_dir host p) eqn:Hp;
      rewrite ?elem_of_app, ?list_elem_of_singleton, elem_of_cons;
      intuition (subst; auto; congruence).
Qed.

(** The search through the directories, when none of them mixes with the
    candidate. *)
Lemma in_directories_spec (ds : list string) (path : string) :
  (forall d, d ∈ ds -> Posix.isabs d = Posix.isabs path) ->
  exists b, in_directories ds path = Ok b
            /\ (b = true <-> exists d, d ∈ ds /\ Posix.commonpath [d; path] = Ok d).
Proof.
  induction ds as [|d ds IH]; intros Habs; cbn [in_directories].
  - exists false. split; [done|]. split; [done|]. intros (d & Hd & _).
    by apply elem_of_nil in Hd.
  - destruct (commonpath_pair_returns d path) as [c Hc]; [apply Habs; by left|].
    rewrite Hc. case_decide as Hcd.
    + subst c. exists true. split; [done|]. split; [|done]. intros _.
      exists d. split; [by left|done].
    + destruct IH as (b & Hb & Hiff); [intros d' Hd'; apply Habs; by right|].
      exists b. split; [done|]. rewrite Hiff. split.
      * intros (d' & Hd' & Hc'). exists d'. split; [by right|done].
      * intros (d' & Hd' & Hc'). apply elem_of_cons in Hd' as [->|Hd'].
        -- congruence.
        -- by exists d'.
Qed.

(** C5: when no directory target mixes with the candidate (all are
    absolute, or all relative, as after the normalization in
    [check_contracts]), the checker returns, and it returns true exactly when
    the candidate is one of the targets that are no directories or
    [commonpath] of a directory target and the candidate is that directory;
    with the target [/project/contracts] and the candidate
    [/project/contracts-extra/Foo.sol] it returns false, whether or not the
    target is a directory. *)
Theorem path_inclusion_is_containment (host : Host) (paths : list string)
    (path : string) :
  (forall d, d ∈ paths -> is_dir host d = true -> Posix.isabs d = Posix.isabs path) ->
  (exists b, path_inclusion_checker host paths path = Ok b)
  /\ (path_inclusion_checker host paths path = Ok true
      <-> (path ∈ paths /\ is_dir host path = false)
          \/ (exists d, d ∈ paths /\ is_dir host d = true
                        /\ Posix.commonpath [d; path] = Ok d))
  /\ path_inclusion_checker host ["/project/contracts"]
       "/project/contracts-extra/Foo.sol" = Ok false.
Proof.
  intros Habs.
  destruct (in_directories_spec (directory_paths host paths) path) as (b & Hb & Hiff).
  { intros d Hd. apply elem_of_directory_paths in Hd as [Hd Hdir]. by apply Habs. }
  unfold path_inclusion_checker, inner_checker. split; [|split].
  - case_decide; eauto.
  - case_decide as Hfile.
    + split; [|done]. intros _. left. by apply elem_of_file_paths.
    + rewrite Hb. split.
      * intros [= ->]. right. destruct (proj1 Hiff eq_refl) as (d & Hd & Hc).
        apply elem_of_directory_paths in Hd as [Hd Hdir]. by exists d.
      * intros [Hf|(d & Hd & Hdir & Hc)].
        -- by apply elem_of_file_paths in Hf.
        -- f_equal. apply Hiff. exists d. split; [|done].
           by apply elem_of_directory_paths.
  - unfold directory_paths, file_paths. cbn [foldl].
    destruct (is_dir host "/project/contracts"); vm_compute; reflexivity.
Qed.

Lemma path_inclusion_is_containment_witness :
  path_inclusion_checker Scenario.host0
    ["/project/contracts"; "/project/test/Helper.sol"] "/project/contracts/Foo.sol"
  = Ok true.
Proof.
  apply (proj1 (proj2 (path_inclusion_is_containment Scenario.host0
                         ["/project/contracts"; "/project/test/Helper.sol"]
                         "/project/contracts/Foo.sol"
                         ltac:(intros d Hd _;
                               apply elem_of_cons in Hd as [->|Hd]; [reflexivity|];
                               apply list_elem_of_singleton in Hd as ->;
                               reflexivity)))).
  right. exists "/project/contracts". split; [by left|]. split; reflexivity.
Defined.

(** A relative directory target before an absolute one: the candidate lies
    in the second, and the checker raises on the first. *)
Lemma path_inclusion_mixed_raises :
  path_inclusion_checker Scenario.host_mixed ["contracts"; "/project"] "/project/Foo.sol"
  = Raise ValueError
  /\ "/project" ∈ ["contracts"; "/project"]
  /\ is_dir Scenario.host_mixed "/project" = true
  /\ Posix.commonpath ["/project"; "/project/Foo.sol"] = Ok "/project".
Proof.
  split; [reflexivity|]. split; [set_solver|]. split; reflexivity.
Qed.

(** ** Smart mode on a chain with one contract creation *)

Section OneCreation.

Context (host : Host) (self : RPCClient) (artifacts : IDEArtifacts).
Context (seed_state : SeedState) (source_targets : option (list string)).
Context (sender : string) (nonce : Z) (code source : string).
Context (contract : gmap string (option string)).

(** The address derived from the one creation. *)
Let created : string := mk_contract_address host sender nonce.

(** The user declares neither addresses nor source targets; the steps hold
    one contract creation; the node reports code at the created address, and
    the resolver matches the code to a contract with a main source file. *)
Hypothesis no_addresses : Spec.declared seed_state = [].
Hypothesis no_targets : nonempty source_targets = false.
Hypothesis readable : Forall Spec.readable_step (steps (analysis_setup seed_state)).
Hypothesis one_creation :
  Spec.creations (steps (analysis_setup seed_state)) = [(sender, nonce)].
Hypothesis has_code : forall tr, node self tr (EthGetCode created) = Some (Some code).
Hypothesis code_not_sentinel : code <> "0x".
Hypothesis resolves : get_contract artifacts code = Some contract.
Hypothesis has_source : contract !! "mainSourceFile" = Some (Some source).

Lemma no_addresses_under_test : addresses_under_test seed_state = ∅.
Proof.
  apply set_eq. intros x. rewrite addresses_under_test_spec, no_addresses.
  set_solver.
Qed.

Lemma deployed_is_created tr :
  get_all_deployed_contracts_addresses host seed_state tr
  = (Ok {[ created ]}, tr ++ [MkAddress sender nonce]).
Proof.
  unfold get_all_deployed_contracts_addresses.
  rewrite (deployed_loop host _ readable), one_creation.
  cbn [map list_to_set foldr fst snd].
  by rewrite (left_id_L ∅ (∪)), (right_id_L ∅ (∪)).
Qed.

Lemma created_code tr :
  get_code self created tr = (Ok (Some code), tr ++ [Call (EthGetCode created)]).
Proof.
  rewrite (get_code_spec _ _ _ _ (has_code tr)).
  by rewrite decide_False by congruence.
Qed.

Lemma created_resolves tr :
  get_contract_by_address self created artifacts tr
  = (Ok (Some contract), tr ++ [Call (EthGetCode created)]).
Proof.
  unfold get_contract_by_address.
  rewrite (bind_ok _ _ _ _ _ (created_code tr)).
  rewrite resolves. case_decide as Hempty.
  { rewrite Hempty in has_source. by rewrite lookup_empty in has_source. }
  unfold dict_get. by rewrite has_source.
Qed.

(** Stage 1 derives the created address and the source file of its
    contract. *)
Lemma smart_mode_derives tr :
  smart_mode_setup host self true seed_state source_targets artifacts tr
  = (Ok ([created], [source]),
     tr ++ [MkAddress sender nonce; Call (EthGetCode created)]).
Proof.
  unfold smart_mode_setup. rewrite no_addresses_under_test, no_targets.
  rewrite bool_decide_eq_true_2 by done. cbn [negb andb orb].
  monad_simpl. rewrite (bind_ok _ _ _ _ _ (deployed_is_created tr)).
  rewrite elements_singleton. cbn [for_each].
  monad_simpl. rewrite (bind_ok _ _ _ _ _ (created_resolves _)).
  unfold main_source_file, getitem. rewrite has_source. monad_simpl.
  assert (Hset : list_to_set (default [] source_targets) ∪ {[ source ]}
                 = ({[ source ]} : gset string)).
  { destruct source_targets as [[|t ts]|]; simpl in *; try discriminate;
      by rewrite (left_id_L ∅ (∪)). }
  rewrite Hset, !elements_singleton. unfold ret. by rewrite <- app_assoc.
Qed.

(** Stage 2 counts the created address as a missing target: the declared
    addresses are read from the seed state again, where there are none. *)
Lemma created_is_missing tr :
  get_inconsistent_addresses host self seed_state tr
  = (Ok ([(created, Some code)], []),
     tr ++ [MkAddress sender nonce; Call (EthGetCode created)]).
Proof.
  unfold get_inconsistent_addresses.
  rewrite (bind_ok _ _ _ _ _ (deployed_is_created tr)). cbv zeta.
  rewrite no_addresses_under_test, elements_empty, elements_singleton.
  cbn [for_each foldl]. unfold add_missing_target.
  rewrite decide_False by set_solver.
  monad_simpl.
  rewrite (bind_ok _ _ _ _ _ (created_code _)).
  monad_simpl. unfold ret. cbn [dict_setitem]. by rewrite <- app_assoc.
Qed.

(** Stage 3 on the created address. *)
Lemma created_resolved_entry targets tr :
  collect_mismatched_targets self [(created, Some code)] artifacts targets tr
  = (Ok (add_mismatched_target targets []
           (created, Some source, dict_get contract "contractName" (Some "null")),
         [(created, Some source, dict_get contract "contractName" (Some "null"))]),
     tr ++ [Call (EthGetCode created)]).
Proof.
  unfold collect_mismatched_targets. cbn [for_each]. unfold resolve_missing_target.
  cbn [fst]. monad_simpl. rewrite (bind_ok _ _ _ _ _ (created_resolves tr)).
  monad_simpl. cbn [app foldl]. unfold dict_get at 1 3. rewrite has_source.
  reflexivity.
Qed.

(** C2: with smart mode on, no declared address and no source target, on a
    chain with one contract creation whose code the resolver matches to a
    source file, [check_contracts] derives the created address as the one
    address under test and its source file as the one target, and then, when
    path normalization leaves that source file as it is (an absolute path),
    raises the mismatched-target error for the very address it derived. *)
Theorem smart_mode_reports_derived_address_as_mismatched (tr : list event) :
  source <> "null" ->
  normalize_path artifacts source = source ->
  smart_mode_setup host self true seed_state source_targets artifacts tr
  = (Ok ([created], [source]),
     tr ++ [MkAddress sender nonce; Call (EthGetCode created)])
  /\ check_contracts host self seed_state artifacts source_targets true tr
     = (Raise (ClickException (mismatched_targets_message [(Some source, created)])),
        tr ++ [MkAddress sender nonce; Call (EthGetCode created);
               MkAddress sender nonce; Call (EthGetCode created);
               Call (EthGetCode created)]).
Proof.
  intros Hnull Hnorm. split; [apply smart_mode_derives|].
  unfold check_contracts. rewrite (bind_ok _ _ _ _ _ (smart_mode_derives tr)).
  cbv zeta. cbn [fst snd map]. unfold try_except.
  rewrite (bind_ok _ _ _ _ _ (created_is_missing _)). cbn [fst snd is_nil].
  monad_simpl. rewrite (bind_ok _ _ _ _ _ (created_resolved_entry _ _)).
  cbn [fst snd]. unfold add_mismatched_target. cbn [fst snd].
  destruct (decide (Some source = Some "null")) as [?|_]; [congruence|].
  unfold value_in. rewrite Hnorm. rewrite bool_decide_eq_true_2 by (by left).
  cbn [app is_nil]. unfold handle_mismatched_targets, bind, raise.
  rewrite <- !app_assoc. reflexivity.
Qed.

Lemma created_source tr : main_source_file contract tr = (Ok source, tr).
Proof. unfold main_source_file, getitem. by rewrite has_source. Qed.

(** Stage 5 on the created address: a source file that is no directory is
    among the targets derived from it. *)
Lemma created_not_dangling tr :
  is_dir host (normalize_path artifacts source) = false ->
  collect_dangling_contracts host self [created] artifacts
    [normalize_path artifacts source] tr
  = (Ok [], tr ++ [Call (EthGetCode created)]).
Proof.
  intros Hdir. unfold collect_dangling_contracts. cbn [for_each]. monad_simpl.
  rewrite (bind_ok _ _ _ _ _ (created_resolves _)).
  assert (Hget : dict_get contract "mainSourceFile" None = Some source)
    by (unfold dict_get; by rewrite has_source).
  rewrite Hget. monad_simpl. rewrite (bind_ok _ _ _ _ _ (created_source _)).
  assert (Hcheck : path_inclusion_checker host [normalize_path artifacts source]
                     (normalize_path artifacts source) = Ok true).
  { unfold path_inclusion_checker, inner_checker, file_paths, directory_paths.
    cbn [foldl]. rewrite Hdir. cbn [app].
    destruct (decide (normalize_path artifacts source
                      ∈ [normalize_path artifacts source])) as [_|Hnot]; [done|].
    exfalso. apply Hnot. by left. }
  rewrite Hcheck. cbn [lift]. monad_simpl. reflexivity.
Qed.

(** When normalization changes the source file (a relative path) and the
    normalized path is no directory, the pipeline completes, after printing
    the notice that the derived address was not marked as a target. *)
Lemma smart_mode_completes (tr : list event) :
  source <> "null" ->
  normalize_path artifacts source <> source ->
  is_dir host (normalize_path artifacts source) = false ->
  check_contracts host self seed_state artifacts source_targets true tr
  = (Ok tt,
     tr ++ [MkAddress sender nonce; Call (EthGetCode created);
            MkAddress sender nonce; Call (EthGetCode created);
            Call (EthGetCode created);
            Secho (missing_targets_notice
                     [(created, Some source,
                       dict_get contract "contractName" (Some "null"))]);
            Call (EthGetCode created)]).
Proof.
  intros Hnull Hnorm Hdir.
  unfold check_contracts. rewrite (bind_ok _ _ _ _ _ (smart_mode_derives tr)).
  cbv zeta. cbn [fst snd map]. unfold try_except.
  rewrite (bind_ok _ _ _ _ _ (created_is_missing _)). cbn [fst snd is_nil].
  monad_simpl. rewrite (bind_ok _ _ _ _ _ (created_resolved_entry _ _)).
  cbn [fst snd]. unfold add_mismatched_target. cbn [fst snd].
  destruct (decide (Some source = Some "null")) as [?|_]; [congruence|].
  unfold value_in. rewrite bool_decide_eq_false_2.
  2:{ intros Hin. apply list_elem_of_singleton in Hin. congruence. }
  cbn [is_nil]. monad_simpl.
  unfold handle_missing_target_addresses. unfold emit at 1. unfold bind at 1.
  rewrite (bind_ok _ _ _ _ _ (created_not_dangling _ Hdir)).
  cbn [is_nil]. unfold ret. rewrite <- !app_assoc. reflexivity.
Qed.

End OneCreation.

Lemma smart_mode_reports_derived_address_as_mismatched_witness :
  check_contracts Scenario.host0 Scenario.two_block_node
    (Scenario.seed_state_of None None Scenario.two_block_steps)
    Scenario.artifacts_abs None true []
  = (Raise (ClickException
              (mismatched_targets_message
                 [(Some "/project/contracts/Foo.sol", "0xaa0")])),
     [] ++ [MkAddress "AA" 0; Call (EthGetCode "0xaa0");
            MkAddress "AA" 0; Call (EthGetCode "0xaa0");
            Call (EthGetCode "0xaa0")]).
Proof.
  refine (proj2 (smart_mode_reports_derived_address_as_mismatched
                   Scenario.host0 Scenario.two_block_node Scenario.artifacts_abs
                   (Scenario.seed_state_of None None Scenario.two_block_steps) None
                   "AA" 0 "0x6080" "/project/contracts/Foo.sol"
                   (list_to_map [("mainSourceFile", Some "/project/contracts/Foo.sol");
                                 ("contractName", Some "Foo")])
                   _ _ _ _ _ _ _ _ [] _ _)).
  - reflexivity.
  - reflexivity.
  - repeat constructor; vm_compute; eauto.
  - vm_compute. reflexivity.
  - intros tr. reflexivity.
  - discriminate.
  - reflexivity.
  - vm_compute. reflexivity.
  - discriminate.
  - reflexivity.
Defined.

(** The same chain with the source recorded by a relative path: the run
    completes, and tells the user that the address it derived as under test
    was not marked as a target. *)
Example smart_mode_relative_source :
  check_contracts Scenario.host0 Scenario.two_block_node
    (Scenario.seed_state_of None None Scenario.two_block_steps)
    Scenario.artifacts_rel None true []
  = (Ok tt,
     [MkAddress "AA" 0; Call (EthGetCode "0xaa0");
      MkAddress "AA" 0; Call (EthGetCode "0xaa0");
      Call (EthGetCode "0xaa0");
      Secho (missing_targets_notice [("0xaa0", Some "contracts/Foo.sol", Some "Foo")]);
      Call (EthGetCode "0xaa0")]).
Proof. vm_compute. reflexivity. Qed.

(** * Further properties *)

(** ** Chain reader: order, failure and the empty chain *)

(** The trace of the requests for the blocks [l], in order. *)
Lemma fetch_blocks_answers (self : RPCClient) :
  forall (l : list Z) (acc blocks : list (option EVMBlock)) tr tr',
    for_each (fun blocks i => b <- get_block self false i ;; ret (blocks ++ [b])) l acc tr
    = (Ok blocks, tr') ->
    exists bs,
      blocks = acc ++ bs
      /\ length bs = length l
      /\ tr' = tr ++ map (fun i => Call (EthGetBlockByNumber (Py.hex i))) l
      /\ forall (k : nat) (i : Z),
           l !! k = Some i ->
           exists b,
             node self (tr ++ map (fun i => Call (EthGetBlockByNumber (Py.hex i)))
                                  (take k l))
               (EthGetBlockByNumber (Py.hex i)) = Some b
             /\ bs !! k = Some b.
Proof.
  induction l as [|i l IH]; intros acc blocks tr tr'; cbn [for_each].
  - intros [= <- <-]. exists []. rewrite !app_nil_r. repeat split; auto.
    intros k i Hk. by rewrite lookup_nil in Hk.
  - intros H. rewrite bind_assoc in H.
    apply bind_inv_ok in H as (b & tr1 & Hb & H). rewrite bind_ret in H.
    unfold get_block, call in Hb.
    destruct (node self tr (EthGetBlockByNumber (Py.hex i))) as [b'|] eqn:Hnode;
      [|discriminate].
    injection Hb as <- <-.
    change (reply (EthGetBlockByNumber (Py.hex i))) with (option EVMBlock) in *.
    apply IH in H as (bs & -> & Hlen & -> & Hans).
    exists (b' :: bs). rewrite <- !app_assoc. cbn [app map length].
    repeat split; auto.
    intros [|k] j Hk; cbn [take map lookup] in *.
    + injection Hk as <-. exists b'. rewrite app_nil_r. by split.
    + destruct (Hans k j Hk) as (b & Hb & Hbs). exists b.
      rewrite <- app_assoc in Hb. by split.
Qed.

Lemma take_seqZ (m n : Z) (i : nat) :
  Z.of_nat i <= n -> take i (seqZ m n) = seqZ m (Z.of_nat i).
Proof.
  intros Hi. replace n with (Z.of_nat i + (n - Z.of_nat i)) by lia.
  rewrite seqZ_app by lia. rewrite take_app_length'; [done|].
  rewrite length_seqZ. lia.
Qed.

(** The fetch loop on a node that answers each request when it comes. *)
Lemma fetch_blocks_ok_at (self : RPCClient) :
  forall (l : list Z) (acc : list (option EVMBlock)) tr,
    (forall (k : nat) (i : Z),
       l !! k = Some i ->
       node self (tr ++ map (fun i => Call (EthGetBlockByNumber (Py.hex i))) (take k l))
         (EthGetBlockByNumber (Py.hex i)) <> None) ->
    exists bs,
      for_each (fun blocks i => b <- get_block self false i ;; ret (blocks ++ [b])) l acc tr
      = (Ok (acc ++ bs), tr ++ map (fun i => Call (EthGetBlockByNumber (Py.hex i))) l).
Proof.
  induction l as [|i l IH]; intros acc tr Hnode; cbn [for_each].
  - exists []. by rewrite !app_nil_r.
  - destruct (node self tr (EthGetBlockByNumber (Py.hex i))) as [b|] eqn:Hb.
    2:{ exfalso. apply (Hnode 0%nat i eq_refl). cbn [take map]. by rewrite app_nil_r. }
    assert (Hstep : get_block self false i tr
                    = (Ok b, tr ++ [Call (EthGetBlockByNumber (Py.hex i))])).
    { unfold get_block, call. by rewrite Hb. }
    rewrite bind_assoc, (bind_ok _ _ _ _ _ Hstep), bind_ret.
    change (reply (EthGetBlockByNumber (Py.hex i))) with (option EVMBlock) in *.
    destruct (IH (acc ++ [b]) (tr ++ [Call (EthGetBlockByNumber (Py.hex i))]))
      as (bs & Hbs).
    { intros k j Hk. specialize (Hnode (S k) j Hk). cbn [take map] in Hnode.
      by rewrite <- app_assoc. }
    exists (b :: bs). rewrite Hbs, <- !app_assoc. reflexivity.
Qed.

(** X1: on a node that has no block yet, or whose latest block carries a
    negative number, [get_all_blocks] returns the empty list after the single
    request for the latest block. *)
Theorem get_all_blocks_of_empty_chain (self : RPCClient) (tr : list event) :
  (node self tr (EthGetBlockByNumber "latest") = Some None ->
   get_all_blocks self tr = (Ok [], tr ++ [Call (EthGetBlockByNumber "latest")]))
  /\ (forall b n k,
        node self tr (EthGetBlockByNumber "latest") = Some (Some b) ->
        number b = Some n -> Py.int16 n = Some k -> k < 0 ->
        get_all_blocks self tr = (Ok [], tr ++ [Call (EthGetBlockByNumber "latest")])).
Proof.
  split.
  - intros Hnode. unfold get_all_blocks. unfold bind at 1.
    rewrite get_latest_block_number_spec, Hnode. reflexivity.
  - intros b n k Hnode Hn Hk Hneg. unfold get_all_blocks. unfold bind at 1.
    rewrite get_latest_block_number_spec, Hnode, Hn. simpl. rewrite Hk. unfold ret at 1.
    destruct (k + 1 =? 0) eqn:E0; [reflexivity|].
    destruct (k + 1 >? NUM_BLOCKS_UPPER_LIMIT) eqn:E1.
    { rewrite Z.gtb_ltb in E1. apply Z.ltb_lt in E1. unfold NUM_BLOCKS_UPPER_LIMIT in E1. lia. }
    rewrite seqZ_nil by lia. reflexivity.
Qed.

Lemma get_all_blocks_of_empty_chain_witness :
  get_all_blocks Scenario.empty_node [] = (Ok [], [Call (EthGetBlockByNumber "latest")])
  /\ get_all_blocks Cases.negative_node []
     = (Ok [], [Call (EthGetBlockByNumber "latest")]).
Proof.
  split.
  - apply (proj1 (get_all_blocks_of_empty_chain Scenario.empty_node [])). reflexivity.
  - apply (proj2 (get_all_blocks_of_empty_chain Cases.negative_node [])
             (Scenario.block_numbered "-0x5" []) "-0x5" (-5));
      [reflexivity|reflexivity|reflexivity|lia].
Defined.

(** X2: on a node that answers, for a chain within the limit,
    [get_all_blocks] asks for the blocks 0, 1, ... up to the latest, in that
    order and once each, and the block at position [i] of the list it returns
    is the node's answer to the request for block [i]. *)
Theorem get_all_blocks_in_order (self : RPCClient) (tr : list event)
    (b : EVMBlock) (n : string) (k : Z) :
  (forall tr tag, node self tr (EthGetBlockByNumber tag) <> None) ->
  node self tr (EthGetBlockByNumber "latest") = Some (Some b) ->
  number b = Some n ->
  Py.int16 n = Some k ->
  0 <= k -> k + 1 <= NUM_BLOCKS_UPPER_LIMIT ->
  exists blocks,
    get_all_blocks self tr
    = (Ok blocks,
       tr ++ Call (EthGetBlockByNumber "latest")
          :: map (fun i => Call (EthGetBlockByNumber (Py.hex i))) (seqZ 0 (k + 1)))
    /\ length blocks = Z.to_nat (k + 1)
    /\ forall i : nat,
         Z.of_nat i < k + 1 ->
         exists answer,
           node self
             (tr ++ Call (EthGetBlockByNumber "latest")
                 :: map (fun i => Call (EthGetBlockByNumber (Py.hex i)))
                        (seqZ 0 (Z.of_nat i)))
             (EthGetBlockByNumber (Py.hex (Z.of_nat i))) = Some answer
           /\ blocks !! i = Some answer.
Proof.
  intros Hall Hnode Hn Hk H0 Hlim.
  destruct (get_all_blocks_within_limit self tr b n k Hall Hnode Hn Hk H0 Hlim)
    as (blocks & Hget & Hlen).
  exists blocks. split; [exact Hget|]. split; [exact Hlen|].
  unfold get_all_blocks in Hget. unfold bind at 1 in Hget.
  rewrite get_latest_block_number_spec, Hnode, Hn in Hget. simpl in Hget.
  rewrite Hk in Hget. unfold ret at 1 in Hget.
  destruct (k + 1 =? 0) eqn:E0; [apply Z.eqb_eq in E0; lia|].
  destruct (k + 1 >? NUM_BLOCKS_UPPER_LIMIT) eqn:E1.
  { rewrite Z.gtb_ltb in E1. apply Z.ltb_lt in E1. lia. }
  apply fetch_blocks_answers in Hget as (bs & -> & _ & _ & Hans).
  intros i Hi.
  destruct (Hans i (Z.of_nat i)) as (answer & Hanswer & Hbs).
  { rewrite lookup_seqZ. lia. }
  exists answer. rewrite take_seqZ in Hanswer by lia.
  rewrite <- app_assoc in Hanswer. by split.
Qed.

Lemma get_all_blocks_in_order_witness :
  exists blocks,
    get_all_blocks Scenario.two_block_node [] 
    = (Ok blocks,
       [] ++ Call (EthGetBlockByNumber "latest")
          :: map (fun i => Call (EthGetBlockByNumber (Py.hex i))) (seqZ 0 (1 + 1)))
    /\ length blocks = Z.to_nat (1 + 1).
Proof.
  destruct (get_all_blocks_in_order Scenario.two_block_node [] Scenario.block1 "0x1" 1)
    as (blocks & Hget & Hlen & _).
  - intros tr tag. simpl. discriminate.
  - reflexivity.
  - reflexivity.
  - reflexivity.
  - lia.
  - unfold NUM_BLOCKS_UPPER_LIMIT. lia.
  - exists blocks. by split.
Defined.

(** X3: when the transport fails on the request for block [i], after the
    node has answered for the blocks before it, [get_all_blocks] raises the
    [RPCCallError] of that request and asks for no later block. *)
Theorem get_all_blocks_stops_at_failure (self : RPCClient) (tr : list event)
    (b : EVMBlock) (n : string) (k i : Z) :
  node self tr (EthGetBlockByNumber "latest") = Some (Some b) ->
  number b = Some n ->
  Py.int16 n = Some k ->
  0 <= i <= k -> k + 1 <= NUM_BLOCKS_UPPER_LIMIT ->
  (forall j : nat,
     Z.of_nat j < i ->
     node self
       (tr ++ Call (EthGetBlockByNumber "latest")
           :: map (fun i => Call (EthGetBlockByNumber (Py.hex i))) (seqZ 0 (Z.of_nat j)))
       (EthGetBlockByNumber (Py.hex (Z.of_nat j))) <> None) ->
  node self
    (tr ++ Call (EthGetBlockByNumber "latest")
        :: map (fun i => Call (EthGetBlockByNumber (Py.hex i))) (seqZ 0 i))
    (EthGetBlockByNumber (Py.hex i)) = None ->
  get_all_blocks self tr
  = (Raise (RPCCallError (EthGetBlockByNumber (Py.hex i))),
     tr ++ Call (EthGetBlockByNumber "latest")
        :: map (fun i => Call (EthGetBlockByNumber (Py.hex i))) (seqZ 0 (i + 1))).
Proof.
  intros Hnode Hn Hk Hi Hlim Hbefore Hfail.
  unfold get_all_blocks. unfold bind at 1.
  rewrite get_latest_block_number_spec, Hnode, Hn. simpl. rewrite Hk. unfold ret at 1.
  destruct (k + 1 =? 0) eqn:E0; [apply Z.eqb_eq in E0; lia|].
  destruct (k + 1 >? NUM_BLOCKS_UPPER_LIMIT) eqn:E1.
  { rewrite Z.gtb_ltb in E1. apply Z.ltb_lt in E1. lia. }
  replace (k + 1) with (i + (1 + (k - i))) by lia.
  rewrite (seqZ_app 0 i) by lia. rewrite for_each_app.
  destruct (fetch_blocks_ok_at self (seqZ 0 i) []
              (tr ++ [Call (EthGetBlockByNumber "latest")])) as (bs & Hbs).
  { intros j x Hj. apply lookup_seqZ in Hj as [-> Hj].
    rewrite take_seqZ by lia. rewrite <- app_assoc. cbn [app]. apply Hbefore. lia. }
  rewrite (bind_ok _ _ _ _ _ Hbs).
  rewrite (seqZ_cons (0 + i)) by lia. cbn [for_each].
  rewrite bind_assoc. apply bind_raise.
  unfold get_block, call. rewrite <- app_assoc. cbn [app]. rewrite Z.add_0_l.
  rewrite Hfail. rewrite (seqZ_app 0 i 1) by lia.
  rewrite map_app, Z.add_0_l.
  rewrite (seqZ_cons i 1), (seqZ_nil _ (Z.pred 1)) by lia. cbn [map].
  by rewrite <- app_assoc.
Qed.

Lemma get_all_blocks_stops_at_failure_witness :
  get_all_blocks Cases.flaky_node []
  = (Raise (RPCCallError (EthGetBlockByNumber "0x1")),
     [Call (EthGetBlockByNumber "latest"); Call (EthGetBlockByNumber "0x0");
      Call (EthGetBlockByNumber "0x1")]).
Proof.
  apply (get_all_blocks_stops_at_failure Cases.flaky_node []
           (Scenario.block_numbered "0x2" []) "0x2" 2 1).
  - reflexivity.
  - reflexivity.
  - reflexivity.
  - lia.
  - unfold NUM_BLOCKS_UPPER_LIMIT. lia.
  - intros j Hj. assert (j = 0%nat) as -> by lia. simpl. discriminate.
  - reflexivity.
Defined.

(** ** Transaction collector: null blocks and null fields *)

(** A list of optional blocks either holds a [null] or is a list of
    blocks. *)
Lemma blocks_present_or_null {A : Type} (blocks : list (option A)) :
  (exists bs, blocks = Some <$> bs) \/ None ∈ blocks.
Proof.
  induction blocks as [|[b|] blocks IH].
  - left. by exists [].
  - destruct IH as [[bs ->]|Hin].
    + left. by exists (b :: bs).
    + right. by right.
  - right. by left.
Qed.

(** The loop of [get_transactions] on a list with a [null]: [TypeError],
    the trace as it was. *)
Lemma process_blocks_null (skip : list (option string))
    (blocks : list (option EVMBlock)) (acc : list (gmap string (option string))) tr :
  None ∈ blocks ->
  for_each
    (fun processed_transactions block =>
       match block with
       | None => raise TypeError
       | Some block =>
           if decide (number block ∈ skip) then ret processed_transactions
           else
             ret (foldl
                    (fun processed transaction =>
                       processed ++ [add_block_fields block (null_to_empty transaction)])
                    processed_transactions (transactions block))
       end)
    blocks acc tr
  = (Raise TypeError, tr).
Proof.
  revert acc. induction blocks as [|[b|] blocks IH]; intros acc Hin.
  - by apply elem_of_nil in Hin.
  - apply elem_of_cons in Hin as [?|Hin]; [discriminate|].
    cbn [for_each]. destruct (decide (number b ∈ skip)); rewrite bind_ret; by apply IH.
  - reflexivity.
Qed.

(** X4: a [null] among the blocks, at any position and even in a block to
    skip, makes [get_transactions] raise [TypeError]: no transaction is
    returned, not even those of the blocks before it. *)
Theorem get_transactions_null_block (self : RPCClient)
    (skip : list (option string)) (tr : list event) :
  (forall b bs,
     None ∈ b :: bs ->
     get_transactions self (Some (b :: bs)) skip tr = (Raise TypeError, tr))
  /\ (forall blocks fetched tr1,
        blocks = None \/ blocks = Some [] ->
        get_all_blocks self tr = (Ok fetched, tr1) ->
        None ∈ fetched ->
        get_transactions self blocks skip tr = (Raise TypeError, tr1)).
Proof.
  split.
  - intros b bs Hin. unfold get_transactions. rewrite bind_ret.
    by apply process_blocks_null.
  - intros blocks fetched tr1 Hblocks Hall Hin. unfold get_transactions.
    assert (Hsel : match blocks with
                   | Some (b :: bs0) => ret (b :: bs0)
                   | _ => get_all_blocks self
                   end = get_all_blocks self) by (by destruct Hblocks as [-> | ->]).
    rewrite Hsel, (bind_ok _ _ _ _ _ Hall). by apply process_blocks_null.
Qed.

Lemma get_transactions_null_block_witness :
  get_transactions Scenario.empty_node
    (Some [Some Scenario.block0; None]) [Some "0x0"] []
  = (Raise TypeError, []).
Proof.
  apply (proj1 (get_transactions_null_block Scenario.empty_node [Some "0x0"] [])).
  apply elem_of_cons. right. by left.
Defined.

(** What [get_transactions] returned, read back. *)
Lemma get_transactions_inv (self : RPCClient)
    (blocks : option (list (option EVMBlock))) (skip : list (option string))
    tr txs tr' :
  get_transactions self blocks skip tr = (Ok txs, tr') ->
  exists bs,
    txs = Spec.collected skip bs
    /\ match blocks with
       | Some (b :: l) => b :: l = Some <$> bs /\ tr' = tr
       | _ => get_all_blocks self tr = (Ok (Some <$> bs), tr')
       end.
Proof.
  unfold get_transactions. intros H.
  apply bind_inv_ok in H as (fetched & tr1 & Hsel & H).
  destruct (blocks_present_or_null fetched) as [[bs ->]|Hin].
  2:{ rewrite (process_blocks_null _ _ _ _ Hin) in H. discriminate. }
  rewrite process_blocks in H. injection H as <- <-. exists bs.
  split; [done|].
  destruct blocks as [[|b l]|]; [done| |done].
  injection Hsel as -> <-. by split.
Qed.

(** X5: every transaction that [get_transactions] returns carries the four
    block fields, and a field of it can only be [null] if it is one of those
    four. *)
Theorem returned_transactions_have_no_null_of_their_own (self : RPCClient)
    (blocks : option (list (option EVMBlock))) (skip : list (option string))
    (tr : list event) (txs : list (gmap string (option string))) (tr' : list event) :
  get_transactions self blocks skip tr = (Ok txs, tr') ->
  forall tx, tx ∈ txs ->
    (forall key, key ∈ ["blockCoinbase"; "blockDifficulty"; "blockGasLimit";
                        "blockTimestamp"] -> is_Some (tx !! key))
    /\ (forall key, tx !! key = Some None ->
                    key ∈ ["blockCoinbase"; "blockDifficulty"; "blockGasLimit";
                           "blockTimestamp"]).
Proof.
  intros H tx Htx. apply get_transactions_inv in H as (bs & -> & _).
  unfold Spec.collected in Htx. apply list_elem_of_In, in_concat in Htx as (l & Hl & Htx).
  apply list_elem_of_In in Htx. apply in_map_iff in Hl as (b & <- & _).
  destruct (decide (number b ∈ skip)); [by apply elem_of_nil in Htx|].
  apply list_elem_of_fmap in Htx as (tx0 & -> & _). split.
  - intros key Hkey. rewrite enriched_lookup.
    repeat (apply elem_of_cons in Hkey as [->|Hkey]; [repeat case_decide; eauto; done|]).
    by apply elem_of_nil in Hkey.
  - intros key Hnull. rewrite enriched_lookup in Hnull.
    repeat case_decide; subst.
    + by left.
    + right. by left.
    + do 2 right. by left.
    + do 3 right. by left.
    + destruct (tx0 !! key) as [[s|]|]; discriminate.
Qed.

Lemma returned_transactions_have_no_null_of_their_own_witness :
  get_transactions Scenario.two_block_node None [Some "0x0"] []
  = (Ok (Spec.collected [Some "0x0"] [Scenario.block0; Scenario.block1]),
     [Call (EthGetBlockByNumber "latest"); Call (EthGetBlockByNumber "0x0");
      Call (EthGetBlockByNumber "0x1")])
  /\ forall tx, tx ∈ Spec.collected [Some "0x0"] [Scenario.block0; Scenario.block1] ->
       forall key, tx !! key = Some None ->
                   key ∈ ["blockCoinbase"; "blockDifficulty"; "blockGasLimit";
                          "blockTimestamp"].
Proof.
  assert (H : get_transactions Scenario.two_block_node None [Some "0x0"] []
              = (Ok (Spec.collected [Some "0x0"] [Scenario.block0; Scenario.block1]),
                 [Call (EthGetBlockByNumber "latest"); Call (EthGetBlockByNumber "0x0");
                  Call (EthGetBlockByNumber "0x1")]))
    by (vm_compute; reflexivity).
  split; [exact H|]. intros tx Htx.
  exact (proj2 (returned_transactions_have_no_null_of_their_own _ _ _ _ _ _ H tx Htx)).
Defined.

(** ** Seed state builder: lessons, failures and the document *)

(** The loop that reads the block numbers of the transactions of a
    lesson: it raises [KeyError] at the first transaction without one. *)
Lemma block_numbers_loop (l : list (gmap string (option string)))
    (acc : list (option string)) tr :
  for_each (fun numbers b => n <- getitem b "blockNumber" ;; ret (numbers ++ [n])) l acc tr
  = match mapM (fun b : gmap string (option string) => b !! "blockNumber") l with
    | Some ns => (Ok (acc ++ ns), tr)
    | None => (Raise (KeyError "blockNumber"), tr)
    end.
Proof.
  revert acc. induction l as [|b l IH]; intros acc; cbn [for_each].
  - simpl. by rewrite app_nil_r.
  - rewrite bind_assoc. unfold getitem. cbn [mapM]. unfold mbind, option_bind.
    destruct (b !! "blockNumber") as [n|]; [|reflexivity].
    rewrite !bind_ret, IH. 
    destruct (mapM (fun b0 : gmap string (option string) => b0 !! "blockNumber") l);
      [|reflexivity].
    simpl. by rewrite <- app_assoc.
Qed.

(** The outcome of the loop over the lessons. *)
Lemma lessons_loop (ls : list Lesson)
    (acc acc' : gset (option string) * list (list (gmap string (option string))))
    tr tr' :
  for_each
    (fun (acc : gset (option string) * list (list (gmap string (option string)))) lesson =>
       _ <- emit (Secho (lesson_notice lesson)) ;;
       numbers <-
         for_each
           (fun numbers b => n <- getitem b "blockNumber" ;; ret (numbers ++ [n]))
           (concat (lesson_transactions lesson)) [] ;;
       ret (acc.1 ∪ list_to_set numbers, acc.2 ++ lesson_transactions lesson))
    ls acc tr
  = (Ok acc', tr') ->
  tr' = tr ++ map (fun lesson => Secho (lesson_notice lesson)) ls
  /\ acc'.2 = acc.2 ++ concat (map lesson_transactions ls)
  /\ (forall k, k ∈ acc'.1
                <-> k ∈ acc.1
                    \/ exists lesson seq t,
                         lesson ∈ ls /\ seq ∈ lesson_transactions lesson
                         /\ t ∈ seq /\ t !! "blockNumber" = Some k)
  /\ (forall lesson seq t,
        lesson ∈ ls -> seq ∈ lesson_transactions lesson -> t ∈ seq ->
        is_Some (t !! "blockNumber")).
Proof.
  revert acc tr. induction ls as [|lesson ls IH]; intros acc tr; cbn [for_each].
  - intros [= <- <-]. rewrite app_nil_r. simpl. rewrite app_nil_r.
    repeat split; auto.
    + intros [H|(lesson & seq & t & H & _)]; [done|]. by apply elem_of_nil in H.
    + intros lesson seq t H. by apply elem_of_nil in H.
  - intros H. apply bind_inv_ok in H as (acc1 & tr1 & Hstep & Hrest).
    unfold emit at 1 in Hstep. unfold bind at 1 in Hstep. unfold bind at 1 in Hstep.
    rewrite block_numbers_loop in Hstep.
    destruct (mapM (fun b : gmap string (option string) => b !! "blockNumber")
                (concat (lesson_transactions lesson))) as [ns|] eqn:Hns;
      [|discriminate].
    unfold ret in Hstep. injection Hstep as <- <-.
    apply IH in Hrest as (-> & Hseqs & Hnums & Hall). cbn [fst snd] in *.
    apply mapM_Some in Hns.
    assert (Hmention : forall k,
               k ∈ ([] ++ ns)
               <-> exists seq t, seq ∈ lesson_transactions lesson /\ t ∈ seq
                                 /\ t !! "blockNumber" = Some k).
    { intros k. rewrite app_nil_l. split.
      - intros Hk. apply list_elem_of_lookup in Hk as [i Hi].
        destruct (Forall2_lookup_r _ _ _ _ _ Hns Hi) as (t & Ht & Hnum).
        apply list_elem_of_lookup_2, list_elem_of_In, in_concat in Ht as (seq & Hseq & Ht).
        exists seq, t. by rewrite !list_elem_of_In.
      - intros (seq & t & Hseq & Ht & Hnum).
        assert (Hin : t ∈ concat (lesson_transactions lesson)).
        { apply list_elem_of_In, in_concat. exists seq. by rewrite <- !list_elem_of_In. }
        apply list_elem_of_lookup in Hin as [i Hi].
        destruct (Forall2_lookup_l _ _ _ _ _ Hns Hi) as (k' & Hk' & Hnum').
        rewrite Hnum in Hnum'. injection Hnum' as <-.
        by apply list_elem_of_lookup_2 in Hk'. }
    split; [by rewrite <- app_assoc|]. split.
    { rewrite Hseqs, <- app_assoc. reflexivity. }
    split.
    + intros k. rewrite Hnums, elem_of_union, elem_of_list_to_set, Hmention. split.
      * intros [[Hk|(seq & t & H1 & H2 & H3)]|(l0 & seq & t & H0 & H1)].
        -- by left.
        -- right. exists lesson, seq, t. split; [by left|done].
        -- right. exists l0, seq, t. split; [by right|done].
      * intros [Hk|(l0 & seq & t & H0 & H1 & H2 & H3)].
        -- by do 2 left.
        -- apply elem_of_cons in H0 as [->|H0].
           ++ left. right. by exists seq, t.
           ++ right. by exists l0, seq, t.
    + intros l0 seq t H0 H1 H2. apply elem_of_cons in H0 as [->|H0].
      * assert (Hin : t ∈ concat (lesson_transactions lesson)).
        { apply list_elem_of_In, in_concat. exists seq. by rewrite <- !list_elem_of_In. }
        apply list_elem_of_lookup in Hin as [i Hi].
        destruct (Forall2_lookup_l _ _ _ _ _ Hns Hi) as (k' & _ & Hnum'). eauto.
      * by apply (Hall l0 seq t).
Qed.

(** When the loop over the lessons raises, it is the [KeyError] of a
    transaction without a block number, and only notices were printed. *)
Lemma lessons_loop_raise (ls : list Lesson)
    (acc : gset (option string) * list (list (gmap string (option string))))
    tr e tr' :
  for_each
    (fun (acc : gset (option string) * list (list (gmap string (option string)))) lesson =>
       _ <- emit (Secho (lesson_notice lesson)) ;;
       numbers <-
         for_each
           (fun numbers b => n <- getitem b "blockNumber" ;; ret (numbers ++ [n]))
           (concat (lesson_transactions lesson)) [] ;;
       ret (acc.1 ∪ list_to_set numbers, acc.2 ++ lesson_transactions lesson))
    ls acc tr
  = (Raise e, tr') ->
  e = KeyError "blockNumber"
  /\ exists n, tr' = tr ++ map (fun lesson => Secho (lesson_notice lesson)) (take n ls).
Proof.
  revert acc tr. induction ls as [|lesson ls IH]; intros acc tr; cbn [for_each].
  - discriminate.
  - intros H. apply bind_inv_raise in H as [H|(acc1 & tr1 & Hstep & Hrest)].
    + unfold emit at 1 in H. unfold bind at 1 in H. unfold bind at 1 in H.
      rewrite block_numbers_loop in H.
      destruct (mapM _ _) as [ns|].
      * discriminate.
      * injection H as <- <-. split; [done|]. exists 1%nat. reflexivity.
    + unfold emit at 1 in Hstep. unfold bind at 1 in Hstep. unfold bind at 1 in Hstep.
      rewrite block_numbers_loop in Hstep.
      destruct (mapM _ _) as [ns|]; [|discriminate].
      unfold ret in Hstep. injection Hstep as <- <-.
      apply IH in Hrest as (-> & n & ->). split; [done|].
      exists (S n). cbn [take map]. by rewrite <- app_assoc.
Qed.

Lemma get_latest_block_number_raise (self : RPCClient) tr e tr' :
  get_latest_block_number self tr = (Raise e, tr') -> is_ClickException e = false.
Proof.
  rewrite get_latest_block_number_spec.
  destruct (node self tr (EthGetBlockByNumber "latest")) as [[b|]|];
    [|discriminate|by intros [= <- <-]].
  unfold int_base16. destruct (number b) as [n|]; [|by intros [= <- <-]].
  destruct (Py.int16 n); [discriminate|by intros [= <- <-]].
Qed.

Lemma quiet_get_block (self : RPCClient) (i : Z) : Spec.quiet (get_block self false i).
Proof.
  intros tr e tr'. unfold get_block, call.
  destruct (node self tr _); [discriminate|by intros [= <- <-]].
Qed.

(** [get_all_blocks] raises the scan-bound error, or something that is no
    [ClickException]. *)
Lemma get_all_blocks_raise (self : RPCClient) tr e tr' :
  get_all_blocks self tr = (Raise e, tr') ->
  e = ClickException (scan_bound_message self) \/ is_ClickException e = false.
Proof.
  unfold get_all_blocks. intros H.
  apply bind_inv_raise in H as [H|(n & tr1 & _ & H)].
  { right. by apply get_latest_block_number_raise in H. }
  cbv zeta in H. destruct (n + 1 =? 0); [discriminate|].
  destruct (n + 1 >? NUM_BLOCKS_UPPER_LIMIT).
  - injection H as <- <-. by left.
  - right. revert H. apply quiet_for_each. intros s x.
    apply quiet_bind; [apply quiet_get_block|]. intros b. apply quiet_ret.
Qed.

Lemma get_transactions_raise (self : RPCClient)
    (blocks : option (list (option EVMBlock))) (skip : list (option string))
    tr e tr' :
  get_transactions self blocks skip tr = (Raise e, tr') ->
  e = ClickException (scan_bound_message self) \/ is_ClickException e = false.
Proof.
  unfold get_transactions. intros H.
  apply bind_inv_raise in H as [H|(fetched & tr1 & _ & H)].
  - destruct blocks as [[|b l]|]; try discriminate; by apply get_all_blocks_raise in H.
  - right. destruct (blocks_present_or_null fetched) as [[bs ->]|Hin].
    + rewrite process_blocks in H. discriminate.
    + rewrite (process_blocks_null _ _ _ _ Hin) in H. by injection H as <- <-.
Qed.

(** X6: [get_seed_state] fails in three ways only, each with an error of
    the command line: the [UsageError] that no transactions were found, the
    [UsageError] that asks whether the contract address is right (which
    stands for every other failure: transport, malformed block, lesson
    without a block number), and the scan-bound [ClickException], passed on as
    it is. *)
Theorem get_seed_state_failures (host : Host) (self : RPCClient)
    (address : option string) (other_addresses : option (list string))
    (corpus_target : option string) (tr : list event) (e : exn) (tr' : list event) :
  get_seed_state host self address other_addresses corpus_target tr = (Raise e, tr') ->
  e = UsageError (no_transactions_message self address)
  \/ e = UsageError (wrong_address_message address)
  \/ e = ClickException (scan_bound_message self).
Proof.
  unfold get_seed_state, try_except.
  match goal with
  | |- (let (r, t) := ?m tr in _) = _ -> _ => destruct (m tr) as [[ss|e0] tr1] eqn:E
  end; [discriminate|].
  assert (Hcases : e0 = UsageError (no_transactions_message self address)
                   \/ e0 = ClickException (scan_bound_message self)
                   \/ is_ClickException e0 = false).
  { apply bind_inv_raise in E as [E|(acc & tr2 & _ & E)].
    { unfold collect_lessons in E. apply lessons_loop_raise in E as [-> _]. by do 2 right. }
    cbv zeta in E. apply bind_inv_raise in E as [E|(txs & tr3 & _ & E)].
    { apply get_transactions_raise in E as [->|E]; [right; by left|by do 2 right]. }
    destruct (length txs =? 0)%nat; [|discriminate].
    injection E as <- <-. by left. }
  destruct Hcases as [->|[->|Hq]].
  - intros [= <- <-]. by left.
  - intros [= <- <-]. by do 2 right.
  - rewrite Hq. intros [= <- <-]. right. by left.
Qed.

Lemma get_seed_state_failures_witness :
  UsageError "Unable to generate the seed state for address 0xaa0. Are you sure you passed the correct contract address?"
  = UsageError (no_transactions_message Cases.flaky_node (Some "0xaa0"))
  \/ UsageError "Unable to generate the seed state for address 0xaa0. Are you sure you passed the correct contract address?"
     = UsageError (wrong_address_message (Some "0xaa0"))
  \/ UsageError "Unable to generate the seed state for address 0xaa0. Are you sure you passed the correct contract address?"
     = ClickException (scan_bound_message Cases.flaky_node).
Proof.
  apply (get_seed_state_failures Scenario.host0 Cases.flaky_node (Some "0xaa0") None None
           [] _
           [Call (EthGetBlockByNumber "latest"); Call (EthGetBlockByNumber "0x0");
            Call (EthGetBlockByNumber "0x1")]).
  vm_compute. reflexivity.
Defined.

(** X7: on a chain above the limit, [get_seed_state] raises the scan-bound
    [ClickException] of [get_all_blocks] unchanged, after the notices of the
    lessons and the one request for the latest block. *)
Theorem get_seed_state_scan_bound (host : Host) (self : RPCClient)
    (address : option string) (other_addresses : option (list string))
    (corpus_target : option string) (tr : list event)
    (acc : gset (option string) * list (list (gmap string (option string))))
    (tr1 : list event) (b : EVMBlock) (n : string) (k : Z) :
  collect_lessons host tr = (Ok acc, tr1) ->
  node self tr1 (EthGetBlockByNumber "latest") = Some (Some b) ->
  number b = Some n ->
  Py.int16 n = Some k ->
  NUM_BLOCKS_UPPER_LIMIT < k + 1 ->
  get_seed_state host self address other_addresses corpus_target tr
  = (Raise (ClickException (scan_bound_message self)),
     tr1 ++ [Call (EthGetBlockByNumber "latest")]).
Proof.
  intros Hlessons Hnode Hn Hk Hlim.
  unfold get_seed_state, try_except. rewrite (bind_ok _ _ _ _ _ Hlessons). cbv zeta.
  assert (Htx : get_transactions self None (elements acc.1) tr1
                = (Raise (ClickException (scan_bound_message self)),
                   tr1 ++ [Call (EthGetBlockByNumber "latest")])).
  { unfold get_transactions. apply bind_raise.
    apply (get_all_blocks_over_limit self tr1 b n Hnode Hn). by exists k. }
  rewrite (bind_raise _ _ _ _ _ Htx). reflexivity.
Qed.

Lemma get_seed_state_scan_bound_witness :
  get_seed_state Scenario.host0 Scenario.node_10000 (Some "0xaa0") None None []
  = (Raise (ClickException (scan_bound_message Scenario.node_10000)),
     [] ++ [Call (EthGetBlockByNumber "latest")]).
Proof.
  apply (get_seed_state_scan_bound Scenario.host0 Scenario.node_10000 (Some "0xaa0")
           None None [] (∅, []) [] (Scenario.block_numbered "0x270f" []) "0x270f" 9999);
    [reflexivity|reflexivity|reflexivity|reflexivity|].
  unfold NUM_BLOCKS_UPPER_LIMIT. lia.
Defined.

(** X8: the document that [get_seed_state] returns carries the address, the
    other addresses and the number of cores as given; it has a target only
    for a non-empty corpus target, and suggested seed sequences (those of the
    lessons, in order) only when the lessons have any.  Its steps are the
    transactions of all the blocks of the chain, fetched after the notices of
    the lessons, except the blocks whose number a transaction of a lesson
    names. *)
Theorem get_seed_state_document (host : Host) (self : RPCClient)
    (address : option string) (other_addresses : option (list string))
    (corpus_target : option string) (tr : list event)
    (seed_state : SeedState) (tr' : list event) :
  get_seed_state host self address other_addresses corpus_target tr
  = (Ok seed_state, tr') ->
  let setup := analysis_setup seed_state in
  address_under_test setup = address
  /\ other_addresses_under_test setup = other_addresses
  /\ num_cores seed_state = number_of_cores self
  /\ assertion_checking_mode seed_state = 1
  /\ discovery_probability_threshold seed_state = 0%Q
  /\ target setup = (if Py.truthy corpus_target then corpus_target else None)
  /\ suggested_seed_seqs setup
     = match concat (map lesson_transactions (get_lessons host)) with
       | [] => None
       | s :: l => Some (s :: l)
       end
  /\ exists skip blocks,
       (forall k, k ∈ skip
                  <-> exists lesson seq t,
                        lesson ∈ get_lessons host /\ seq ∈ lesson_transactions lesson
                        /\ t ∈ seq /\ t !! "blockNumber" = Some k)
       /\ get_all_blocks self
            (tr ++ map (fun lesson => Secho (lesson_notice lesson)) (get_lessons host))
          = (Ok (Some <$> blocks), tr')
       /\ steps setup = Spec.collected skip blocks.
Proof.
  unfold get_seed_state, try_except.
  match goal with
  | |- (let (r, t) := ?m tr in _) = _ -> _ => destruct (m tr) as [[ss|e0] tr1] eqn:E
  end.
  2:{ destruct (is_ClickException e0); discriminate. }
  intros [= -> ->].
  apply bind_inv_ok in E as (acc & tr2 & Hlessons & E). cbv zeta in E.
  apply bind_inv_ok in E as (txs & tr3 & Htxs & E).
  destruct (length txs =? 0)%nat; [discriminate|].
  injection E as <- <-. cbn [analysis_setup address_under_test other_addresses_under_test
                              num_cores assertion_checking_mode
                              discovery_probability_threshold target suggested_seed_seqs
                              steps].
  unfold collect_lessons in Hlessons.
  apply lessons_loop in Hlessons as (-> & Hseqs & Hnums & _). cbn [fst snd] in *.
  rewrite app_nil_l in Hseqs.
  repeat (split; [reflexivity|]). split.
  { rewrite Hseqs. by destruct (concat _). }
  apply get_transactions_inv in Htxs as (bs & -> & Hall).
  exists (elements acc.1), bs. split; [|by split].
  intros k. rewrite elem_of_elements, Hnums. split.
  - intros [Hk|Hk]; [by apply not_elem_of_empty in Hk|done].
  - intros Hk. by right.
Qed.

Lemma get_seed_state_document_witness :
  get_seed_state Cases.host_with_lesson Scenario.two_block_node (Some "0xaa0") None
    (Some EmptyString) []
  = (Ok Cases.lesson_seed_state,
     [Secho (lesson_notice {| description := "deploy"; lesson_transactions := [] |});
      Call (EthGetBlockByNumber "latest"); Call (EthGetBlockByNumber "0x0");
      Call (EthGetBlockByNumber "0x1")])
  /\ address_under_test (analysis_setup Cases.lesson_seed_state) = Some "0xaa0".
Proof.
  assert (H : get_seed_state Cases.host_with_lesson Scenario.two_block_node
                (Some "0xaa0") None (Some EmptyString) []
              = (Ok Cases.lesson_seed_state,
                 [Secho (lesson_notice {| description := "deploy"; lesson_transactions := [] |});
                  Call (EthGetBlockByNumber "latest"); Call (EthGetBlockByNumber "0x0");
                  Call (EthGetBlockByNumber "0x1")])) by (vm_compute; reflexivity).
  split; [exact H|].
  exact (proj1 (get_seed_state_document _ _ _ _ _ _ _ _ H)).
Defined.

(** X9: when a transaction of a lesson names no block, [get_seed_state]
    raises the [UsageError] that asks whether the contract address is right,
    and sends no request to the node: only notices of lessons were printed. *)
Theorem get_seed_state_lesson_without_block (host : Host) (self : RPCClient)
    (address : option string) (other_addresses : option (list string))
    (corpus_target : option string) (tr : list event)
    (lesson : Lesson) (seq : list (gmap string (option string)))
    (t : gmap string (option string)) :
  lesson ∈ get_lessons host ->
  seq ∈ lesson_transactions lesson ->
  t ∈ seq ->
  t !! "blockNumber" = None ->
  exists n,
    get_seed_state host self address other_addresses corpus_target tr
    = (Raise (UsageError (wrong_address_message address)),
       tr ++ map (fun lesson => Secho (lesson_notice lesson)) (take n (get_lessons host))).
Proof.
  intros Hlesson Hseq Ht Hnone.
  destruct (collect_lessons host tr) as [[acc|e] tr1] eqn:E.
  - unfold collect_lessons in E. apply lessons_loop in E as (_ & _ & _ & Hall).
    destruct (Hall lesson seq t Hlesson Hseq Ht) as [k Hk]. congruence.
  - pose proof E as E'. unfold collect_lessons in E'.
    apply lessons_loop_raise in E' as (-> & n & ->). exists n.
    unfold get_seed_state, try_except. by rewrite (bind_raise _ _ _ _ _ E).
Qed.

Lemma get_seed_state_lesson_without_block_witness :
  exists n,
    get_seed_state Cases.host_with_bad_lesson Scenario.two_block_node (Some "0xaa0")
      None None []
    = (Raise (UsageError (wrong_address_message (Some "0xaa0"))),
       [] ++ map (fun lesson => Secho (lesson_notice lesson))
               (take n (get_lessons Cases.host_with_bad_lesson))).
Proof.
  apply (get_seed_state_lesson_without_block Cases.host_with_bad_lesson
           Scenario.two_block_node (Some "0xaa0") None None []
           {| description := "deploy";
              lesson_transactions := [[ list_to_map [("input", Some "0x6080")] ]] |}
           [ list_to_map [("input", Some "0x6080")] ]
           (list_to_map [("input", Some "0x6080")])).
  - by left.
  - by left.
  - by left.
  - vm_compute. reflexivity.
Defined.

(** ** Reconciliation: resolving contracts, smart mode, inconsistent addresses *)

(** [get_contract_by_address], computed from the answer of the node. *)
Lemma get_contract_by_address_spec (self : RPCClient) (contract_address : string)
    (artifacts : IDEArtifacts) (tr : list event) :
  get_contract_by_address self contract_address artifacts tr
  = match node self tr (EthGetCode contract_address) with
    | None => (Raise (RPCCallError (EthGetCode contract_address)),
               tr ++ [Call (EthGetCode contract_address)])
    | Some reported =>
        (Ok match reported with
            | Some code =>
                if decide (code = "0x") then None
                else match get_contract artifacts code with
                     | Some c =>
                         if decide (c = ∅) then None
                         else match c !! "mainSourceFile" with
                              | Some (Some _) => Some c
                              | _ => None
                              end
                     | None => None
                     end
            | None => None
            end,
         tr ++ [Call (EthGetCode contract_address)])
    end.
Proof.
  unfold get_contract_by_address.
  destruct (node self tr (EthGetCode contract_address)) as [reported|] eqn:Hnode.
  2:{ apply bind_raise. unfold get_code, call, bind. by rewrite Hnode. }
  rewrite (bind_ok _ _ _ _ _ (get_code_spec _ _ _ _ Hnode)).
  destruct reported as [code|].
  2:{ by rewrite decide_False by discriminate. }
  destruct (decide (code = "0x")) as [->|Hcode].
  { by rewrite decide_True. }
  rewrite decide_False by congruence.
  destruct (get_contract artifacts code) as [c|]; [|reflexivity].
  destruct (decide (c = ∅)); [reflexivity|].
  unfold dict_get. by destruct (c !! "mainSourceFile") as [[?|]|].
Qed.

Lemma get_contract_by_address_trace (self : RPCClient) (contract_address : string)
    (artifacts : IDEArtifacts) tr r tr' :
  get_contract_by_address self contract_address artifacts tr = (r, tr') ->
  tr' = tr ++ [Call (EthGetCode contract_address)].
Proof.
  rewrite get_contract_by_address_spec.
  destruct (node self tr (EthGetCode contract_address)); by intros [= <- <-].
Qed.

(** X10: [get_contract_by_address] sends exactly one [eth_getCode] request,
    whatever comes of it.  It raises only when the transport fails, and then
    the [RPCCallError] of that request.  It returns no contract when the node
    reports no code; and a contract it returns is one the resolver gave for
    the code the node reported, it is not the sentinel code, and it names a
    main source file. *)
Theorem get_contract_by_address_outcomes (self : RPCClient) (contract_address : string)
    (artifacts : IDEArtifacts) (tr : list event) :
  (forall r tr',
     get_contract_by_address self contract_address artifacts tr = (r, tr') ->
     tr' = tr ++ [Call (EthGetCode contract_address)])
  /\ (forall e tr',
        get_contract_by_address self contract_address artifacts tr = (Raise e, tr') ->
        e = RPCCallError (EthGetCode contract_address)
        /\ node self tr (EthGetCode contract_address) = None)
  /\ (node self tr (EthGetCode contract_address) = Some None
      \/ node self tr (EthGetCode contract_address) = Some (Some "0x") ->
      get_contract_by_address self contract_address artifacts tr
      = (Ok None, tr ++ [Call (EthGetCode contract_address)]))
  /\ (forall c tr',
        get_contract_by_address self contract_address artifacts tr = (Ok (Some c), tr') ->
        exists code source,
          node self tr (EthGetCode contract_address) = Some (Some code)
          /\ code <> "0x"
          /\ get_contract artifacts code = Some c
          /\ c !! "mainSourceFile" = Some (Some source)).
Proof.
  pose proof (get_contract_by_address_spec self contract_address artifacts tr) as Hspec.
  destruct (node self tr (EthGetCode contract_address)) as [reported|] eqn:Hnode.
  2:{ split; [|split; [|split]].
      - intros r tr'. rewrite Hspec. by intros [= <- <-].
      - intros e tr'. rewrite Hspec. by intros [= <- <-].
      - intros [?|?]; discriminate.
      - intros c tr'. rewrite Hspec. discriminate. }
  split; [|split; [|split]].
  - intros r tr'. rewrite Hspec. by intros [= <- <-].
  - intros e tr'. rewrite Hspec. discriminate.
  - intros [H|H]; injection H as ->; rewrite Hspec; reflexivity.
  - intros c tr'. rewrite Hspec. intros [= Hc <-].
    destruct reported as [code|]; [|discriminate].
    destruct (decide (code = "0x")) as [?|Hcode]; [discriminate|].
    destruct (get_contract artifacts code) as [c'|] eqn:Hget; [|discriminate].
    destruct (decide (c' = ∅)); [discriminate|].
    destruct (c' !! "mainSourceFile") as [[source|]|] eqn:Hsrc; try discriminate.
    injection Hc as <-. by exists code, source.
Qed.

Lemma get_contract_by_address_outcomes_witness :
  get_contract_by_address Scenario.codeless_node "0xabc" Scenario.artifacts_abs []
  = (Ok None, [] ++ [Call (EthGetCode "0xabc")]).
Proof.
  apply (proj1 (proj2 (proj2 (get_contract_by_address_outcomes
                                Scenario.codeless_node "0xabc" Scenario.artifacts_abs [])))).
  right. reflexivity.
Defined.

(** One step of the derivation never raises a [ClickException]. *)
Lemma quiet_add_created_contract (host : Host) (contracts : gset string)
    (txn : gmap string (option string)) :
  Spec.quiet (add_created_contract host contracts txn).
Proof.
  unfold add_created_contract. apply quiet_bind; [apply quiet_getitem|]. intros to.
  destruct (Py.truthy to); [apply quiet_ret|].
  apply quiet_bind; [apply quiet_getitem|]. intros from.
  apply quiet_bind; [destruct from; [apply quiet_ret|by apply quiet_raise]|]. intros sender.
  apply quiet_bind; [apply quiet_getitem|]. intros nonce.
  apply quiet_bind.
  { unfold int_base16. destruct nonce as [s|]; [|by apply quiet_raise].
    destruct (Py.int16 s); [apply quiet_ret|by apply quiet_raise]. }
  intros n. apply quiet_bind; [|intros; apply quiet_ret].
  intros tr e tr'. discriminate.
Qed.

Lemma quiet_get_all_deployed (host : Host) (seed_state : SeedState) :
  Spec.quiet (get_all_deployed_contracts_addresses host seed_state).
Proof.
  unfold get_all_deployed_contracts_addresses. apply quiet_for_each.
  intros s x. apply quiet_add_created_contract.
Qed.

(** X11: [smart_mode_setup] raises its [ClickException] exactly when smart
    mode is off and the addresses under test or the source targets are
    missing; it does so before any request or derivation, and raises no other
    [ClickException]. *)
Theorem smart_mode_guard (host : Host) (self : RPCClient) (smart_mode : bool)
    (seed_state : SeedState) (source_targets : option (list string))
    (artifacts : IDEArtifacts) (tr : list event) :
  (smart_mode = false ->
   addresses_under_test seed_state = ∅ \/ nonempty source_targets = false ->
   smart_mode_setup host self smart_mode seed_state source_targets artifacts tr
   = (Raise (ClickException no_targets_message), tr))
  /\ (forall e tr',
        smart_mode_setup host self smart_mode seed_state source_targets artifacts tr
        = (Raise e, tr') ->
        is_ClickException e = true ->
        e = ClickException no_targets_message /\ tr' = tr
        /\ smart_mode = false
        /\ (addresses_under_test seed_state = ∅ \/ nonempty source_targets = false)).
Proof.
  unfold smart_mode_setup. split.
  - intros -> Hmissing. cbn [andb negb]. rewrite bind_ret.
    destruct Hmissing as [->| ->].
    + by rewrite bool_decide_eq_true_2.
    + by rewrite orb_true_r.
  - intros e tr' H Hclick.
    destruct smart_mode.
    + exfalso. cbn [negb andb] in H.
      apply bind_inv_raise in H as [H|(u & tr1 & _ & H)].
      { destruct (_ && _); discriminate. }
      apply bind_inv_raise in H as [H|(addrs & tr2 & _ & H)].
      { destruct (bool_decide _); [|discriminate].
        apply quiet_get_all_deployed in H. congruence. }
      apply bind_inv_raise in H as [H|(tgts & tr3 & _ & H)]; [|discriminate].
      destruct (nonempty source_targets); [discriminate|].
      revert H. intros H. assert (is_ClickException e = false); [|congruence].
      revert H. apply quiet_for_each. intros s a.
      apply quiet_bind; [apply quiet_get_contract_by_address|].
      intros [c|]; [|apply quiet_ret].
      apply quiet_bind; [apply quiet_main_source_file|]. intros; apply quiet_ret.
    + cbn [negb andb] in H. rewrite bind_ret in H.
      destruct (bool_decide (addresses_under_test seed_state = ∅)) eqn:Ha.
      * injection H as <- <-. apply bool_decide_eq_true_1 in Ha. repeat split; auto.
      * destruct (nonempty source_targets) eqn:Ht.
        -- exfalso. cbn [negb orb] in H.
           apply bind_inv_raise in H as [H|(addrs & tr2 & _ & H)]; [discriminate|].
           apply bind_inv_raise in H as [H|(tgts & tr3 & _ & H)]; discriminate.
        -- injection H as <- <-. repeat split; auto.
Qed.

Lemma smart_mode_guard_witness :
  smart_mode_setup Scenario.host0 Scenario.two_block_node false
    Scenario.seed_with_unknown None Scenario.artifacts_rel []
  = (Raise (ClickException no_targets_message), []).
Proof.
  apply (proj1 (smart_mode_guard Scenario.host0 Scenario.two_block_node false
                  Scenario.seed_with_unknown None Scenario.artifacts_rel []));
    [reflexivity|right; reflexivity].
Defined.

(** X12: when the user gives both addresses and source targets,
    [smart_mode_setup] returns them as they are, the addresses in lower case
    and both without duplicates, and derives nothing: no request is sent, and
    only with smart mode on a warning is printed. *)
Theorem smart_mode_keeps_explicit_input (host : Host) (self : RPCClient)
    (smart_mode : bool) (seed_state : SeedState) (targets : list string)
    (artifacts : IDEArtifacts) (tr : list event) :
  addresses_under_test seed_state <> ∅ ->
  targets <> [] ->
  exists addresses processed_targets,
    smart_mode_setup host self smart_mode seed_state (Some targets) artifacts tr
    = (Ok (addresses, processed_targets),
       tr ++ (if smart_mode then [Secho smart_mode_warning] else []))
    /\ NoDup addresses
    /\ (forall a, a ∈ addresses
                  <-> exists d, d ∈ Spec.declared seed_state /\ a = Py.lower d)
    /\ NoDup processed_targets
    /\ (forall t, t ∈ processed_targets <-> t ∈ targets).
Proof.
  intros Haddr Htargets.
  exists (elements (addresses_under_test seed_state)),
         (elements (list_to_set targets : gset string)).
  split.
  - unfold smart_mode_setup.
    assert (Hne : nonempty (Some targets) = true) by (by destruct targets).
    rewrite Hne. rewrite bool_decide_eq_false_2 by done. cbn [negb andb orb].
    rewrite andb_false_r. cbn [default].
    destruct smart_mode; cbn [andb].
    + unfold emit at 1. unfold bind at 1. rewrite !bind_ret. reflexivity.
    + rewrite !bind_ret. unfold ret. by rewrite app_nil_r.
  - split; [apply NoDup_elements|]. split.
    { intros a. by rewrite elem_of_elements, addresses_under_test_spec. }
    split; [apply NoDup_elements|].
    intros t. by rewrite elem_of_elements, elem_of_list_to_set.
Qed.

Lemma smart_mode_keeps_explicit_input_witness :
  exists addresses processed_targets,
    smart_mode_setup Scenario.host0 Scenario.codeless_node true
      Scenario.seed_with_unknown (Some ["contracts/Foo.sol"]) Scenario.artifacts_rel []
    = (Ok (addresses, processed_targets), [] ++ [Secho smart_mode_warning])
    /\ NoDup addresses.
Proof.
  destruct (smart_mode_keeps_explicit_input Scenario.host0 Scenario.codeless_node true
              Scenario.seed_with_unknown ["contracts/Foo.sol"] Scenario.artifacts_rel [])
    as (addresses & targets & H & Hnd & _).
  - intros Hempty.
    assert (Hin : "0xbeef" ∈ addresses_under_test Scenario.seed_with_unknown).
    { apply addresses_under_test_spec. exists "0xBEEF". split; [|reflexivity].
      change (Spec.declared Scenario.seed_with_unknown) with ["0xAA0"; "0xBEEF"].
      apply elem_of_cons. right. by left. }
    rewrite Hempty in Hin. by apply not_elem_of_empty in Hin.
  - discriminate.
  - exists addresses, targets. split; [exact H|exact Hnd].
Defined.

Lemma dict_setitem_fresh {V : Type} (key : string) (v : V) (d : list (string * V)) :
  key ∉ d.*1 -> dict_setitem key v d = d ++ [(key, v)].
Proof.
  induction d as [|[k w] d IH]; intros Hfresh; simpl; [done|].
  rewrite fmap_cons, not_elem_of_cons in Hfresh. destruct Hfresh as [Hne Hfresh].
  cbn [fst] in Hne. rewrite decide_False by congruence. by rewrite IH.
Qed.

Lemma unknown_loop_filter (deployed : gset string) (l acc : list string) :
  foldl (add_unknown_target deployed) acc l = acc ++ filter (fun t => t ∉ deployed) l.
Proof.
  revert acc. induction l as [|t l IH]; intros acc; simpl.
  - by rewrite app_nil_r.
  - rewrite IH. unfold add_unknown_target.
    destruct (decide (t ∈ deployed)) as [Hin|Hin].
    + by rewrite filter_cons_False by (intros H; by apply H).
    + rewrite filter_cons_True by done. by rewrite <- app_assoc.
Qed.

(** The loop over the deployed addresses: the missing targets are the
    addresses that are not declared, in order, each with the code that the one
    request for it returned. *)
Lemma missing_loop (self : RPCClient) (targets : gset string) (l : list string) :
  forall (acc missing : list (string * option string)) tr tr',
    NoDup l ->
    (forall a, a ∈ l -> a ∉ acc.*1) ->
    for_each (add_missing_target self targets) l acc tr = (Ok missing, tr') ->
    exists new,
      missing = acc ++ new
      /\ new.*1 = filter (fun a => a ∉ targets) l
      /\ tr' = tr ++ map (fun a => Call (EthGetCode a)) new.*1
      /\ Forall (fun p => p.2 <> Some "0x") new.
Proof.
  induction l as [|a l IH]; intros acc missing tr tr' Hnd Hfresh; cbn [for_each].
  - intros [= <- <-]. exists []. rewrite !app_nil_r. by repeat split.
  - apply NoDup_cons in Hnd as [Ha Hnd]. intros H.
    apply bind_inv_ok in H as (acc1 & tr1 & Hstep & Hrest).
    unfold add_missing_target in Hstep.
    destruct (decide (a ∈ targets)) as [Hin|Hin].
    + injection Hstep as <- <-.
      apply IH in Hrest as (new & -> & Hkeys & -> & Hcodes); [|done|].
      2:{ intros b Hb. apply Hfresh. by right. }
      exists new. rewrite filter_cons_False by (intros H; by apply H). by repeat split.
    + apply bind_inv_ok in Hstep as (code & tr0 & Hcode & Hret).
      injection Hret as <- <-.
      rewrite dict_setitem_fresh in Hrest by (apply Hfresh; by left).
      pose proof (get_code_never_sentinel _ _ _ _ _ Hcode) as Hsent.
      assert (Htr : tr0 = tr ++ [Call (EthGetCode a)]).
      { unfold get_code, bind, call in Hcode.
        destruct (node self tr (EthGetCode a)); [|discriminate].
        case_decide; by injection Hcode as _ <-. }
      subst tr0.
      apply IH in Hrest as (new & -> & Hkeys & -> & Hcodes); [|done|].
      2:{ intros b Hb. rewrite fmap_app, elem_of_app. intros [Hacc|Hnew].
          - by apply (Hfresh b); [right|].
          - apply list_elem_of_singleton in Hnew. cbn [fst] in Hnew. by subst b. }
      exists ((a, code) :: new). rewrite <- !app_assoc. cbn [app fmap list_fmap fst map].
      rewrite filter_cons_True by done. rewrite Hkeys.
      repeat split; auto.
Qed.

(** X13: the two lists of [get_inconsistent_addresses] have no duplicates
    and no address in common.  The codes were asked for the missing targets
    only, one request each, in the order of the list; and the code recorded
    for a missing target is never the sentinel ["0x"]. *)
Theorem inconsistent_addresses_are_disjoint (host : Host) (self : RPCClient)
    (seed_state : SeedState) (tr : list event)
    (missing : list (string * option string)) (unknown : list string)
    (tr' : list event) :
  get_inconsistent_addresses host self seed_state tr = (Ok (missing, unknown), tr') ->
  exists deployed tr1,
    get_all_deployed_contracts_addresses host seed_state tr = (Ok deployed, tr1)
    /\ NoDup unknown
    /\ NoDup missing.*1
    /\ (forall x, x ∈ unknown -> ~ (x ∈ missing.*1))
    /\ tr' = tr1 ++ map (fun a => Call (EthGetCode a)) missing.*1
    /\ (forall a code, (a, code) ∈ missing -> code <> Some "0x").
Proof.
  intros H.
  destruct (inconsistent_addresses_spec _ _ _ _ _ _ _ H)
    as (deployed & tr1 & Hdep & Hunk & Hmis).
  apply get_inconsistent_addresses_inv in H as (deployed' & tr1' & Hdep' & -> & Hloop).
  rewrite Hdep in Hdep'. injection Hdep' as <- <-.
  exists deployed, tr1. split; [done|].
  apply missing_loop in Hloop as (new & -> & Hkeys & -> & Hcodes);
    [|apply NoDup_elements|intros a _; apply not_elem_of_nil].
  rewrite app_nil_l in *. split.
  { rewrite unknown_loop_filter, app_nil_l. apply NoDup_filter, NoDup_elements. }
  split.
  { rewrite Hkeys. apply NoDup_filter, NoDup_elements. }
  split.
  { intros x Hx Hm. apply Hunk in Hx as [_ Hx]. apply Hmis in Hm as [Hm _]. done. }
  split; [done|].
  intros a code Hin. rewrite Forall_forall in Hcodes. by apply (Hcodes (a, code)).
Qed.

Lemma inconsistent_addresses_are_disjoint_witness :
  get_inconsistent_addresses Scenario.host0 Scenario.two_block_node
    (Scenario.seed_state_of (Some "0xBEEF") None Scenario.two_block_steps) []
  = (Ok ([("0xaa0", Some "0x6080")], ["0xbeef"]),
     [MkAddress "AA" 0; Call (EthGetCode "0xaa0")])
  /\ NoDup ["0xbeef"].
Proof.
  assert (H : get_inconsistent_addresses Scenario.host0 Scenario.two_block_node
                (Scenario.seed_state_of (Some "0xBEEF") None Scenario.two_block_steps) []
              = (Ok ([("0xaa0", Some "0x6080")], ["0xbeef"]),
                 [MkAddress "AA" 0; Call (EthGetCode "0xaa0")]))
    by (vm_compute; reflexivity).
  split; [exact H|].
  destruct (inconsistent_addresses_are_disjoint _ _ _ _ _ _ _ H)
    as (deployed & tr1 & _ & Hnd & _).
  exact Hnd.
Defined.

(** The loop of [smart_mode_setup] over the addresses: one request each,
    and every target it adds is the main source file of a contract of the
    resolver. *)
Lemma derive_targets_loop (self : RPCClient) (artifacts : IDEArtifacts)
    (l : list string) :
  forall (targets0 targets : gset string) tr tr',
    for_each
      (fun (targets : gset string) contract_address =>
         contract <- get_contract_by_address self contract_address artifacts ;;
         match contract with
         | Some contract =>
             source <- main_source_file contract ;;
             ret (targets ∪ {[ source ]})
         | None => ret targets
         end)
      l targets0 tr
    = (Ok targets, tr') ->
    tr' = tr ++ map (fun a => Call (EthGetCode a)) l
    /\ forall t, t ∈ targets ->
         t ∈ targets0
         \/ exists code c, get_contract artifacts code = Some c
                           /\ c !! "mainSourceFile" = Some (Some t).
Proof.
  induction l as [|a l IH]; intros targets0 targets tr tr'; cbn [for_each].
  - intros [= <- <-]. rewrite app_nil_r. split; [done|]. intros t Ht. by left.
  - intros H. apply bind_inv_ok in H as (T1 & tr1 & Hstep & Hrest).
    apply bind_inv_ok in Hstep as (contract & tr0 & Hget & Hstep).
    pose proof (get_contract_by_address_trace _ _ _ _ _ _ Hget) as ->.
    destruct contract as [c|].
    + apply get_contract_by_address_some in Hget as (code & s & Hc & Hs).
      unfold main_source_file, getitem in Hstep. rewrite Hs in Hstep.
      unfold bind, ret in Hstep. injection Hstep as <- <-.
      apply IH in Hrest as (-> & Hin). split; [by rewrite <- app_assoc|].
      intros t Ht. apply Hin in Ht as [Ht|Ht]; [|by right].
      apply elem_of_union in Ht as [Ht|Ht]; [by left|].
      apply elem_of_singleton in Ht as ->. right. by exists code, c.
    + injection Hstep as <- <-.
      apply IH in Hrest as (-> & Hin). split; [by rewrite <- app_assoc|done].
Qed.

(** X14: with smart mode on, nothing declared and no source targets, the
    addresses that [smart_mode_setup] returns are exactly the addresses
    derived from the contract creations of the seed state, without
    duplicates; one [eth_getCode] request was sent for each, in the order
    returned; and every target returned is the main source file of a contract
    that the resolver knows. *)
Theorem smart_mode_derives_from_chain (host : Host) (self : RPCClient)
    (seed_state : SeedState) (source_targets : option (list string))
    (artifacts : IDEArtifacts) (tr : list event)
    (addresses targets : list string) (tr' : list event) :
  Spec.declared seed_state = [] ->
  nonempty source_targets = false ->
  smart_mode_setup host self true seed_state source_targets artifacts tr
  = (Ok (addresses, targets), tr') ->
  exists deployed tr1,
    get_all_deployed_contracts_addresses host seed_state tr = (Ok deployed, tr1)
    /\ NoDup addresses
    /\ (forall a, a ∈ addresses <-> a ∈ deployed)
    /\ tr' = tr1 ++ map (fun a => Call (EthGetCode a)) addresses
    /\ NoDup targets
    /\ (forall t, t ∈ targets ->
          exists code c, get_contract artifacts code = Some c
                         /\ c !! "mainSourceFile" = Some (Some t)).
Proof.
  intros Hdecl Hnone H. unfold smart_mode_setup in H.
  assert (Hempty : addresses_under_test seed_state = ∅).
  { apply set_eq. intros x. rewrite addresses_under_test_spec, Hdecl.
    split; [intros (a & Ha & _); by apply not_elem_of_nil in Ha|].
    intros Hx. by apply not_elem_of_empty in Hx. }
  rewrite Hempty, Hnone in H.
  rewrite bool_decide_eq_true_2 in H by done. cbn [negb andb orb] in H.
  rewrite bind_ret in H.
  apply bind_inv_ok in H as (deployed & tr1 & Hdep & H).
  apply bind_inv_ok in H as (T & tr2 & Hloop & H).
  injection H as <- <- <-.
  apply derive_targets_loop in Hloop as (-> & Hin).
  exists deployed, tr1. split; [done|]. split; [apply NoDup_elements|].
  split; [intros a; apply elem_of_elements|]. split; [done|].
  split; [apply NoDup_elements|].
  intros t Ht. apply elem_of_elements, Hin in Ht as [Ht|Ht]; [|done].
  exfalso. destruct source_targets as [[|x l]|]; simpl in *;
    solve [discriminate | by apply not_elem_of_empty in Ht].
Qed.

Lemma smart_mode_derives_from_chain_witness :
  smart_mode_setup Scenario.host0 Scenario.two_block_node true
    (Scenario.seed_state_of None None Scenario.two_block_steps) None
    Scenario.artifacts_rel []
  = (Ok (["0xaa0"], ["contracts/Foo.sol"]),
     [MkAddress "AA" 0; Call (EthGetCode "0xaa0")])
  /\ NoDup ["0xaa0"].
Proof.
  assert (H : smart_mode_setup Scenario.host0 Scenario.two_block_node true
                (Scenario.seed_state_of None None Scenario.two_block_steps) None
                Scenario.artifacts_rel []
              = (Ok (["0xaa0"], ["contracts/Foo.sol"]),
                 [MkAddress "AA" 0; Call (EthGetCode "0xaa0")]))
    by (vm_compute; reflexivity).
  split; [exact H|].
  destruct (smart_mode_derives_from_chain Scenario.host0 Scenario.two_block_node
              (Scenario.seed_state_of None None Scenario.two_block_steps) None
              Scenario.artifacts_rel [] _ _ _ eq_refl eq_refl H)
    as (deployed & tr1 & _ & Hnd & _).
  exact Hnd.
Defined.

(** ** Dangling contracts *)




(** When the path check accepts no path, the loop appends an entry for
    every address. *)
Lemma dangling_loop_all (host : Host) (self : RPCClient) (artifacts : IDEArtifacts)
    (source_targets : list string) (l : list string) :
  (forall p, path_inclusion_checker host source_targets p <> Ok true) ->
  forall (acc dangling : list (option string * string)) tr tr',
    for_each
      (fun dangling contract_address =>
         contract <- get_contract_by_address self contract_address artifacts ;;
         match contract with
         | None => ret (dangling ++ [(None, contract_address)])
         | Some contract =>
             match dict_get contract "mainSourceFile" None with
             | None => ret (dangling ++ [(None, contract_address)])
             | Some _ =>
                 source <- main_source_file contract ;;
                 included <- lift (path_inclusion_checker host source_targets
                                     (normalize_path artifacts source)) ;;
                 if included then ret dangling
                 else ret (dangling ++
                           [(dict_get contract "mainSourceFile" None, contract_address)])
             end
         end)
      l acc tr
    = (Ok dangling, tr') ->
    exists new, dangling = acc ++ new /\ new.*2 = l.
Proof.
  intros Hnever. induction l as [|a l IH]; intros acc dangling tr tr'; cbn [for_each].
  - intros [= <- <-]. exists []. by rewrite app_nil_r.
  - intros H. apply bind_inv_ok in H as (acc1 & tr1 & Hstep & Hrest).
    apply bind_inv_ok in Hstep as (contract & tr0 & Hget & Hstep).
    apply IH in Hrest as (new & -> & <-). clear IH.
    assert (Hone : exists t, acc1 = acc ++ [(t, a)]).
    { destruct contract as [c|]; [|injection Hstep as <- _; by exists None].
      apply get_contract_by_address_some in Hget as (code & s & Hc & Hs).
      unfold dict_get, main_source_file, getitem in Hstep. rewrite Hs in Hstep.
      cbn [default] in Hstep.
      destruct (path_inclusion_checker host source_targets (normalize_path artifacts s))
        as [[|]|e] eqn:Hchk; unfold bind, ret, lift, raise in Hstep;
        rewrite Hchk in Hstep; [by apply Hnever in Hchk| |discriminate].
      injection Hstep as <- _. by exists (Some s). }
    destruct Hone as [t ->]. exists ((t, a) :: new). by rewrite <- app_assoc.
Qed.

(** X16: without source targets the path check accepts nothing, so that
    [collect_dangling_contracts] reports every address it is given, in
    order, whether its contract was resolved or not. *)
Theorem no_source_targets_all_dangling (host : Host) (self : RPCClient)
    (addresses : list string) (artifacts : IDEArtifacts)
    (tr : list event) (dangling : list (option string * string)) (tr' : list event) :
  collect_dangling_contracts host self addresses artifacts [] tr = (Ok dangling, tr') ->
  dangling.*2 = addresses.
Proof.
  unfold collect_dangling_contracts. intros H.
  apply dangling_loop_all in H as (new & -> & <-); [by rewrite app_nil_l|].
  intros p. unfold path_inclusion_checker, inner_checker, directory_paths, file_paths.
  cbn [foldl in_directories]. case_decide as Hin; [by apply elem_of_nil in Hin|discriminate].
Qed.

Lemma no_source_targets_all_dangling_witness :
  collect_dangling_contracts Scenario.host0 Scenario.two_block_node ["0xaa0"; "0xbeef"]
    Scenario.artifacts_rel [] []
  = (Ok [(Some "contracts/Foo.sol", "0xaa0"); (None, "0xbeef")],
     [Call (EthGetCode "0xaa0"); Call (EthGetCode "0xbeef")])
  /\ [(Some "contracts/Foo.sol", "0xaa0"); (@None string, "0xbeef")].*2
     = ["0xaa0"; "0xbeef"].
Proof.
  assert (H : collect_dangling_contracts Scenario.host0 Scenario.two_block_node
                ["0xaa0"; "0xbeef"] Scenario.artifacts_rel [] []
              = (Ok [(Some "contracts/Foo.sol", "0xaa0"); (None, "0xbeef")],
                 [Call (EthGetCode "0xaa0"); Call (EthGetCode "0xbeef")]))
    by (vm_compute; reflexivity).
  split; [exact H|].
  exact (no_source_targets_all_dangling _ _ _ _ _ _ _ H).
Defined.

(** ** The validation pipeline: failures and success *)

Lemma quiet_get_inconsistent_addresses (host : Host) (self : RPCClient)
    (seed_state : SeedState) :
  Spec.quiet (get_inconsistent_addresses host self seed_state).
Proof.
  unfold get_inconsistent_addresses. apply quiet_bind; [apply quiet_get_all_deployed|].
  intros deployed. cbv zeta. apply quiet_bind; [|intros; apply quiet_ret].
  apply quiet_for_each. intros missing a. unfold add_missing_target.
  case_decide; [apply quiet_ret|].
  apply quiet_bind; [apply quiet_get_code|]. intros code. apply quiet_ret.
Qed.

(** The stages of [check_contracts] after the smart-mode resolution, before
    the handler: what they raise is one of the three reports, or no
    [ClickException]. *)
Lemma check_stages_raise (host : Host) (self : RPCClient) (seed_state : SeedState)
    (artifacts : IDEArtifacts) (addresses targets : list string) tr e tr' :
  (inconsistent <- get_inconsistent_addresses host self seed_state ;;
   _ <- (if is_nil inconsistent.2 then ret tt
         else handle_unknown_target_addresses inconsistent.2) ;;
   collected <- collect_mismatched_targets self inconsistent.1 artifacts targets ;;
   _ <- (if is_nil collected.1 then ret tt
         else handle_mismatched_targets collected.1) ;;
   _ <- (if is_nil collected.2 then ret tt
         else handle_missing_target_addresses collected.2) ;;
   dangling_contract_targets <-
     collect_dangling_contracts host self addresses artifacts targets ;;
   if is_nil dangling_contract_targets then ret tt
   else handle_dangling_contracts dangling_contract_targets) tr = (Raise e, tr') ->
  (exists unknown, unknown <> [] /\ e = ClickException (unknown_targets_message unknown))
  \/ (exists mismatched,
        mismatched <> [] /\ e = ClickException (mismatched_targets_message mismatched))
  \/ (exists dangling,
        dangling <> [] /\ e = ClickException (dangling_contracts_message dangling))
  \/ is_ClickException e = false.
Proof.
  intros H. apply bind_inv_raise in H as [H|([missing unknown] & tr1 & _ & H)].
  { do 3 right. by apply quiet_get_inconsistent_addresses in H. }
  cbn [fst snd] in H. apply bind_inv_raise in H as [H|(u & tr2 & _ & H)].
  { destruct unknown as [|x unknown]; [discriminate|].
    injection H as <- <-. left. by exists (x :: unknown). }
  apply bind_inv_raise in H as [H|([mismatched resolved] & tr3 & _ & H)].
  { do 3 right. by apply quiet_collect_mismatched_targets in H. }
  cbn [fst snd] in H. apply bind_inv_raise in H as [H|(u' & tr4 & _ & H)].
  { destruct mismatched as [|x mismatched]; [discriminate|].
    injection H as <- <-. right. left. by exists (x :: mismatched). }
  apply bind_inv_raise in H as [H|(u'' & tr5 & _ & H)].
  { destruct resolved; discriminate. }
  apply bind_inv_raise in H as [H|(dangling & tr6 & _ & H)].
  { do 3 right. by apply quiet_collect_dangling_contracts in H. }
  destruct dangling as [|x dangling]; [discriminate|].
  injection H as <- <-. right. right. left. by exists (x :: dangling).
Qed.

(** X17: once the smart-mode resolution has passed, [check_contracts] fails
    in five ways only: with one of its three reports (unknown targets,
    mismatched targets, dangling contracts), each over a list that is not
    empty; with the [UsageError] that carries the text of a failed request; or
    with an exception that is neither a [ClickException] nor an
    [RPCCallError], passed on as it is. *)
Theorem check_contracts_failures (host : Host) (self : RPCClient)
    (seed_state : SeedState) (artifacts : IDEArtifacts)
    (source_targets : option (list string)) (smart_mode : bool)
    (tr : list event) (processed : list string * list string) (tr1 : list event)
    (e : exn) (tr' : list event) :
  smart_mode_setup host self smart_mode seed_state source_targets artifacts tr
  = (Ok processed, tr1) ->
  check_contracts host self seed_state artifacts source_targets smart_mode tr
  = (Raise e, tr') ->
  (exists unknown, unknown <> [] /\ e = ClickException (unknown_targets_message unknown))
  \/ (exists mismatched,
        mismatched <> [] /\ e = ClickException (mismatched_targets_message mismatched))
  \/ (exists dangling,
        dangling <> [] /\ e = ClickException (dangling_contracts_message dangling))
  \/ (exists r, e = UsageError (str_RPCCallError host (rpc_url self) r))
  \/ (is_ClickException e = false /\ forall r, e <> RPCCallError r).
Proof.
  intros Hsetup H. unfold check_contracts in H.
  rewrite (bind_ok _ _ _ _ _ Hsetup) in H. cbv zeta in H. unfold try_except in H.
  match type of H with
  | match ?m tr1 with _ => _ end = _ => destruct (m tr1) as [[u|e0] tr2] eqn:E
  end; [discriminate|].
  apply check_stages_raise in E as [(l & Hl & ->)|[(l & Hl & ->)|[(l & Hl & ->)|Hq]]].
  - injection H as <- <-. left. by exists l.
  - injection H as <- <-. right. left. by exists l.
  - injection H as <- <-. right. right. left. by exists l.
  - do 3 right. destruct e0; try discriminate; injection H as <- <-;
      solve [left; by eexists | right; split; [done|discriminate]].
Qed.

Lemma check_contracts_failures_witness :
  (exists unknown,
     unknown <> []
     /\ ClickException "Unable to find contracts deployed at 0xbeef"
        = ClickException (unknown_targets_message unknown))
  \/ (exists mismatched,
        mismatched <> []
        /\ ClickException "Unable to find contracts deployed at 0xbeef"
           = ClickException (mismatched_targets_message mismatched))
  \/ (exists dangling,
        dangling <> []
        /\ ClickException "Unable to find contracts deployed at 0xbeef"
           = ClickException (dangling_contracts_message dangling))
  \/ (exists r,
        ClickException "Unable to find contracts deployed at 0xbeef"
        = UsageError (str_RPCCallError Scenario.host0 (rpc_url Scenario.two_block_node) r))
  \/ (is_ClickException (ClickException "Unable to find contracts deployed at 0xbeef")
      = false
      /\ forall r, ClickException "Unable to find contracts deployed at 0xbeef"
                   <> RPCCallError r).
Proof.
  apply (check_contracts_failures Scenario.host0 Scenario.two_block_node
           Scenario.seed_with_unknown Scenario.artifacts_rel
           (Some ["contracts/Foo.sol"]) false []
           (["0xaa0"; "0xbeef"], ["contracts/Foo.sol"]) [] _ [MkAddress "AA" 0]).
  - vm_compute. reflexivity.
  - vm_compute. reflexivity.
Defined.

(** X18: the failure of a request leaves [check_contracts] as an
    [RPCCallError] exactly when the smart-mode resolution raised it: that call
    stands before the [try], so its errors pass unchanged, with the trace as
    the resolution left it, while the handler turns the [RPCCallError] of every
    later stage into a [UsageError]. *)
Theorem check_contracts_rpc_error_is_of_smart_mode (host : Host) (self : RPCClient)
    (seed_state : SeedState) (artifacts : IDEArtifacts)
    (source_targets : option (list string)) (smart_mode : bool)
    (tr : list event) (r : request) (tr' : list event) :
  check_contracts host self seed_state artifacts source_targets smart_mode tr
  = (Raise (RPCCallError r), tr')
  <-> smart_mode_setup host self smart_mode seed_state source_targets artifacts tr
      = (Raise (RPCCallError r), tr').
Proof.
  split.
  - unfold check_contracts. intros H.
    apply bind_inv_raise in H as [H|(processed & tr1 & _ & H)]; [done|].
    cbv zeta in H. unfold try_except in H.
    match type of H with
    | match ?m tr1 with _ => _ end = _ => destruct (m tr1) as [[u|e0] tr2]
    end; [discriminate|].
    destruct e0; discriminate.
  - intros H. unfold check_contracts. by apply bind_raise.
Qed.

Lemma check_contracts_rpc_error_is_of_smart_mode_witness :
  check_contracts Scenario.host0 Cases.flaky_node
    (Scenario.seed_state_of None None Scenario.two_block_steps)
    Scenario.artifacts_rel None true []
  = (Raise (RPCCallError (EthGetCode "0xaa0")),
     [MkAddress "AA" 0; Call (EthGetCode "0xaa0")]).
Proof.
  apply check_contracts_rpc_error_is_of_smart_mode. vm_compute. reflexivity.
Defined.



(** ** The payload keys of [run.py] *)

Lemma move_key_spec {V : Type} (new old : string) (payload : gmap string V) :
  Run.move_key new old payload
  = match payload !! old with
    | Some v => (Ok tt, <[new := v]> (delete old payload))
    | None => (Raise (KeyError old), payload)
    end.
Proof. unfold Run.move_key, Run.pop, Run.setitem. by destruct (payload !! old). Qed.

(** [camel_case_payload] is the list of its statements. *)
Lemma camel_case_payload_move_keys {V : Type} (payload : gmap string V) :
  Run.camel_case_payload payload = Run.move_keys Run.renamed_keys payload.
Proof.
  unfold Run.camel_case_payload, Run.renamed_keys. cbn [Run.move_keys]. unfold Run.seq.
  repeat match goal with
         | |- context [Run.move_key ?n ?o ?p] =>
             destruct (Run.move_key n o p) as [[[]|?] ?]; try reflexivity
         end.
Qed.

Lemma renamed_keys_NoDup : NoDup ((Run.renamed_keys).*1 ++ (Run.renamed_keys).*2).
Proof. apply (bool_decide_unpack _). vm_compute. reflexivity. Qed.

(** The statements of a list of pairs whose keys are all different: when
    every key to read is there, each key written takes the value of the key
    read, the keys read are gone, and no other key changes. *)
Lemma move_keys_ok {V : Type} (pairs : list (string * string)) :
  NoDup (pairs.*1 ++ pairs.*2) ->
  forall payload : gmap string V,
    (forall old, old ∈ pairs.*2 -> is_Some (payload !! old)) ->
    exists payload',
      Run.move_keys pairs payload = (Ok tt, payload')
      /\ (forall new old, (new, old) ∈ pairs ->
            payload' !! new = payload !! old /\ payload' !! old = None)
      /\ (forall k, k ∉ pairs.*1 -> k ∉ pairs.*2 -> payload' !! k = payload !! k).
Proof.
  induction pairs as [|[n o] rest IH]; intros Hnd payload Hall.
  - exists payload. split; [done|]. split; [|done].
    intros new old Hin. by apply elem_of_nil in Hin.
  - cbn [fmap list_fmap fst snd app] in Hnd.
    apply NoDup_cons in Hnd as [Hn Hnd].
    assert (Hnd' : NoDup (rest.*1 ++ rest.*2)).
    { apply NoDup_app in Hnd as (H1 & H2 & H3). apply NoDup_cons in H3 as [_ H3].
      apply NoDup_app. split; [done|]. split; [|done].
      intros x Hx Hx'. apply (H2 x Hx). by right. }
    assert (Ho : (o ∉ rest.*1) /\ (o ∉ rest.*2) /\ o <> n).
    { apply NoDup_app in Hnd as (H1 & H2 & H3). apply NoDup_cons in H3 as [H3 _].
      split; [|split; [done|]].
      - intros Hx. apply (H2 o Hx). by left.
      - intros ->. apply Hn. apply elem_of_app. right. by left. }
    destruct Ho as (Ho1 & Ho2 & Hon).
    assert (Hn' : (n ∉ rest.*1) /\ (n ∉ rest.*2)).
    { rewrite elem_of_app in Hn. split; intros Hx; apply Hn; [by left|].
      right. by right. }
    destruct Hn' as [Hn1 Hn2].
    destruct (Hall o) as [v Hv]; [by left|].
    cbn [Run.move_keys]. unfold Run.seq. rewrite move_key_spec, Hv.
    destruct (IH Hnd' (<[n := v]> (delete o payload))) as (payload' & Hrun & Hmoved & Hkept).
    { intros old Hold. rewrite lookup_insert_ne by (intros ->; done).
      rewrite lookup_delete_ne by (intros ->; done). apply Hall. by right. }
    exists payload'. split; [done|]. split.
    + intros new old Hin. apply elem_of_cons in Hin as [[= -> ->]|Hin].
      * rewrite !Hkept by done.
        rewrite lookup_insert_eq, lookup_insert_ne, lookup_delete_eq by done. done.
      * destruct (Hmoved new old Hin) as [H1 H2]. split; [|done].
        rewrite H1. assert (Hold : old ∈ rest.*2).
        { apply list_elem_of_fmap. by exists (new, old). }
        rewrite lookup_insert_ne by (intros ->; done).
        by rewrite lookup_delete_ne by (intros ->; done).
    + intros k Hk1 Hk2. cbn [fmap list_fmap fst snd] in Hk1, Hk2.
      apply not_elem_of_cons in Hk1 as [Hkn Hk1].
      apply not_elem_of_cons in Hk2 as [Hko Hk2].
      rewrite Hkept by done. rewrite lookup_insert_ne by done.
      by rewrite lookup_delete_ne by done.
Qed.

(** The statements of a list of pairs whose keys are all different: they
    stop at the first key to read that is not there, with the [KeyError] of
    that key, the pairs before it moved and nothing else changed. *)
Lemma move_keys_raise {V : Type} (pairs : list (string * string)) :
  NoDup (pairs.*1 ++ pairs.*2) ->
  forall (payload : gmap string V) e payload',
    Run.move_keys pairs payload = (Raise e, payload') ->
    exists moved new old rest,
      pairs = moved ++ (new, old) :: rest
      /\ e = KeyError old
      /\ payload !! old = None
      /\ (forall n o, (n, o) ∈ moved ->
            is_Some (payload !! o)
            /\ payload' !! n = payload !! o /\ payload' !! o = None)
      /\ (forall k, k ∉ moved.*1 -> k ∉ moved.*2 -> payload' !! k = payload !! k).
Proof.
  induction pairs as [|[n o] rest IH]; intros Hnd payload e payload' H.
  - discriminate.
  - cbn [fmap list_fmap fst snd app] in Hnd.
    apply NoDup_cons in Hnd as [Hn Hnd].
    assert (Hnd' : NoDup (rest.*1 ++ rest.*2)).
    { apply NoDup_app in Hnd as (H1 & H2 & H3). apply NoDup_cons in H3 as [_ H3].
      apply NoDup_app. split; [done|]. split; [|done].
      intros x Hx Hx'. apply (H2 x Hx). by right. }
    assert (Ho : (o ∉ rest.*1) /\ (o ∉ rest.*2) /\ o <> n).
    { apply NoDup_app in Hnd as (H1 & H2 & H3). apply NoDup_cons in H3 as [H3 _].
      split; [|split; [done|]].
      - intros Hx. apply (H2 o Hx). by left.
      - intros ->. apply Hn. apply elem_of_app. right. by left. }
    destruct Ho as (Ho1 & Ho2 & Hon).
    assert (Hn' : (n ∉ rest.*1) /\ (n ∉ rest.*2)).
    { rewrite elem_of_app in Hn. split; intros Hx; apply Hn; [by left|].
      right. by right. }
    destruct Hn' as [Hn1 Hn2].
    cbn [Run.move_keys] in H. unfold Run.seq in H. rewrite move_key_spec in H.
    destruct (payload !! o) as [v|] eqn:Hv.
    2:{ injection H as <- <-. exists [], n, o, rest. split; [done|]. split; [done|].
        split; [done|]. split; [|done]. intros n' o' Hin. by apply elem_of_nil in Hin. }
    apply (IH Hnd') in H as (moved & new & old & rest' & -> & -> & Hold & Hmoved & Hkept).
    assert (Hin_old : old ∈ (moved ++ (new, old) :: rest').*2).
    { apply list_elem_of_fmap. exists (new, old). split; [done|].
      apply elem_of_app. right. by left. }
    exists ((n, o) :: moved), new, old, rest'. split; [done|]. split; [done|].
    split.
    { rewrite lookup_insert_ne in Hold by (intros ->; done).
      by rewrite lookup_delete_ne in Hold by (intros ->; done). }
    assert (Hsub1 : forall k, k ∈ moved.*1 -> k ∈ (moved ++ (new, old) :: rest').*1).
    { intros k Hk. rewrite fmap_app, elem_of_app. by left. }
    assert (Hsub2 : forall k, k ∈ moved.*2 -> k ∈ (moved ++ (new, old) :: rest').*2).
    { intros k Hk. rewrite fmap_app, elem_of_app. by left. }
    split.
    + intros n' o' Hin. apply elem_of_cons in Hin as [[= -> ->]|Hin].
      * split; [by eexists|].
        rewrite !Hkept by (intros Hx; first [apply Hsub1 in Hx|apply Hsub2 in Hx]; done).
        rewrite lookup_insert_eq, lookup_insert_ne, lookup_delete_eq by done. by rewrite Hv.
      * destruct (Hmoved n' o' Hin) as (H0 & H1 & H2).
        assert (Ho' : o' ∈ moved.*2).
        { apply list_elem_of_fmap. by exists (n', o'). }
        apply Hsub2 in Ho'.
        rewrite lookup_insert_ne in H0, H1 by (intros ->; done).
        rewrite lookup_delete_ne in H0, H1 by (intros ->; done).
        done.
    + intros k Hk1 Hk2. cbn [fmap list_fmap fst snd] in Hk1, Hk2.
      apply not_elem_of_cons in Hk1 as [Hkn Hk1].
      apply not_elem_of_cons in Hk2 as [Hko Hk2].
      rewrite Hkept by done. rewrite lookup_insert_ne by done.
      by rewrite lookup_delete_ne by done.
Qed.

(** X20: on a payload that holds the seven keys in snake case,
    [camel_case_payload] returns; afterwards each key in camel case holds the
    value its snake-case key held (whatever it held itself before), the seven
    snake-case keys are gone, and every other key is as it was. *)
Theorem camel_case_payload_renames {V : Type} (payload : gmap string V) :
  (forall old, old ∈ (Run.renamed_keys).*2 -> is_Some (payload !! old)) ->
  exists payload',
    Run.camel_case_payload payload = (Ok tt, payload')
    /\ (forall new old, (new, old) ∈ Run.renamed_keys ->
          payload' !! new = payload !! old /\ payload' !! old = None)
    /\ (forall k, k ∉ (Run.renamed_keys).*1 -> k ∉ (Run.renamed_keys).*2 ->
          payload' !! k = payload !! k).
Proof.
  intros Hall. rewrite camel_case_payload_move_keys.
  by apply move_keys_ok; [apply renamed_keys_NoDup|].
Qed.

Lemma camel_case_payload_renames_witness :
  exists payload',
    Run.camel_case_payload Run.payload0 = (Ok tt, payload')
    /\ (forall new old, (new, old) ∈ Run.renamed_keys ->
          payload' !! new = Run.payload0 !! old /\ payload' !! old = None)
    /\ (forall k, k ∉ (Run.renamed_keys).*1 -> k ∉ (Run.renamed_keys).*2 ->
          payload' !! k = Run.payload0 !! k).
Proof.
  apply (camel_case_payload_renames Run.payload0).
  intros old Hold.
  change ((Run.renamed_keys).*2)
    with ["main_source"; "solc_version"; "contract_name"; "source_map"; "source_list";
          "deployed_bytecode"; "deployed_source_map"] in Hold.
  repeat (apply elem_of_cons in Hold as [->|Hold]; [by eexists|]).
  by apply elem_of_nil in Hold.
Defined.

(** X21: [camel_case_payload] raises only a [KeyError], that of the first
    snake-case key the payload lacks; the payload is then left half renamed:
    the keys of the statements before that one have moved, and nothing else
    has changed. *)
Theorem camel_case_payload_missing_key {V : Type} (payload : gmap string V)
    (e : exn) (payload' : gmap string V) :
  Run.camel_case_payload payload = (Raise e, payload') ->
  exists moved new old rest,
    Run.renamed_keys = moved ++ (new, old) :: rest
    /\ e = KeyError old
    /\ payload !! old = None
    /\ (forall n o, (n, o) ∈ moved ->
          is_Some (payload !! o) /\ payload' !! n = payload !! o /\ payload' !! o = None)
    /\ (forall k, k ∉ moved.*1 -> k ∉ moved.*2 -> payload' !! k = payload !! k).
Proof.
  rewrite camel_case_payload_move_keys. apply move_keys_raise, renamed_keys_NoDup.
Qed.

Lemma camel_case_payload_missing_key_witness :
  exists moved new old rest,
    Run.renamed_keys = moved ++ (new, old) :: rest
    /\ KeyError "source_map" = KeyError old
    /\ Run.payload_without_source_map !! old = None
    /\ (forall n o, (n, o) ∈ moved ->
          is_Some (Run.payload_without_source_map !! o)
          /\ (snd (Run.camel_case_payload Run.payload_without_source_map)) !! n
             = Run.payload_without_source_map !! o
          /\ (snd (Run.camel_case_payload Run.payload_without_source_map)) !! o = None)
    /\ (forall k, k ∉ moved.*1 -> k ∉ moved.*2 ->
          (snd (Run.camel_case_payload Run.payload_without_source_map)) !! k
          = Run.payload_without_source_map !! k).
Proof.
  apply (camel_case_payload_missing_key Run.payload_without_source_map).
  assert (H : fst (Run.camel_case_payload Run.payload_without_source_map)
              = Raise (KeyError "source_map")) by (vm_compute; reflexivity).
  rewrite <- H. by destruct (Run.camel_case_payload Run.payload_without_source_map).
Defined.
